(* ===== verification/_CoqProject ===== *)
-Q . S2P
Prelude.v
PyStr.v
Utf8.v
Regex.v
PySort.v
Normalizer.v
Noise.v
Percentile.v
Grouper.v
Title.v
Form.v
Headings.v
Json.v
Output.v
FileSys.v
Processor.v
Batch.v
