(* ===== verification/Prelude.v ===== *)
(** * Layout-based outline extraction (src/main.py): a Rocq model

    ** The program
    [src/main.py] reads every PDF of [/app/input] ([main]), asks
    pdfplumber for the positioned words of each page ([process_pdf]),
    groups them into visual lines ([extract_lines]), assembles a title
    from the largest lines at the top of page 0
    ([merge_multiline_title]), decides whether page 0 looks like a form
    ([is_form_pdf]) and otherwise classifies lines into an H1/H2/H3
    outline by font-size percentiles ([extract_headings], which calls
    [merge_multiline_headings], [clean_line] and [is_noisy_heading]).
    It writes [{"title", "outline"}] as JSON per input file, in UTF-8.

    ** Files, leaves first (each opens with its own summary)
    - [Prelude.v] (this file): libraries, the scope [pdf_scope], the
      hint databases [pdf] and [pdf_rw], boolean comparison on [Q]
      with its reflection tactics, Python's [min]/[max] ([py_min],
      [py_max]: the first extremum wins) and shared list lemmas.
    - [PyStr.v]: the [str] built-ins (strip, split, lower, [in], join)
      and [re.sub(r'\s+', ' ', _)] ([sub_ws]) on strings as lists of
      code points, with the lemmas on normal white space.
    - [Utf8.v]: the [encoding="utf-8"] of the output file: CPython's
      per-character encoder with its bit operations ([encode_char]),
      the strict error handler raising at the first surrogate
      ([utf8_encode]), and a reference decoder for the round trip.
    - [Regex.v]: a reference semantics of Python's [re] for the
      constructs of the program's patterns: a syntax [regex], a
      backtracking matcher [re_run] listing match ends in [sre]'s
      order, and [re_search], [re_fullmatch], [re_sub] built on it.
    - [PySort.v]: [sorted(key=...)] as a stable insertion sort
      ([py_sorted]) over the class [PyOrd] of Python's [<], with the
      class [PyOrdLaws] (strict weak order) that the clients use;
      instances for floats ([Q]), ints ([Z]) and tuples.
    - [Normalizer.v]: [dedupe_chars] (the scan of
      [([A-Za-z])\1{2,}], [dedupe_go]) and [clean_line], lines 12-18.
    - [Noise.v]: [is_noisy_heading], lines 20-30, with executable
      recognisers for its [fullmatch] and its IGNORECASE [search], and
      the two patterns as [regex] values ([caps_re], [noise_re]).
    - [Percentile.v]: numpy's [percentile] (linear method) used at
      lines 111-113; numpy is a library, modelled from its definition.
    - [Grouper.v]: the [word] and [line] records and [extract_lines],
      lines 32-62; the [defaultdict] is an insertion-ordered
      association list ([group_words], [dd_append]).
    - [Title.v]: [merge_multiline_title], lines 64-72.
    - [Form.v]: [is_form_pdf], lines 74-79.
    - [Headings.v]: [merge_multiline_headings] as the code's skip-set
      loop ([merge_loop], [absorb_loop]) and [extract_headings]
      ([heading_candidates], [outline_loop] with the [seen] set),
      lines 81-146.
    - [Json.v]: Python's [json.dump(..., ensure_ascii=False, indent=2)]
      for the values the program writes (str, int, list, dict): [dump]
      follows [json.encoder]'s indentation, separators and string
      escapes; [json_loads] is a reference decoder (fuel: the text
      length) used to state the round trip; [iterencode] lists the
      chunks [json.dump] passes to [f.write], one per value the
      generator [_make_iterencode] yields.
    - [Output.v]: the outline entry dicts (lines 139-143) and the output
      dict (lines 162-165) as JSON values, the written text
      [output_text], the reader [read_output], and the specification's
      output contract as a [schema].
    - [FileSys.v]: the file system as a [disk] (a [gset] of
      directories and a [gmap] from paths to file bytes) and the calls
      the program makes on it with their Python exceptions:
      [open(path, "w")] ([open_w]: the kernel's walk over the
      ancestors of the path ([ancestors], [walk]) raises
      [FileNotFoundError] at the first missing one and
      [NotADirectoryError] at the first regular file; then
      [IsADirectoryError] on a directory, else the file is truncated), [f.write]
      ([write_chunk], [write_chunks]: UTF-8 bytes appended chunk by
      chunk, [UnicodeEncodeError] before a chunk without an encoding)
      and [os.makedirs(path, exist_ok=True)] ([makedirs]:
      [FileExistsError] when the target is a regular file,
      [NotADirectoryError] when an ancestor is), lines 166-167 and 170.
    - [Processor.v]: [process_pdf], lines 148-167: [collect_lines],
      [build_result], then [open_w] and [write_chunks] of the chunks of
      the output dict.  The text-extraction boundary is the class
      [PdfSource]: the words of every page, or an [ExtractionFailure],
      with the law that word texts are Python strings (code points
      below U+110000).  [process_pdf] returns the disk together with
      the exception that left it ([py_error]: [Extract], [OSErr] or
      [UnicodeEncodeError]), since a failed write changes the disk.
    - [Batch.v]: [main], lines 169-175: [makedirs] of the output
      directory, the [.pdf] filter, the output names ([path_stem],
      [path_join]) and the loop [main_loop], in which the first
      exception ends the batch, threading the [disk].

    ** What is proved
    - Normaliser: the scan equals a run-length specification; the
      output has no letter stutter and normal white space; [clean_line]
      is idempotent.
    - Noise: [.com] anywhere, framed five-digit codes and label words
      in any case are noise.
    - Regular expressions: the hand-written scanners equal the [re]
      semantics on the program's patterns: [sub_ws] is
      [re.sub(r'\s+', ' ', _)] ([re_sub_ws_spec]), [noise_search] is
      the IGNORECASE [re.search] of line 26 ([noise_search_re]) and
      [fullmatch_caps] is the [re.fullmatch] of line 24
      ([fullmatch_caps_re]; no IGNORECASE, so the all-caps rule is
      case-sensitive).
    - UTF-8: text without surrogates encodes and decodes back
      ([utf8_roundtrip]); the encoder fails exactly at the first
      surrogate ([utf8_encode_error]).
    - Percentiles: monotone in [q], between the minimum and maximum,
      so the three thresholds are ordered.
    - Grouper: the groups partition the words with distinct keys; every
      line is sound for its words (page, bucket, box, size); the font
      is a leftmost word's; per-page grouping equals whole-document
      grouping; [round] is round-half-to-even.
    - Title: refinement of the title rule (reading-order join of the
      banner lines within 1.5 of the largest); normal white space.
    - Form: the float test equals an integer test; only page 0 is
      looked at.
    - Headings: the skip-set loop equals a single greedy forward scan,
      in which a continuation is absorbed whatever its level;
      levels are ordered by size; the largest line is H1; the outline
      has at most 10 distinct, non-noisy, normalised entries in page
      order, one per key of the merged headings.
    - JSON: [json_loads (json_dumps v) = Some v] for every value;
      strings without quotes, backslashes or control characters are
      written verbatim (no escaping of non-ASCII text); the chunks
      [json.dump] writes concatenate to the [json.dumps] text
      ([iterencode_dump]); the text's characters are ASCII or
      characters of its strings ([Forall_dump]).
    - File system: [makedirs] adds exactly the missing ancestors when
      none is a regular file ([makedirs_go_spec]); writing chunks that
      all encode appends the encoding of their concatenation, and an
      unencodable chunk stops the loop with the earlier chunks' bytes
      in the file ([write_chunks_ok], [write_chunks_error]).
    - Processor: every result meets the output contract.  Every
      character of the written JSON text is ASCII or a character of a
      word ([output_chars_from_words], through the character lemmas of
      each component).  When no word has a surrogate, [process_pdf]
      writes bytes that read back (UTF-8, then JSON) as the result, with
      directories and other files untouched; a normal return always
      leaves UTF-8 JSON conforming to the contract's schema.  The error
      paths: extraction failure, a missing ancestor directory, an
      ancestor that is a regular file and an output path that is a
      directory leave the disk unchanged; a lone surrogate in the JSON
      text raises [UnicodeEncodeError] after [open], leaving in the file
      exactly the bytes of the chunks before the first one that fails
      to encode ([process_pdf_partial_write]); empty documents give an
      empty result.
    - Batch: the loop keeps an invariant of the disk (directories
      unchanged, files come from before or from listed inputs, all
      inputs are written when no exception is raised, an extraction
      error is a listed input's failure); after [makedirs] [main] never
      raises an [OSError], so it can only end with an extraction
      failure or an encoding error ([main_os_safe]), while an output directory that is a regular
      file stops [main] at once; a failure stops the batch; for every
      stem, [<stem>.pdf] and [<stem>.PDF] have the same output path
      and the later one overwrites the earlier; end to end
      ([main_correct]), when every input can be read, has no surrogate
      and the output names are distinct, [main] raises nothing and every
      output file reads back as its input's title and outline.
    Theorems with hypotheses have witnesses ([*_witness], closed and
    evaluated); the [Example]s run the model on the specification's
    scenarios.

    ** Bounds and fuel
    Two loops of the program are written with fuel, both adequate by a
    theorem.
    [dedupe_go] gets [length text]: every step consumes at least one
    character ([dedupe_go_fuel_core]: any fuel at least the length
    gives the same result).  [absorb_loop] gets [length headings]: [j] grows at
    every absorbed line and the loop stops at the end of the list
    ([absorb_loop_spec] needs only [length hs - j <= fuel]).  In
    [Json.v], [digits_go] gets [N.size n + 1] (each step divides by 10,
    [digits_go_val]) and the reference decoder gets the length of the
    text plus one, enough because every node of a value takes a
    character ([json_size_dump]).  [re_sub_go] in [Regex.v] gets the
    length of the text plus one: every step consumes a character,
    because the patterns given to it never match the empty string
    ([re_sub_go_ws] holds for any fuel above the length).  All other
    recursion is structural.  Integers (page numbers, buckets) are [Z],
    unbounded like Python's.

    ** Abstractions and what is not modelled
    - Floats are rationals [Q]: sums, averages, percentiles and the
      comparisons with 1.2, 1.5, 10, 15 and 120 are exact, where the
      program rounds to binary64; NaN and infinities are not modelled.
    - [\d] and [\w] are ASCII, [str.lower] is exact on ASCII and on the
      two non-ASCII code points whose lower case is ASCII (see PyStr.v).
    - numpy's [_lerp] has two algebraically equal branches; one formula
      here.
    - pdfplumber (PDF parsing) is an external library: the words of a
      page are the input given by a [PdfSource] instance.
    - The file system is the [disk] of [FileSys.v]: permissions,
      symbolic links, other processes and disk-full errors are not
      modelled; the [os.listdir] order is an input of [main].  New
      lines are written as is ([os.linesep] is "\n" on POSIX).
    - The [re] semantics covers the constructs the patterns use; the
      back-reference of [dedupe_chars] ([\1{2,}]) is outside it, so
      [dedupe_go] is checked against a run-length specification.
    - [json] values other than str, int, list and dict (floats,
      booleans, None) and [ensure_ascii=True] are not used by the
      program and not modelled; the reference decoder reads [\uXXXX]
      as one code point (no surrogate pairs).
    - The in-place write [l['level'] = level] into shared line
      dictionaries is not observable (nothing reads it later), so the
      model uses fresh records. *)

From stdpp Require Export base list gmap countable.
From Stdlib Require Export QArith Qabs Qround ZArith NArith Lia Lqa.

(** Notations of the development live in [pdf_scope]. *)
Declare Scope pdf_scope.
Delimit Scope pdf_scope with pdf.

Create HintDb pdf.
Create Rewrite HintDb pdf_rw.

(** ** Booleans on rationals (Python's [<] and [<=] on floats). *)

Definition Qltb (a b : Q) : bool := negb (Qle_bool b a).

Notation "a <q? b" := (Qltb a b) (at level 70, no associativity) : pdf_scope.
Notation "a <=q? b" := (Qle_bool a b) (at level 70, no associativity) : pdf_scope.
Open Scope nat_scope.
Open Scope pdf_scope.

Lemma Qltb_iff a b : Qltb a b = true <-> (a < b)%Q.
Proof.
  unfold Qltb. rewrite negb_true_iff.
  split; intros H.
  - apply Qnot_le_lt. intros H'. apply Qle_bool_iff in H'. congruence.
  - destruct (Qle_bool b a) eqn:E; [|reflexivity].
    apply Qle_bool_iff in E. exfalso. apply (Qlt_not_le a b); assumption.
Qed.

Lemma Qltb_false a b : Qltb a b = false <-> (b <= a)%Q.
Proof.
  unfold Qltb. rewrite negb_false_iff. apply Qle_bool_iff.
Qed.

Lemma Qle_bool_false a b : Qle_bool a b = false <-> (b < a)%Q.
Proof.
  split; intros H.
  - apply Qnot_le_lt. intros H'. apply Qle_bool_iff in H'. congruence.
  - destruct (Qle_bool a b) eqn:E; [|reflexivity].
    apply Qle_bool_iff in E. exfalso. apply (Qlt_not_le b a); assumption.
Qed.

#[export] Hint Rewrite Qltb_iff Qltb_false Qle_bool_iff Qle_bool_false : pdf_rw.

(** [qbool] turns every boolean comparison on [Q] in the context into
    the proposition it decides. *)
Ltac qbool :=
  repeat match goal with
  | H : Qltb _ _ = true |- _ => apply Qltb_iff in H
  | H : Qltb _ _ = false |- _ => apply Qltb_false in H
  | H : Qle_bool _ _ = true |- _ => apply Qle_bool_iff in H
  | H : Qle_bool _ _ = false |- _ => apply Qle_bool_false in H
  end.

(** Case analysis on a boolean comparison occurring in the goal. *)
Ltac case_qb :=
  match goal with
  | |- context [Qltb ?a ?b] => let E := fresh "E" in destruct (Qltb a b) eqn:E
  | |- context [Qle_bool ?a ?b] => let E := fresh "E" in destruct (Qle_bool a b) eqn:E
  end; qbool.

(** ** Python's [min] and [max] over a non-empty list of floats: the
    first element is the running candidate and is replaced only by a
    strictly smaller (larger) one. *)

Definition py_min (x : Q) (xs : list Q) : Q :=
  fold_left (fun acc y => if Qltb y acc then y else acc) xs x.

Definition py_max (x : Q) (xs : list Q) : Q :=
  fold_left (fun acc y => if Qltb acc y then y else acc) xs x.

Lemma py_max_ge_acc x xs : (x <= py_max x xs)%Q.
Proof.
  revert x. induction xs as [|y xs IH]; intros x; simpl; [apply Qle_refl|].
  case_qb.
  - eapply Qle_trans; [apply Qlt_le_weak; eassumption | apply IH].
  - apply IH.
Qed.

Lemma py_max_ge x xs y : In y (x :: xs) -> (y <= py_max x xs)%Q.
Proof.
  revert x. induction xs as [|z xs IH]; intros x Hin; simpl in *.
  - destruct Hin as [->|[]]. apply Qle_refl.
  - destruct Hin as [->|[->|Hin]]; case_qb.
    + eapply Qle_trans; [apply Qlt_le_weak; eassumption | apply py_max_ge_acc].
    + apply py_max_ge_acc.
    + apply py_max_ge_acc.
    + eapply Qle_trans; [eassumption | apply py_max_ge_acc].
    + apply IH; simpl; auto.
    + apply IH; simpl; auto.
Qed.

Lemma py_max_in x xs : In (py_max x xs) (x :: xs).
Proof.
  revert x. induction xs as [|z xs IH]; intros x; simpl; [auto|].
  destruct (Qltb x z).
  - specialize (IH z). simpl in IH. tauto.
  - specialize (IH x). simpl in IH. tauto.
Qed.

Lemma py_min_le_acc x xs : (py_min x xs <= x)%Q.
Proof.
  revert x. induction xs as [|y xs IH]; intros x; simpl; [apply Qle_refl|].
  case_qb.
  - eapply Qle_trans; [apply IH | apply Qlt_le_weak; eassumption].
  - apply IH.
Qed.

Lemma py_min_le x xs y : In y (x :: xs) -> (py_min x xs <= y)%Q.
Proof.
  revert x. induction xs as [|z xs IH]; intros x Hin; simpl in *.
  - destruct Hin as [->|[]]. apply Qle_refl.
  - destruct Hin as [->|[->|Hin]]; case_qb.
    + eapply Qle_trans; [apply py_min_le_acc | apply Qlt_le_weak; eassumption].
    + apply py_min_le_acc.
    + apply py_min_le_acc.
    + eapply Qle_trans; [apply py_min_le_acc | eassumption].
    + apply IH; simpl; auto.
    + apply IH; simpl; auto.
Qed.

Lemma py_min_in x xs : In (py_min x xs) (x :: xs).
Proof.
  revert x. induction xs as [|z xs IH]; intros x; simpl; [auto|].
  destruct (Qltb z x).
  - specialize (IH z). simpl in IH. tauto.
  - specialize (IH x). simpl in IH. tauto.
Qed.

#[export] Hint Resolve py_max_ge py_min_le py_max_in py_min_in : pdf.

(** ** Generic list facts shared by the components. *)

Lemma filter_length_le {A} (p : A -> bool) (l : list A) :
  (length (List.filter p l) <= length l)%nat.
Proof. induction l as [|x l IH]; simpl; [lia|]. destruct (p x); simpl; lia. Qed.

Lemma In_filter_bool {A} (p : A -> bool) (l : list A) x :
  In x (List.filter p l) <-> In x l /\ p x = true.
Proof. apply filter_In. Qed.

(** Strong induction on the length of a list (for scans that consume
    more than one element per step). *)
Lemma list_length_ind {A} (P : list A -> Prop) :
  (forall l, (forall l', length l' < length l -> P l') -> P l) -> forall l, P l.
Proof.
  intros H l. remember (length l) as n eqn:En. revert l En.
  induction n as [n IH] using lt_wf_ind. intros l ->. apply H.
  intros l' Hl'. apply (IH (length l')); auto.
Qed.

#[export] Hint Resolve filter_length_le : pdf.

Lemma filter_filter_same {A} (p : A -> bool) (l : list A) :
  List.filter p (List.filter p l) = List.filter p l.
Proof.
  induction l as [|x l IH]; simpl; [reflexivity|].
  destruct (p x) eqn:E; simpl; [rewrite E, IH|]; auto.
Qed.

Lemma In_take {A} (x : A) n l : In x (take n l) -> In x l.
Proof. intros H. rewrite <- (firstn_skipn n l). apply in_or_app. left. exact H. Qed.

Lemma NoDup_take {A} n (l : list A) : List.NoDup l -> List.NoDup (take n l).
Proof. intros H. rewrite <- (firstn_skipn n l) in H. eapply NoDup_app_remove_r. exact H. Qed.
