(* ===== verification/PyStr.v ===== *)
(** * Python [str] semantics used by src/main.py

    A Python string is a sequence of Unicode code points: [pystr] is
    [list N].  This file gives the built-ins the program calls:
    [str.isspace] (which is also the class [\s] of [re] and the default
    of [strip()] and [split()]), [strip(chars)], [split()], [lower()],
    the [in] test on strings, [' '.join] and [re.sub(r'\s+', ' ', _)].

    Unicode scope.  [isspace] is exact on all of Unicode.  [lower] is
    exact on ASCII and on the two non-ASCII code points whose lower
    case contains an ASCII letter (U+212A KELVIN SIGN and U+0130); every
    other non-ASCII code point is left unchanged, which keeps every
    membership or substring test of [lower()] against an ASCII word
    exact, the only use the program makes of it.  The regular
    expression classes [\d] and [\w] are modelled on ASCII. *)

From S2P Require Import Prelude.
From Stdlib Require Strings.String Strings.Ascii.
Export String.StringSyntax.

Abbreviation pystr := (list N).

(** String literals of the development, written as Rocq strings of
    ASCII characters. *)
Definition str (s : String.string) : pystr :=
  map Ascii.N_of_ascii (String.list_ascii_of_string s).
Arguments str s%_string_scope.

(** ** Character classes *)

Definition py_isspace (c : N) : bool :=
  ((9 <=? c) && (c <=? 13))%N || ((28 <=? c) && (c <=? 32))%N
  || (c =? 133)%N || (c =? 160)%N || (c =? 5760)%N
  || ((8192 <=? c) && (c <=? 8202))%N
  || (c =? 8232)%N || (c =? 8233)%N || (c =? 8239)%N
  || (c =? 8287)%N || (c =? 12288)%N.

(** [[A-Za-z]] *)
Definition is_ascii_letter (c : N) : bool :=
  ((65 <=? c) && (c <=? 90))%N || ((97 <=? c) && (c <=? 122))%N.

(** [[A-Z]] *)
Definition is_ascii_upper (c : N) : bool := ((65 <=? c) && (c <=? 90))%N.

(** [\d] (ASCII digits) *)
Definition is_digit (c : N) : bool := ((48 <=? c) && (c <=? 57))%N.

(** [\w] (ASCII letters, digits and the underscore) *)
Definition is_word_char (c : N) : bool :=
  is_ascii_letter c || is_digit c || (c =? 95)%N.

(** ** [str.lower()] *)

Definition lower_char (c : N) : list N :=
  if is_ascii_upper c then [(c + 32)%N]
  else if (c =? 8490)%N then [107%N]
  else if (c =? 304)%N then [105%N; 775%N]
  else [c].

Definition py_lower (s : pystr) : pystr := List.flat_map lower_char s.

(** ** [strip] *)

Fixpoint drop_while (p : N -> bool) (s : pystr) : pystr :=
  match s with
  | [] => []
  | c :: t => if p c then drop_while p t else s
  end.

(** [s.strip(chars)] removes the characters satisfying [p] at both ends. *)
Definition strip_by (p : N -> bool) (s : pystr) : pystr :=
  rev (drop_while p (rev (drop_while p s))).

Definition mem_chars (cs : list N) (c : N) : bool := existsb (N.eqb c) cs.

(** [s.strip()] and [s.strip(chars)]. *)
Definition py_strip (s : pystr) : pystr := strip_by py_isspace s.
Definition py_strip_chars (cs : list N) (s : pystr) : pystr := strip_by (mem_chars cs) s.

(** The longest prefix whose characters satisfy [p]. *)
Fixpoint take_while (p : N -> bool) (s : pystr) : pystr :=
  match s with [] => [] | c :: t => if p c then c :: take_while p t else [] end.

(** ** [str.split()] with no argument: maximal runs of non-white-space. *)

Fixpoint split_go (cur : pystr) (s : pystr) : list pystr :=
  match s with
  | [] => match cur with [] => [] | _ => [rev cur] end
  | c :: t =>
      if py_isspace c then
        match cur with [] => split_go [] t | _ => rev cur :: split_go [] t end
      else split_go (c :: cur) t
  end.

Definition py_split (s : pystr) : list pystr := split_go [] s.

(** ** [needle in hay] *)

Fixpoint is_prefix (p s : pystr) : bool :=
  match p, s with
  | [], _ => true
  | a :: p', b :: s' => (a =? b)%N && is_prefix p' s'
  | _ :: _, [] => false
  end.

Fixpoint py_contains (needle hay : pystr) : bool :=
  is_prefix needle hay ||
  match hay with [] => false | _ :: t => py_contains needle t end.

(** ** [sep.join(xs)] *)

Fixpoint py_join (sep : pystr) (xs : list pystr) : pystr :=
  match xs with
  | [] => []
  | [x] => x
  | x :: xs' => x ++ sep ++ py_join sep xs'
  end.

(** ** [re.sub(r'\s+', ' ', s)]: the scanner replaces every maximal run
    of white space by one space; [in_run] records that the previous
    character belonged to a run already replaced. *)

Fixpoint sub_ws (in_run : bool) (s : pystr) : pystr :=
  match s with
  | [] => []
  | c :: t =>
      if py_isspace c then
        if in_run then sub_ws true t else 32%N :: sub_ws true t
      else c :: sub_ws false t
  end.

Definition re_sub_ws (s : pystr) : pystr := sub_ws false s.

(** ** Lemmas *)

Lemma is_prefix_app p s : is_prefix p (p ++ s) = true.
Proof. induction p; simpl; [reflexivity|]. rewrite N.eqb_refl. exact IHp. Qed.

Lemma is_prefix_spec p s : is_prefix p s = true <-> exists r, s = p ++ r.
Proof.
  revert s; induction p as [|a p IH]; intros s; simpl.
  - split; eauto.
  - destruct s as [|b s].
    + split; [discriminate|]. intros [r Hr]; discriminate.
    + rewrite andb_true_iff, N.eqb_eq, IH. split.
      * intros [-> [r ->]]. eauto.
      * intros [r Hr]. injection Hr as -> ->. eauto.
Qed.

Lemma py_contains_spec n h :
  py_contains n h = true <-> exists x y, h = x ++ n ++ y.
Proof.
  induction h as [|c h IH]; simpl.
  - rewrite orb_false_r, is_prefix_spec. split.
    + intros [r Hr]. exists [], r. exact Hr.
    + intros [x [y Hxy]]. exists y.
      destruct x; [exact Hxy|discriminate].
  - rewrite orb_true_iff, is_prefix_spec, IH. split.
    + intros [[r Hr]|[x [y ->]]].
      * exists [], r. exact Hr.
      * exists (c :: x), y. reflexivity.
    + intros [x [y Hxy]]. destruct x as [|a x].
      * left. exists y. exact Hxy.
      * right. injection Hxy as -> ->. eauto.
Qed.

Lemma drop_while_suffix p s : exists x, s = x ++ drop_while p s.
Proof.
  induction s as [|c t IH]; simpl; [exists []; reflexivity|].
  destruct (p c).
  - destruct IH as [x Hx]. exists (c :: x). simpl. congruence.
  - exists []. reflexivity.
Qed.

Lemma strip_by_infix p s : exists x y, s = x ++ strip_by p s ++ y.
Proof.
  unfold strip_by.
  destruct (drop_while_suffix p s) as [x Hx].
  destruct (drop_while_suffix p (rev (drop_while p s))) as [y Hy].
  exists x, (rev y).
  rewrite Hx at 1. f_equal.
  set (d := drop_while p s) in *.
  transitivity (rev (rev d)); [symmetry; apply rev_involutive|].
  rewrite Hy at 1. apply rev_app_distr.
Qed.

#[export] Hint Resolve is_prefix_app : pdf.

(** ** White-space normal form: every white-space character is a
    single space, never next to another white-space character. *)

Fixpoint ws_ok (in_run : bool) (s : pystr) : bool :=
  match s with
  | [] => true
  | c :: t =>
      if py_isspace c then negb in_run && (c =? 32)%N && ws_ok true t
      else ws_ok false t
  end.

Lemma sub_ws_ok b s : ws_ok b s = true -> sub_ws b s = s.
Proof.
  revert b; induction s as [|c t IH]; intros b; simpl; [reflexivity|].
  destruct (py_isspace c); [|intros H; f_equal; auto].
  destruct b; simpl; [discriminate|].
  rewrite andb_true_iff, N.eqb_eq. intros [-> H]. f_equal. auto.
Qed.

Lemma ws_ok_sub_ws b s : ws_ok b (sub_ws b s) = true.
Proof.
  revert b; induction s as [|c t IH]; intros b; simpl; [reflexivity|].
  destruct (py_isspace c) eqn:E.
  - destruct b; [apply IH|]. simpl. apply IH.
  - simpl. rewrite E. apply IH.
Qed.

Lemma ws_ok_weaken s : ws_ok true s = true -> ws_ok false s = true.
Proof.
  destruct s as [|c t]; simpl; [auto|]. destruct (py_isspace c); [discriminate|auto].
Qed.

Lemma ws_ok_app_r b x y : ws_ok b (x ++ y) = true -> ws_ok false y = true.
Proof.
  revert b; induction x as [|c x IH]; intros b; simpl.
  - destruct b; [apply ws_ok_weaken|auto].
  - destruct (py_isspace c); [rewrite !andb_true_iff; intros [_ H]|]; eauto.
Qed.

Lemma ws_ok_app_l b x y : ws_ok b (x ++ y) = true -> ws_ok b x = true.
Proof.
  revert b; induction x as [|c x IH]; intros b; simpl; [reflexivity|].
  destruct (py_isspace c); [rewrite !andb_true_iff; intros [H1 H2]; split|]; eauto.
Qed.

Lemma ws_ok_strip p s : ws_ok false s = true -> ws_ok false (strip_by p s) = true.
Proof.
  destruct (strip_by_infix p s) as (x & y & Hs). rewrite Hs at 1.
  intros H. apply ws_ok_app_r in H. eapply ws_ok_app_l. exact H.
Qed.

(** ** [strip] is idempotent and leaves no stripped character at either end. *)

Lemma drop_while_head p s c : head (drop_while p s) = Some c -> p c = false.
Proof.
  induction s as [|a t IH]; simpl; [discriminate|].
  destruct (p a) eqn:E; [auto|]. simpl. congruence.
Qed.

Lemma drop_while_id p s : (forall c, head s = Some c -> p c = false) -> drop_while p s = s.
Proof.
  destruct s as [|a t]; simpl; [reflexivity|]. intros H. rewrite (H a eq_refl). reflexivity.
Qed.

Lemma strip_by_idem p s : strip_by p (strip_by p s) = strip_by p s.
Proof.
  unfold strip_by at 1 2. set (u := drop_while p s).
  set (v := drop_while p (rev u)).
  destruct (drop_while_suffix p (rev u)) as [x Hx]. fold v in Hx.
  assert (Hu : u = rev v ++ rev x).
  { rewrite <- rev_app_distr, <- Hx, rev_involutive. reflexivity. }
  rewrite (drop_while_id p (rev v)).
  - rewrite rev_involutive, (drop_while_id p v); [reflexivity|].
    apply drop_while_head.
  - intros c Hc. apply (drop_while_head p s).
    fold u. rewrite Hu. destruct (rev v); [discriminate|exact Hc].
Qed.

Lemma strip_by_ends p s :
  (forall c, head (strip_by p s) = Some c -> p c = false) /\
  (forall x c, strip_by p s = x ++ [c] -> p c = false).
Proof.
  unfold strip_by. set (u := drop_while p s). set (v := drop_while p (rev u)).
  destruct (drop_while_suffix p (rev u)) as [x Hx]. fold v in Hx.
  split.
  - intros c Hc. apply (drop_while_head p s). fold u.
    assert (Hu : u = rev v ++ rev x).
    { rewrite <- rev_app_distr, <- Hx, rev_involutive. reflexivity. }
    rewrite Hu. destruct (rev v); [discriminate|exact Hc].
  - intros y c Hc. apply (drop_while_head p (rev u)). fold v.
    rewrite <- (rev_involutive v), Hc, rev_app_distr. reflexivity.
Qed.

Lemma drop_while_all p x y :
  (forall c, In c x -> p c = true) -> drop_while p (x ++ y) = drop_while p y.
Proof. induction x as [|a x IH]; simpl; intros H; [reflexivity|]. rewrite H by auto. auto. Qed.

Lemma drop_while_keep p x m :
  (forall c, head m = Some c -> p c = false) -> m <> [] ->
  exists x', drop_while p (x ++ m) = x' ++ m.
Proof.
  intros Hm Hne. induction x as [|a x IH]; simpl.
  - exists []. apply drop_while_id. exact Hm.
  - destruct (p a); [exact IH | exists (a :: x); reflexivity].
Qed.

(** A non-empty middle part whose ends are not stripped survives [strip]. *)
Lemma strip_by_keeps p x m y :
  m <> [] -> (forall c, head m = Some c -> p c = false) ->
  (forall c, head (rev m) = Some c -> p c = false) ->
  exists x' y', strip_by p (x ++ m ++ y) = x' ++ m ++ y'.
Proof.
  intros Hne Hh Hl. unfold strip_by.
  destruct (drop_while_keep p x (m ++ y)) as [x' ->].
  { destruct m; [congruence|exact Hh]. }
  { destruct m; [congruence|discriminate]. }
  rewrite !rev_app_distr, <- app_assoc.
  destruct (drop_while_keep p (rev y) (rev m ++ rev x')) as [y' ->].
  { destruct (rev m) eqn:E; [|exact Hl].
    exfalso; apply Hne; rewrite <- (rev_involutive m), E; reflexivity. }
  { destruct (rev m) eqn:E; [|discriminate].
    exfalso; apply Hne; rewrite <- (rev_involutive m), E; reflexivity. }
  exists x', (rev y'). rewrite !rev_app_distr, !rev_involutive, <- app_assoc. reflexivity.
Qed.

(** Framed by stripped characters only, the middle part is all that [strip] leaves. *)
Lemma strip_by_frame p pre m suf :
  (forall c, In c pre -> p c = true) -> (forall c, In c suf -> p c = true) ->
  m <> [] -> (forall c, head m = Some c -> p c = false) ->
  (forall c, head (rev m) = Some c -> p c = false) ->
  strip_by p (pre ++ m ++ suf) = m.
Proof.
  intros Hpre Hsuf Hne Hh Hl. unfold strip_by.
  rewrite drop_while_all by exact Hpre.
  rewrite (drop_while_id p (m ++ suf)) by (destruct m; [congruence|exact Hh]).
  rewrite rev_app_distr, drop_while_all by (intros c Hc; apply Hsuf, in_rev, Hc).
  rewrite drop_while_id by exact Hl. apply rev_involutive.
Qed.

#[export] Hint Resolve ws_ok_sub_ws ws_ok_strip strip_by_idem : pdf.

Lemma py_join_cons sep a l : l <> [] -> py_join sep (a :: l) = a ++ sep ++ py_join sep l.
Proof. destruct l; [congruence|reflexivity]. Qed.

Lemma py_join_head sep a l : exists r, py_join sep (a :: l) = a ++ r.
Proof. destruct l; [exists []; symmetry; apply app_nil_r|eexists; reflexivity]. Qed.

Lemma take_while_app p x y : (forall c, In c x -> p c = true) -> take_while p (x ++ y) = x ++ take_while p y.
Proof. induction x as [|a x IH]; simpl; intros H; [reflexivity|]. rewrite H, IH by auto. reflexivity. Qed.

(** ** Where the characters of a result come from

    The string operations only keep, drop or reorder characters of their
    input and add spaces; so a property of characters that holds of the
    input and of the space holds of the output. *)
Section Chars.
Context (P : N -> Prop) (P_space : P 32%N).

Lemma Forall_drop_while p s : Forall P s -> Forall P (drop_while p s).
Proof. induction s as [|c s IH]; intros H; [constructor|]. inversion H; subst. simpl. destruct (p c); auto. Qed.

Lemma Forall_strip_by p s : Forall P s -> Forall P (strip_by p s).
Proof. intros H. unfold strip_by. apply Forall_rev, Forall_drop_while, Forall_rev, Forall_drop_while, H. Qed.

Lemma Forall_sub_ws b s : Forall P s -> Forall P (sub_ws b s).
Proof.
  revert b. induction s as [|c s IH]; intros b H; [constructor|]. inversion H; subst. simpl.
  destruct (py_isspace c); [destruct b; auto|]; constructor; auto.
Qed.

Lemma Forall_py_join sep xs : Forall P sep -> Forall (Forall P) xs -> Forall P (py_join sep xs).
Proof.
  intros Hs Hx. induction Hx as [|x xs Hx Hxs IH]; [constructor|].
  destruct xs as [|y ys]; [exact Hx|]. rewrite py_join_cons by discriminate.
  apply Forall_app; split; [exact Hx|]. apply Forall_app; split; assumption.
Qed.

Lemma Forall_space_join xs : Forall (Forall P) xs -> Forall P (py_join [32%N] xs).
Proof. apply Forall_py_join. constructor; [exact P_space|constructor]. Qed.
End Chars.
