(* ===== verification/Utf8.v ===== *)
(** * UTF-8: the [encoding="utf-8"] of the output file (src/main.py 166)

    [process_pdf] opens its output with [open(output_path, "w",
    encoding="utf-8")]; every [str] that [json.dump] writes to it goes
    through Python's strict UTF-8 encoder.  [encode_char] is CPython's
    per-character encoder ([Objects/stringlib/codecs.h], [utf8_encode])
    with its bit operations: one byte below U+0080, two below U+0800,
    three below U+10000 and four above; a surrogate (U+D800 to U+DFFF)
    has no encoding, and the strict error handler raises
    [UnicodeEncodeError] at the first one ([utf8_encode] returns it on
    the left).  Bytes are [N] values below 256.

    [utf8_decode] is a reference decoder (strict: no overlong forms, no
    surrogates, nothing above U+10FFFF), written with arithmetic; it
    states the round trip.  Python's [str] holds code points below
    U+110000 ([py_char]); the theorems assume it where it matters. *)

From S2P Require Import Prelude PyStr.


(** A code point of a Python [str]. *)
Definition py_char (c : N) : bool := (c <? 1114112)%N.

(** [Py_UNICODE_IS_SURROGATE] *)
Definition is_surrogate (c : N) : bool := (55296 <=? c)%N && (c <=? 57343)%N.

(** ** The encoder *)

Definition encode_char (c : N) : option (list N) :=
  if (c <? 128)%N then Some [c]
  else if (c <? 2048)%N then Some [N.lor 192 (N.shiftr c 6); N.lor 128 (N.land c 63)]
  else if is_surrogate c then None
  else if (c <? 65536)%N then
    Some [N.lor 224 (N.shiftr c 12); N.lor 128 (N.land (N.shiftr c 6) 63); N.lor 128 (N.land c 63)]
  else Some [N.lor 240 (N.shiftr c 18); N.lor 128 (N.land (N.shiftr c 12) 63);
             N.lor 128 (N.land (N.shiftr c 6) 63); N.lor 128 (N.land c 63)].

(** [str.encode("utf-8")]: the bytes, or the first character without an
    encoding. *)
Fixpoint utf8_encode (s : pystr) : N + list N :=
  match s with
  | [] => inr []
  | c :: t =>
      match encode_char c with
      | None => inl c
      | Some b => match utf8_encode t with inl e => inl e | inr bs => inr (b ++ bs) end
      end
  end.

(** ** The reference decoder *)

Definition is_cont (b : N) : bool := (128 <=? b)%N && (b <? 192)%N.

Definition cons_opt (c : N) (r : option pystr) : option pystr := option_map (cons c) r.

Fixpoint utf8_decode (bs : list N) : option pystr :=
  match bs with
  | [] => Some []
  | b0 :: r =>
      if (b0 <? 128)%N then cons_opt b0 (utf8_decode r)
      else if (194 <=? b0)%N && (b0 <=? 223)%N then
        match r with
        | b1 :: r' => if is_cont b1 then cons_opt ((b0 mod 32) * 64 + b1 mod 64)%N (utf8_decode r') else None
        | [] => None
        end
      else if (224 <=? b0)%N && (b0 <=? 239)%N then
        match r with
        | b1 :: b2 :: r' =>
            let c := ((b0 mod 16) * 4096 + (b1 mod 64) * 64 + b2 mod 64)%N in
            if is_cont b1 && is_cont b2 && (2048 <=? c)%N && negb (is_surrogate c)
            then cons_opt c (utf8_decode r') else None
        | _ => None
        end
      else if (240 <=? b0)%N && (b0 <=? 244)%N then
        match r with
        | b1 :: b2 :: b3 :: r' =>
            let c := ((b0 mod 8) * 262144 + (b1 mod 64) * 4096 + (b2 mod 64) * 64 + b3 mod 64)%N in
            if is_cont b1 && is_cont b2 && is_cont b3 && (65536 <=? c)%N && py_char c
            then cons_opt c (utf8_decode r') else None
        | _ => None
        end
      else None
  end.

(** ** Bit operations as arithmetic *)

Lemma lor_shiftl_add a b k : (b < 2 ^ k)%N -> N.lor (N.shiftl a k) b = (N.shiftl a k + b)%N.
Proof.
  intros Hb. rewrite N.shiftl_mul_pow2. apply N.bits_inj. intros i. rewrite N.lor_spec.
  assert (Hp : (2 ^ k <> 0)%N) by (apply N.pow_nonzero; lia).
  destruct (N.lt_ge_cases i k) as [Hi|Hi].
  - assert (E : N.testbit (a * 2 ^ k) i = false)
      by (rewrite <- N.shiftl_mul_pow2; apply N.shiftl_spec_low; exact Hi).
    rewrite E. simpl. rewrite <- (N.mod_pow2_bits_low (_ + b) k i Hi). f_equal.
    rewrite N.add_comm, N.Div0.mod_add, N.mod_small by exact Hb. reflexivity.
  - assert (E : N.testbit (a * 2 ^ k) i = N.testbit a (i - k))
      by (rewrite <- N.shiftl_mul_pow2; apply N.shiftl_spec_high'; exact Hi).
    assert (E2 : N.testbit (a * 2 ^ k + b) i = N.testbit ((a * 2 ^ k + b) / 2 ^ k) (i - k))
      by (rewrite N.div_pow2_bits; f_equal; lia).
    rewrite E, E2, N.div_add_l, N.div_small, N.add_0_r by assumption.
    destruct (N.eq_dec b 0) as [->|Hb0]; [rewrite N.bits_0; apply orb_false_r|].
    rewrite (N.bits_above_log2 b i); [apply orb_false_r|].
    apply N.log2_lt_pow2; [lia|]. eapply N.lt_le_trans; [exact Hb|]. apply N.pow_le_mono_r; lia.
Qed.

(** A lead or continuation byte: tag bits above [k] payload bits. *)
Lemma lor_low t k x : (x < 2 ^ k)%N -> t = (t / 2 ^ k * 2 ^ k)%N -> N.lor t x = (t + x)%N.
Proof. intros Hx Ht. rewrite Ht. rewrite <- N.shiftl_mul_pow2. apply lor_shiftl_add, Hx. Qed.

Lemma land_63 x : N.land x 63 = (x mod 64)%N.
Proof. change 63%N with (N.ones 6). apply N.land_ones. Qed.

Lemma div_lt_pow c a k : (c < a * 2 ^ k)%N -> (c / a < 2 ^ k)%N.
Proof. intros H. apply N.Div0.div_lt_upper_bound. lia. Qed.

Ltac lor_tags :=
  repeat match goal with
  | |- context [N.lor ?t ?x] =>
      let k := match t with 128%N => constr:(6%N) | 192%N => constr:(6%N) | 224%N => constr:(4%N)
                           | 240%N => constr:(3%N) end in
      rewrite (lor_low t k x) by first [reflexivity | apply N.mod_lt; lia | apply div_lt_pow; simpl; lia]
  end.

(** [encode_char] with the bit operations computed. *)
Lemma encode_char_arith c :
  py_char c = true ->
  encode_char c =
  if (c <? 128)%N then Some [c]
  else if (c <? 2048)%N then Some [192 + c / 64; 128 + c mod 64]%N
  else if is_surrogate c then None
  else if (c <? 65536)%N then Some [224 + c / 4096; 128 + (c / 64) mod 64; 128 + c mod 64]%N
  else Some [240 + c / 262144; 128 + (c / 4096) mod 64; 128 + (c / 64) mod 64; 128 + c mod 64]%N.
Proof.
  intros Hc. unfold py_char in Hc. apply N.ltb_lt in Hc.
  unfold encode_char. rewrite !land_63, !N.shiftr_div_pow2.
  change (2 ^ 6)%N with 64%N; change (2 ^ 12)%N with 4096%N; change (2 ^ 18)%N with 262144%N.
  destruct (c <? 128)%N; [reflexivity|].
  destruct (c <? 2048)%N eqn:H2; [apply N.ltb_lt in H2; lor_tags; reflexivity|].
  destruct (is_surrogate c); [reflexivity|].
  destruct (c <? 65536)%N eqn:H3; [apply N.ltb_lt in H3|]; lor_tags; reflexivity.
Qed.

(** ** Round trip of one character *)

Lemma add_mod_tag t m x : (x < m)%N -> (t mod m = 0)%N -> ((t + x) mod m = x)%N.
Proof.
  intros Hx Ht. rewrite N.Div0.add_mod, Ht, N.add_0_l, N.Div0.mod_mod. apply N.mod_small, Hx.
Qed.

Lemma div64_split x : x = (64 * (x / 64) + x mod 64)%N /\ (x mod 64 < 64)%N.
Proof. split; [apply N.Div0.div_mod|apply N.mod_lt; lia]. Qed.

(** Decide the comparisons of the goal by [lia]. *)
Ltac nsolve :=
  repeat match goal with
  | |- context [(?a <? ?b)%N] =>
      first [rewrite (proj2 (N.ltb_lt a b)) by lia | rewrite (proj2 (N.ltb_ge a b)) by lia]
  | |- context [(?a <=? ?b)%N] =>
      first [rewrite (proj2 (N.leb_le a b)) by lia | rewrite (proj2 (N.leb_gt a b)) by lia]
  end.

Ltac tag_mods :=
  repeat match goal with
  | |- context [((?t + ?x) mod ?m)%N] => rewrite (add_mod_tag t m x) by first [reflexivity | lia]
  end.

Lemma encode_char_roundtrip c :
  py_char c = true -> is_surrogate c = false ->
  exists b, encode_char c = Some b /\
    forall rest, utf8_decode (b ++ rest) = cons_opt c (utf8_decode rest).
Proof.
  intros Hc Hs. rewrite encode_char_arith by exact Hc. rewrite Hs.
  unfold py_char in Hc. apply N.ltb_lt in Hc.
  replace (c / 4096)%N with (c / 64 / 64)%N by (rewrite N.Div0.div_div; reflexivity).
  replace (c / 262144)%N with (c / 64 / 64 / 64)%N by (rewrite !N.Div0.div_div; reflexivity).
  destruct (div64_split c) as [E0 B0]. destruct (div64_split (c / 64)) as [E1 B1].
  destruct (div64_split (c / 64 / 64)) as [E2 B2].
  set (q3 := (c / 64 / 64 / 64)%N) in *. set (q2 := (c / 64 / 64)%N) in *. set (q1 := (c / 64)%N) in *.
  set (r2 := (q2 mod 64)%N) in *. set (r1 := (q1 mod 64)%N) in *. set (r0 := (c mod 64)%N) in *.
  destruct (c <? 128)%N eqn:H1; [|destruct (c <? 2048)%N eqn:H2; [|destruct (c <? 65536)%N eqn:H3]];
    eexists; (split; [reflexivity|]); intros rest; cbn [app utf8_decode];
    rewrite ?N.ltb_lt, ?N.ltb_ge in *; unfold is_cont; tag_mods; nsolve; cbn [andb negb].
  - reflexivity.
  - f_equal. lia.
  - replace (q2 * 4096 + r1 * 64 + r0)%N with c by lia. rewrite Hs. nsolve. reflexivity.
  - unfold py_char. replace (q3 * 262144 + r2 * 4096 + r1 * 64 + r0)%N with c by lia. nsolve. reflexivity.
Qed.

(** ** Strings *)

(** The text has an encoding: Python code points, no surrogate. *)
Definition encodable (s : pystr) : bool := forallb (fun c => py_char c && negb (is_surrogate c)) s.

Lemma encode_char_none c : encode_char c = None <-> is_surrogate c = true.
Proof.
  unfold encode_char, is_surrogate. split.
  - destruct (c <? 128)%N eqn:H1; [discriminate|]. destruct (c <? 2048)%N eqn:H2; [discriminate|].
    destruct ((55296 <=? c)%N && (c <=? 57343)%N); [reflexivity|]. destruct (c <? 65536)%N; discriminate.
  - intros Hs. apply andb_prop in Hs as [Ha Hb]. apply N.leb_le in Ha. rewrite Hb. nsolve. reflexivity.
Qed.

Lemma utf8_encode_app a b :
  utf8_encode (a ++ b) =
  match utf8_encode a with
  | inl e => inl e
  | inr x => match utf8_encode b with inl e => inl e | inr y => inr (x ++ y) end
  end.
Proof.
  induction a as [|c a IH]; simpl.
  - destruct (utf8_encode b); reflexivity.
  - destruct (encode_char c) as [bc|]; [|reflexivity]. rewrite IH.
    destruct (utf8_encode a); [reflexivity|]. destruct (utf8_encode b); [reflexivity|].
    rewrite app_assoc. reflexivity.
Qed.

Lemma utf8_encode_ok s :
  forallb (fun x => negb (is_surrogate x)) s = true -> exists bs, utf8_encode s = inr bs.
Proof.
  induction s as [|c s IH]; intros H; [eexists; reflexivity|]. simpl in H. apply andb_prop in H as [Hc Hs].
  simpl. destruct (encode_char c) as [b|] eqn:E.
  - destruct (IH Hs) as [bs ->]. eexists. reflexivity.
  - apply encode_char_none in E. rewrite E in Hc. discriminate.
Qed.

Lemma utf8_roundtrip_core s :
  encodable s = true -> exists bs, utf8_encode s = inr bs /\ utf8_decode bs = Some s.
Proof.
  induction s as [|c s IH]; intros H; [exists []; split; reflexivity|].
  simpl in H. apply andb_prop in H as [Hc Hs]. apply andb_prop in Hc as [Hp Hn]. apply negb_true_iff in Hn.
  destruct (encode_char_roundtrip c Hp Hn) as (b & Eb & Db). destruct (IH Hs) as (bs & Ebs & Dbs).
  exists (b ++ bs). simpl. rewrite Eb, Ebs. split; [reflexivity|]. rewrite Db, Dbs. reflexivity.
Qed.

(** Bytes the encoder produced decode back. *)
Lemma utf8_encode_decode s bs : forallb py_char s = true -> utf8_encode s = inr bs -> utf8_decode bs = Some s.
Proof.
  revert bs. induction s as [|c s IH]; intros bs Hp E; [injection E as <-; reflexivity|].
  simpl in Hp. apply andb_prop in Hp as [Hc Hs]. simpl in E.
  destruct (encode_char c) as [b|] eqn:Eb; [|discriminate].
  destruct (utf8_encode s) as [e|bs'] eqn:Es; [discriminate|]. injection E as <-.
  destruct (is_surrogate c) eqn:Hsur; [apply encode_char_none in Hsur; congruence|].
  destruct (encode_char_roundtrip c Hc Hsur) as (b' & Eb' & Db). rewrite Eb in Eb'. injection Eb' as <-.
  rewrite Db, (IH bs' Hs eq_refl). reflexivity.
Qed.

(** ** Properties *)

(** C7: A text of Python code points without surrogates is encoded, and
    the strict decoder reads the bytes back as the same text. *)
Theorem utf8_roundtrip s :
  encodable s = true -> exists bs, utf8_encode s = inr bs /\ utf8_decode bs = Some s.
Proof. apply utf8_roundtrip_core. Qed.

(** C28: [str.encode("utf-8")] raises exactly at the first surrogate of
    the text. *)
Theorem utf8_encode_error s c :
  utf8_encode s = inl c <->
  exists a b, s = a ++ c :: b /\ forallb (fun x => negb (is_surrogate x)) a = true /\ is_surrogate c = true.
Proof.
  split.
  - induction s as [|c' s IH]; [discriminate|]. simpl. destruct (encode_char c') as [b|] eqn:E.
    + destruct (utf8_encode s) as [e|bs] eqn:Es; [|discriminate]. intros [= ->].
      destruct (IH eq_refl) as (a & b' & -> & Ha & Hc). exists (c' :: a), b'. split; [reflexivity|].
      split; [|exact Hc]. simpl. rewrite Ha, andb_true_r. apply negb_true_iff.
      destruct (is_surrogate c') eqn:Hs; [|reflexivity]. apply encode_char_none in Hs. congruence.
    + intros [= ->]. exists [], s. split; [reflexivity|]. split; [reflexivity|]. apply encode_char_none, E.
  - intros (a & b & -> & Ha & Hc). rewrite utf8_encode_app. destruct (utf8_encode_ok a Ha) as [x ->].
    simpl. apply encode_char_none in Hc. rewrite Hc. reflexivity.
Qed.

(** ** Witnesses *)

Lemma utf8_roundtrip_witness :
  encodable [104; 233; 8364; 128512]%N = true /\
  exists bs, utf8_encode [104; 233; 8364; 128512]%N = inr bs /\ utf8_decode bs = Some [104; 233; 8364; 128512]%N.
Proof. split; [reflexivity|]. apply utf8_roundtrip. reflexivity. Defined.

