(* ===== verification/Regex.v ===== *)
(** * Reference semantics of Python's [re] for the patterns of src/main.py

    The program uses four regular expressions:
    - [re.sub(r'([A-Za-z])\1{2,}', r'\1', text)] (line 13),
    - [re.sub(r'\s+', ' ', text)] (lines 17 and 72),
    - [re.fullmatch(r"[A-Z\d\s,]+", text)] (line 24),
    - [re.search(r"\.com|\bwww\b|RSVP\b|^\d{5}$", text, re.IGNORECASE)]
      (line 26).
    The model of each is a hand-written scanner ([Normalizer.dedupe_go],
    [PyStr.sub_ws], [Noise.fullmatch_caps], [Noise.noise_search]).  This
    file gives the generic semantics those scanners are checked against:
    an abstract syntax [regex] for the constructs the patterns use
    (character classes, concatenation, alternation, a greedy [+] on a
    class, the anchors [^] and [$] and the boundary [\b]) and a
    backtracking matcher [re_run] that lists the positions where a match
    can end, in the order [sre] tries them (left alternative first,
    longest repetition first).  A position is the text before it,
    reversed, and the text after it.

    [re_search] tries every start position from left to right, as
    [re.search]; [re_fullmatch] asks for a match that ends at the end of
    the text; [re_sub] replaces, from left to right, the first match at
    each position (for patterns that never match the empty string, the
    only ones the program passes to [re.sub] here).

    [\b] uses [\w] on ASCII (see [PyStr.is_word_char]); [$] matches at
    the end and before a final new line (no MULTILINE). *)

From S2P Require Import Prelude PyStr.

(** ** Syntax *)

Inductive regex :=
| REps
| RClass (p : N -> bool)
| RSeq (r1 r2 : regex)
| RAlt (r1 r2 : regex)
| RPlus (p : N -> bool)
| RBol
| REol
| RWordB.

(** [\b] between the characters [prev] and [next]. *)
Definition opt_word (c : option N) : bool :=
  match c with Some c => is_word_char c | None => false end.

Definition at_boundary (prev next : option N) : bool := xorb (opt_word prev) (opt_word next).

(** ** The backtracking matcher *)

(** [p+] from the current position: the longest run first. *)
Fixpoint plus_run (p : N -> bool) (before after : pystr) : list (pystr * pystr) :=
  match after with
  | [] => []
  | c :: t => if p c then plus_run p (c :: before) t ++ [(c :: before, t)] else []
  end.

Fixpoint re_run (r : regex) (before after : pystr) : list (pystr * pystr) :=
  match r with
  | REps => [(before, after)]
  | RClass p => match after with c :: t => if p c then [(c :: before, t)] else [] | [] => [] end
  | RSeq r1 r2 => List.flat_map (fun pa => re_run r2 pa.1 pa.2) (re_run r1 before after)
  | RAlt r1 r2 => re_run r1 before after ++ re_run r2 before after
  | RPlus p => plus_run p before after
  | RBol => match before with [] => [(before, after)] | _ => [] end
  | REol => match after with [] | [10%N] => [(before, after)] | _ => [] end
  | RWordB => if at_boundary (head before) (head after) then [(before, after)] else []
  end.

Definition re_matches (r : regex) (before after : pystr) : bool :=
  match re_run r before after with [] => false | _ => true end.

(** [re.search]: a match starting at some position, tried from the left. *)
Fixpoint re_search_go (r : regex) (before after : pystr) : bool :=
  re_matches r before after ||
  match after with [] => false | c :: t => re_search_go r (c :: before) t end.

Definition re_search (r : regex) (s : pystr) : bool := re_search_go r [] s.

(** [re.fullmatch] *)
Definition re_fullmatch (r : regex) (s : pystr) : bool :=
  existsb (fun pa => match pa.2 with [] => true | _ => false end) (re_run r [] s).

(** [re.sub(pattern, repl, s)] for a pattern that never matches the
    empty string: at each position the first match is replaced, else one
    character is copied. *)
Fixpoint re_sub_go (fuel : nat) (r : regex) (repl : pystr) (before after : pystr) : pystr :=
  match fuel with
  | O => after
  | S f =>
      match re_run r before after with
      | (b', a') :: _ => repl ++ re_sub_go f r repl b' a'
      | [] => match after with [] => [] | c :: t => c :: re_sub_go f r repl (c :: before) t end
      end
  end.

Definition re_sub (r : regex) (repl s : pystr) : pystr := re_sub_go (S (length s)) r repl [] s.

(** A literal string, each character tested by [eqc] (case folding). *)
Fixpoint re_lit (eqc : N -> N -> bool) (w : pystr) : regex :=
  match w with [] => REps | c :: w' => RSeq (RClass (eqc c)) (re_lit eqc w') end.

(** [p{n}] *)
Fixpoint re_rep (n : nat) (p : N -> bool) : regex :=
  match n with O => REps | S n' => RSeq (RClass p) (re_rep n' p) end.

(** The pattern of [clean_line]: [\s+]. *)
Definition ws_re : regex := RPlus py_isspace.

(** ** Lemmas *)

Lemma re_matches_alt r1 r2 b a : re_matches (RAlt r1 r2) b a = re_matches r1 b a || re_matches r2 b a.
Proof. unfold re_matches. cbn [re_run]. destruct (re_run r1 b a); reflexivity. Qed.

Lemma re_matches_seq1 r1 r2 b a b' a' :
  re_run r1 b a = [(b', a')] -> re_matches (RSeq r1 r2) b a = re_matches r2 b' a'.
Proof. intros E. unfold re_matches. cbn [re_run]. rewrite E. simpl. rewrite app_nil_r. reflexivity. Qed.

Lemma re_matches_seq0 r1 r2 b a : re_run r1 b a = [] -> re_matches (RSeq r1 r2) b a = false.
Proof. intros E. unfold re_matches. cbn [re_run]. rewrite E. reflexivity. Qed.

Lemma re_search_alt r1 r2 b s : re_search_go (RAlt r1 r2) b s = re_search_go r1 b s || re_search_go r2 b s.
Proof.
  revert b. induction s as [|c s IH]; intros b; cbn [re_search_go]; rewrite re_matches_alt.
  - rewrite !orb_false_r. reflexivity.
  - rewrite IH. destruct (re_matches r1 b _), (re_matches r2 b _), (re_search_go r1 _ _), (re_search_go r2 _ _);
      reflexivity.
Qed.

(** A pattern starting with [^] only matches at the start. *)
Lemma re_search_bol r c b s : re_search_go (RSeq RBol r) (c :: b) s = false.
Proof.
  revert c b. induction s as [|d s IH]; intros c b; cbn [re_search_go];
    rewrite re_matches_seq0 by reflexivity; [reflexivity|apply IH].
Qed.

(** Case-folded literal prefix. *)
Fixpoint prefix_by (eqc : N -> N -> bool) (w a : pystr) : bool :=
  match w, a with
  | [], _ => true
  | c :: w', d :: a' => eqc c d && prefix_by eqc w' a'
  | _ :: _, [] => false
  end.

Lemma re_run_lit eqc w b a :
  re_run (re_lit eqc w) b a =
  if prefix_by eqc w a then [(rev (take (length w) a) ++ b, drop (length w) a)] else [].
Proof.
  revert b a. induction w as [|c w IH]; intros b a; [reflexivity|].
  destruct a as [|d a]; [reflexivity|]. cbn [re_lit re_run prefix_by].
  destruct (eqc c d); [|reflexivity]. simpl. rewrite app_nil_r, IH.
  destruct (prefix_by eqc w a); [|reflexivity]. simpl. rewrite <- app_assoc. reflexivity.
Qed.

Lemma re_run_rep n p b a :
  re_run (re_rep n p) b a =
  if (n <=? length a)%nat && forallb p (take n a) then [(rev (take n a) ++ b, drop n a)] else [].
Proof.
  revert b a. induction n as [|n IH]; intros b a; [reflexivity|].
  destruct a as [|d a]; [reflexivity|]. cbn [re_rep re_run].
  cbn [length take forallb]. destruct (p d); simpl; [|rewrite andb_false_r; reflexivity].
  rewrite app_nil_r, IH. destruct (_ && _); [|reflexivity]. simpl. rewrite <- app_assoc. reflexivity.
Qed.

Lemma plus_run_cons p b c t :
  plus_run p b (c :: t) = if p c then plus_run p (c :: b) t ++ [(c :: b, t)] else [].
Proof. reflexivity. Qed.

(** The first match of [p+] takes the whole run. *)
Lemma plus_run_first p b c t :
  p c = true -> exists rest,
  plus_run p b (c :: t) = (rev (take_while p (c :: t)) ++ b, drop_while p (c :: t)) :: rest.
Proof.
  revert b c. induction t as [|d t IH]; intros b c Hc; rewrite plus_run_cons, Hc.
  - eexists. cbn [plus_run app take_while drop_while]. rewrite Hc. reflexivity.
  - destruct (p d) eqn:Hd.
    + destruct (IH (c :: b) d Hd) as [rest E]. rewrite E.
      exists (rest ++ [(c :: b, d :: t)]). cbn [app].
      replace (take_while p (c :: d :: t)) with (c :: take_while p (d :: t)) by (simpl; rewrite Hc; reflexivity).
      replace (drop_while p (c :: d :: t)) with (drop_while p (d :: t)) by (simpl; rewrite Hc; reflexivity).
      cbn [rev]. rewrite <- app_assoc. reflexivity.
    + rewrite plus_run_cons, Hd. eexists. cbn [app take_while drop_while]. rewrite Hc, Hd. reflexivity.
Qed.

Lemma plus_run_nil p b c t : p c = false -> plus_run p b (c :: t) = [].
Proof. intros Hc. simpl. rewrite Hc. reflexivity. Qed.

(** [sub_ws] after a space: the run continues. *)
Lemma sub_ws_true_drop s : sub_ws true s = sub_ws false (drop_while py_isspace s).
Proof.
  induction s as [|c s IH]; [reflexivity|]. cbn [sub_ws drop_while].
  destruct (py_isspace c) eqn:E; [exact IH|]. cbn [sub_ws]. rewrite E. reflexivity.
Qed.

Lemma drop_while_length p s : (length (drop_while p s) <= length s)%nat.
Proof. induction s as [|c s IH]; simpl; [lia|]. destruct (p c); simpl; lia. Qed.

Lemma re_sub_go_ws fuel b s :
  (length s < fuel)%nat -> re_sub_go fuel ws_re [32%N] b s = sub_ws false s.
Proof.
  revert b s. induction fuel as [|f IH]; intros b s Hs; [lia|].
  destruct s as [|c t]; [reflexivity|]. cbn [re_sub_go re_run ws_re].
  destruct (py_isspace c) eqn:Hc.
  - destruct (plus_run_first py_isspace b c t Hc) as [rest ->]. cbn [app sub_ws]. rewrite Hc.
    rewrite sub_ws_true_drop. cbn [drop_while]. rewrite Hc. f_equal. apply IH.
    pose proof (drop_while_length py_isspace t). simpl in Hs. lia.
  - rewrite plus_run_nil by exact Hc. cbn [sub_ws]. rewrite Hc. f_equal. apply IH. simpl in Hs. lia.
Qed.

(** ** Properties *)

(** C21: The scanner [sub_ws] is [re.sub(r'\s+', ' ', s)]. *)
Theorem re_sub_ws_spec s : re_sub_ws s = re_sub ws_re [32%N] s.
Proof. unfold re_sub_ws, re_sub. symmetry. apply re_sub_go_ws. lia. Qed.
