(* ===== verification/PySort.v ===== *)
(** * Python's [sorted(xs, key=k)] and the [<] it uses

    [sorted] only calls [<] on keys and is stable.  The class [PyOrd]
    is the [<] of a key type; [PyOrdLaws] states that it is a strict
    weak order, which holds for ints, for floats that are not NaN and
    for tuples of those (the keys the program sorts by: [x0], [y0] and
    [(page, y0)]).  On a strict weak order every stable sort returns the
    same list, so [py_sorted], a stable insertion sort, is the result
    of Python's Timsort.  Clients use the laws, never the instance
    bodies. *)

From S2P Require Import Prelude.
From Stdlib Require Import Sorted.

Class PyOrd (K : Type) := { py_lt : K -> K -> bool }.

Class PyOrdLaws (K : Type) `{PyOrd K} := {
  py_lt_irrefl : forall a, py_lt a a = false;
  py_lt_trans : forall a b c,
    py_lt a b = true -> py_lt b c = true -> py_lt a c = true;
  py_nlt_trans : forall a b c,
    py_lt a b = false -> py_lt b c = false -> py_lt a c = false
}.

(** Python floats (as rationals) and ints. *)
#[export] Instance Q_PyOrd : PyOrd Q := { py_lt := Qltb }.
#[export] Instance Z_PyOrd : PyOrd Z := { py_lt := Z.ltb }.

(** Tuples compare lexicographically: the first components decide
    unless they are equal; for numbers, [==] is incomparability. *)
#[export] Instance prod_PyOrd {K1 K2} `{PyOrd K1} `{PyOrd K2} : PyOrd (K1 * K2) := {
  py_lt a b :=
    if py_lt a.1 b.1 then true
    else if py_lt b.1 a.1 then false
    else py_lt a.2 b.2 }.

#[export] Instance Q_PyOrdLaws : PyOrdLaws Q.
Proof.
  split; simpl; intros; qbool.
  - apply Qltb_false, Qle_refl.
  - apply Qltb_iff. eapply Qlt_trans; eassumption.
  - apply Qltb_false. eapply Qle_trans; eassumption.
Qed.

#[export] Instance Z_PyOrdLaws : PyOrdLaws Z.
Proof.
  split; simpl; intros *; rewrite ?Z.ltb_lt, ?Z.ltb_ge; lia.
Qed.

#[export] Instance prod_PyOrdLaws {K1 K2} `{PyOrdLaws K1} `{PyOrdLaws K2} :
  PyOrdLaws (K1 * K2).
Proof.
  split; simpl.
  - intros a. rewrite !py_lt_irrefl. reflexivity.
  - intros [a1 a2] [b1 b2] [c1 c2]; simpl.
    destruct (py_lt a1 b1) eqn:E1, (py_lt b1 a1) eqn:E2,
             (py_lt b1 c1) eqn:E3, (py_lt c1 b1) eqn:E4,
             (py_lt a1 c1) eqn:E5, (py_lt c1 a1) eqn:E6;
      intros; try discriminate; try reflexivity;
      repeat match goal with
      | H1 : py_lt ?x ?y = true, H2 : py_lt ?y ?z = true,
        H3 : py_lt ?x ?z = false |- _ =>
          rewrite (py_lt_trans x y z H1 H2) in H3; discriminate
      | H1 : py_lt ?x ?y = false, H2 : py_lt ?y ?z = false,
        H3 : py_lt ?x ?z = true |- _ =>
          rewrite (py_nlt_trans x y z H1 H2) in H3; discriminate
      end;
      eauto using py_lt_trans.
  - intros [a1 a2] [b1 b2] [c1 c2]; simpl.
    destruct (py_lt a1 b1) eqn:E1, (py_lt b1 a1) eqn:E2,
             (py_lt b1 c1) eqn:E3, (py_lt c1 b1) eqn:E4,
             (py_lt a1 c1) eqn:E5, (py_lt c1 a1) eqn:E6;
      intros; try discriminate; try reflexivity;
      repeat match goal with
      | H1 : py_lt ?x ?y = true, H2 : py_lt ?y ?z = true,
        H3 : py_lt ?x ?z = false |- _ =>
          rewrite (py_lt_trans x y z H1 H2) in H3; discriminate
      | H1 : py_lt ?x ?y = false, H2 : py_lt ?y ?z = false,
        H3 : py_lt ?x ?z = true |- _ =>
          rewrite (py_nlt_trans x y z H1 H2) in H3; discriminate
      end;
      eauto using py_nlt_trans.
Qed.

(** ** The stable sort *)

Section Sort.
Context {A K : Type} `{PyOrdLaws K} (key : A -> K).

(** [x] precedes every element of [l] in the input, so it goes before
    the first element whose key is not smaller than its own. *)
Fixpoint insert_by (x : A) (l : list A) : list A :=
  match l with
  | [] => [x]
  | y :: l' => if py_lt (key y) (key x) then y :: insert_by x l' else x :: l
  end.

Definition py_sorted (l : list A) : list A := fold_right insert_by [] l.

(** [a] may precede [b] in a sorted list. *)
Definition key_le (a b : A) : Prop := py_lt (key b) (key a) = false.

Lemma key_le_trans a b c : key_le a b -> key_le b c -> key_le a c.
Proof. unfold key_le. intros Hab Hbc. eapply py_nlt_trans; eassumption. Qed.

Lemma insert_by_perm x l : insert_by x l ≡ₚ x :: l.
Proof.
  induction l as [|y l IH]; simpl; [reflexivity|].
  destruct (py_lt (key y) (key x)); [|reflexivity].
  rewrite IH. constructor.
Qed.

Lemma py_sorted_perm l : py_sorted l ≡ₚ l.
Proof.
  induction l as [|x l IH]; simpl; [reflexivity|].
  rewrite insert_by_perm, IH. reflexivity.
Qed.

Lemma py_sorted_length l : length (py_sorted l) = length l.
Proof. apply Permutation_length, py_sorted_perm. Qed.

Lemma insert_by_sorted x l :
  Sorted key_le l -> Sorted key_le (insert_by x l).
Proof.
  induction 1 as [|y l Hs IH Hhd]; simpl; [repeat constructor|].
  destruct (py_lt (key y) (key x)) eqn:E.
  - constructor; [exact IH|].
    destruct l as [|z l]; simpl.
    + constructor. unfold key_le. destruct (py_lt (key x) (key y)) eqn:E'; [|reflexivity].
      pose proof (py_lt_trans _ _ _ E E') as C. rewrite py_lt_irrefl in C. discriminate.
    + inversion Hhd; subst.
      destruct (py_lt (key z) (key x)); constructor; [assumption|].
      unfold key_le. destruct (py_lt (key x) (key y)) eqn:E'; [|reflexivity].
      pose proof (py_lt_trans _ _ _ E E') as C. rewrite py_lt_irrefl in C. discriminate.
  - constructor; [constructor; assumption|]. constructor. exact E.
Qed.

Lemma py_sorted_sorted l : Sorted key_le (py_sorted l).
Proof. induction l; simpl; [constructor|]. apply insert_by_sorted; assumption. Qed.

Lemma py_sorted_strongly l : StronglySorted key_le (py_sorted l).
Proof.
  apply Sorted_StronglySorted; [|apply py_sorted_sorted].
  intros a b c. apply key_le_trans.
Qed.

Lemma In_py_sorted x l : In x (py_sorted l) <-> In x l.
Proof.
  split; apply Permutation_in;
    [|symmetry]; apply py_sorted_perm.
Qed.
End Sort.

#[export] Hint Resolve py_sorted_perm py_sorted_sorted py_sorted_strongly : pdf.

(** ** Sortedness facts shared by the clients *)

Lemma StronglySorted_filter {A} (R : A -> A -> Prop) (p : A -> bool) l :
  StronglySorted R l -> StronglySorted R (List.filter p l).
Proof.
  induction 1 as [|a l Hs IH Hall]; simpl; [constructor|].
  destruct (p a); [|exact IH]. constructor; [exact IH|].
  rewrite Forall_forall in *. intros x Hx. apply filter_In in Hx as [Hx _]. auto.
Qed.

Lemma StronglySorted_impl {A} (R S : A -> A -> Prop) l :
  (forall a b, R a b -> S a b) -> StronglySorted R l -> StronglySorted S l.
Proof.
  intros HRS. induction 1 as [|a l Hs IH Hall]; constructor; [exact IH|].
  eapply Forall_impl; [|exact Hall]. auto.
Qed.

(** Sorting by a float key orders the keys. *)
Lemma py_sorted_Q {A} (key : A -> Q) l :
  StronglySorted (fun a b => (key a <= key b)%Q) (py_sorted key l).
Proof.
  eapply StronglySorted_impl; [|apply py_sorted_strongly].
  intros a b H. apply Qltb_false. exact H.
Qed.

Lemma StronglySorted_take {A} (R : A -> A -> Prop) n l :
  StronglySorted R l -> StronglySorted R (take n l).
Proof.
  revert l. induction n as [|n IH]; intros l Hs; [constructor|].
  destruct l as [|a l]; [constructor|]. simpl.
  apply StronglySorted_inv in Hs as [Hs Hall]. constructor; [auto|].
  rewrite Forall_forall in *. intros x Hx. apply Hall, (In_take x n l), Hx.
Qed.
