(* ===== verification/Normalizer.v ===== *)
(** * Line normaliser: [dedupe_chars] and [clean_line] (src/main.py 12-18)

    [dedupe_chars] is [re.sub(r'([A-Za-z])\1{2,}', r'\1', text)]: the
    regular-expression engine scans left to right; at a position holding
    an ASCII letter [c] followed by at least two more copies of [c] it
    replaces the whole (greedy) run by one [c] and resumes after it,
    otherwise it copies one character and moves on.  [dedupe_go] is that
    scan; its fuel bounds the number of steps, and [length text] steps
    always suffice because each step consumes a character
    ([dedupe_go_fuel_core]).

    Theorems: the unfolding equation of the scan; the run law (a run of
    [k] copies of [c] becomes one [c] when [c] is a letter and [k >= 3]
    and is kept otherwise); equivalence of the scan with a
    run-length-encoding specification; idempotence of [dedupe_chars]
    and of [clean_line]. *)

From S2P Require Import Prelude PyStr.

(** ** Definitions *)

(** Number of copies of [c] at the head of [s]. *)
Fixpoint run_len (c : N) (s : pystr) : nat :=
  match s with
  | d :: t => if (d =? c)%N then S (run_len c t) else 0
  | [] => 0
  end.

Fixpoint dedupe_go (fuel : nat) (s : pystr) : pystr :=
  match fuel with
  | O => s
  | S f =>
      match s with
      | [] => []
      | c :: t =>
          let k := run_len c t in
          if is_ascii_letter c && (2 <=? k) then c :: dedupe_go f (drop k t)
          else c :: dedupe_go f t
      end
  end.

Definition dedupe_chars (text : pystr) : pystr := dedupe_go (length text) text.

(** [clean_line]: de-stutter, [re.sub(r'\s+', ' ', _)], then [strip()]. *)
Definition clean_line (text : pystr) : pystr :=
  py_strip (re_sub_ws (dedupe_chars text)).

(** ** Reference specification: maximal runs *)

Fixpoint runs (s : pystr) : list (N * nat) :=
  match s with
  | [] => []
  | c :: t =>
      match runs t with
      | (d, k) :: rs => if (c =? d)%N then (d, S k) :: rs else (c, 1) :: (d, k) :: rs
      | [] => [(c, 1)]
      end
  end.

(** What the substitution leaves of one maximal run. *)
Definition emit_run (r : N * nat) : pystr :=
  if is_ascii_letter r.1 && (3 <=? r.2) then [r.1] else repeat r.1 r.2.

Definition dedupe_spec (s : pystr) : pystr := List.flat_map emit_run (runs s).

(** ** The scan: fuel and unfolding *)

Lemma run_len_le c s : run_len c s <= length s.
Proof. induction s; simpl; [lia|]. destruct (_ =? _)%N; simpl; lia. Qed.

(** The scan does not depend on its fuel once the fuel is at least the
    length of the text: [length text] steps always finish it. *)
Lemma dedupe_go_fuel_core f1 f2 s :
  length s <= f1 -> length s <= f2 -> dedupe_go f1 s = dedupe_go f2 s.
Proof.
  revert f2 s. induction f1 as [|f1 IH]; intros f2 s H1 H2.
  - destruct s; [destruct f2; reflexivity | simpl in H1; lia].
  - destruct f2 as [|f2]; [destruct s; [reflexivity | simpl in H2; lia]|].
    destruct s as [|c t]; [reflexivity|]. cbn [dedupe_go length] in *.
    destruct (is_ascii_letter c && (2 <=? run_len c t)); f_equal; apply IH;
      rewrite ?length_drop; lia.
Qed.

Lemma dedupe_chars_nil : dedupe_chars [] = [].
Proof. reflexivity. Qed.

Lemma dedupe_chars_cons c t :
  dedupe_chars (c :: t) =
  if is_ascii_letter c && (2 <=? run_len c t)
  then c :: dedupe_chars (drop (run_len c t) t)
  else c :: dedupe_chars t.
Proof.
  unfold dedupe_chars at 1. cbn [dedupe_go length].
  destruct (is_ascii_letter c && (2 <=? run_len c t)); f_equal;
    apply dedupe_go_fuel_core; rewrite ?length_drop; lia.
Qed.

(** ** Runs *)

Lemma run_len_repeat c k r : run_len c (repeat c k ++ r) = k + run_len c r.
Proof. induction k; simpl; [reflexivity|]. rewrite N.eqb_refl. lia. Qed.

Lemma run_len_other c r : head r <> Some c -> run_len c r = 0.
Proof. destruct r as [|d r]; simpl; [reflexivity|]. intros H. destruct (N.eqb_spec d c); congruence. Qed.

Lemma drop_repeat_app (c : N) k (r : pystr) : drop k (repeat c k ++ r) = r.
Proof. induction k; simpl; auto. Qed.

#[export] Hint Rewrite run_len_repeat drop_repeat_app : pdf_rw.

Lemma runs_nil s : runs s = [] -> s = [].
Proof. destruct s as [|c t]; simpl; [auto|]. destruct (runs t) as [|[d k] rs]; [|destruct (_ =? _)%N]; discriminate. Qed.

(** The first entry of [runs s] is the maximal run at the head of [s]. *)
Lemma runs_decomp s c k rs :
  runs s = (c, k) :: rs ->
  exists r, s = repeat c k ++ r /\ runs r = rs /\ head r <> Some c /\ 1 <= k.
Proof.
  revert c k rs. induction s as [|a t IH]; intros c k rs E; [discriminate|].
  simpl in E. destruct (runs t) as [|[d k'] rs'] eqn:Et.
  - injection E as <- <- <-. exists []. rewrite (runs_nil t Et).
    repeat split; [discriminate | lia].
  - destruct (IH d k' rs' eq_refl) as (r' & Ht & Hr' & Hh & Hk').
    destruct (N.eqb_spec a d) as [<-|Hne]; injection E as <- <- <-.
    + exists r'. subst t. repeat split; auto; lia.
    + exists t. split; [reflexivity|]. split; [exact Et|]. split; [|lia].
      subst t. destruct k' as [|k']; [lia|]. simpl. congruence.
Qed.

Lemma dedupe_chars_head s : head (dedupe_chars s) = head s.
Proof.
  destruct s as [|c t]; [reflexivity|]. rewrite dedupe_chars_cons.
  destruct (_ && _); reflexivity.
Qed.

(** ** The run law *)

(** Shared form of [dedupe_chars_run] for the proofs that build on it. *)
Lemma dedupe_chars_run_core c k r :
  1 <= k -> head r <> Some c ->
  dedupe_chars (repeat c k ++ r) = emit_run (c, k) ++ dedupe_chars r.
Proof.
  intros Hk Hr. induction k as [|k IH]; [lia|].
  cbn [repeat app].
  rewrite dedupe_chars_cons, run_len_repeat, (run_len_other c r Hr), Nat.add_0_r.
  destruct k as [|k].
  - unfold emit_run; simpl. destruct (is_ascii_letter c); reflexivity.
  - rewrite IH by lia. unfold emit_run; cbn [fst snd].
    destruct (is_ascii_letter c); cbn [andb]; [|reflexivity].
    destruct k as [|k]; [reflexivity|].
    rewrite drop_repeat_app. reflexivity.
Qed.

(** A maximal run of [k >= 1] copies of [c] leaves [emit_run (c, k)]:
    one [c] when [c] is an ASCII letter and [k >= 3], the run itself
    otherwise; the rest of the text is processed independently. *)
Theorem dedupe_chars_run c k r :
  1 <= k -> head r <> Some c ->
  dedupe_chars (repeat c k ++ r) = emit_run (c, k) ++ dedupe_chars r.
Proof. apply dedupe_chars_run_core. Qed.

(** C19: The scan computes the run-length specification. *)
Theorem dedupe_chars_spec s : dedupe_chars s = dedupe_spec s.
Proof.
  induction s as [s IH] using list_length_ind.
  unfold dedupe_spec. destruct (runs s) as [|[c k] rs] eqn:E.
  - rewrite (runs_nil s E). reflexivity.
  - destruct (runs_decomp s c k rs E) as (r & -> & Hr & Hh & Hk).
    rewrite dedupe_chars_run_core by assumption. cbn [List.flat_map]. f_equal.
    rewrite IH; [unfold dedupe_spec; rewrite Hr; reflexivity|].
    rewrite length_app, repeat_length. lia.
Qed.

(** ** Stutter-free text: no ASCII letter three times in a row *)

Definition starts_with2 (c : N) (s : pystr) : bool :=
  match s with a :: b :: _ => (a =? c)%N && (b =? c)%N | _ => false end.

Fixpoint stutter_free (s : pystr) : bool :=
  match s with
  | [] => true
  | c :: t => negb (is_ascii_letter c && starts_with2 c t) && stutter_free t
  end.

Lemma starts_with2_spec c s : starts_with2 c s = true <-> exists r, s = c :: c :: r.
Proof.
  destruct s as [|a [|b s]]; simpl; split; intros H;
    try discriminate; try (destruct H; discriminate).
  - apply andb_true_iff in H as [Ha Hb]. apply N.eqb_eq in Ha, Hb. subst. eauto.
  - destruct H as [r Hr]. injection Hr as -> -> _. rewrite N.eqb_refl. reflexivity.
Qed.

Lemma run_len_starts_with2 c t : 2 <= run_len c t -> starts_with2 c t = true.
Proof.
  destruct t as [|a [|b t]]; simpl; [lia| |].
  - destruct (a =? c)%N; simpl; lia.
  - destruct (a =? c)%N, (b =? c)%N; simpl; reflexivity || lia.
Qed.

Lemma stutter_free_app_l x y : stutter_free (x ++ y) = true -> stutter_free x = true.
Proof.
  induction x as [|a x IH]; simpl; [reflexivity|].
  rewrite !andb_true_iff, !negb_true_iff. intros [H1 H2]. split; [|auto].
  destruct (is_ascii_letter a); [|reflexivity]. simpl in *.
  destruct (starts_with2 a x) eqn:E; [|reflexivity].
  apply starts_with2_spec in E as [r ->]. simpl in H1. rewrite N.eqb_refl in H1. discriminate.
Qed.

Lemma stutter_free_app_r x y : stutter_free (x ++ y) = true -> stutter_free y = true.
Proof. induction x; simpl; [auto|]. rewrite andb_true_iff. tauto. Qed.

Lemma stutter_free_strip p s : stutter_free s = true -> stutter_free (strip_by p s) = true.
Proof.
  destruct (strip_by_infix p s) as (x & y & Hs). rewrite Hs at 1.
  intros H. apply stutter_free_app_r in H. eapply stutter_free_app_l. exact H.
Qed.

(** A stutter-free text is a fixed point of the substitution. *)
Lemma dedupe_chars_stutter_free_id s : stutter_free s = true -> dedupe_chars s = s.
Proof.
  induction s as [|c t IH]; simpl; [reflexivity|].
  intros H. apply andb_true_iff in H as [H1 H2].
  rewrite dedupe_chars_cons.
  destruct (is_ascii_letter c && (2 <=? run_len c t)) eqn:E.
  - apply andb_true_iff in E as [L E]. apply Nat.leb_le, run_len_starts_with2 in E.
    rewrite L, E in H1. discriminate.
  - rewrite IH; auto.
Qed.

Lemma stutter_free_repeat_app c k d :
  (is_ascii_letter c = true -> k <= 2) -> head d <> Some c -> stutter_free d = true ->
  stutter_free (repeat c k ++ d) = true.
Proof.
  intros Hk Hd Hs. induction k as [|k IH]; [exact Hs|].
  cbn [repeat app stutter_free].
  rewrite IH by (intros L; specialize (Hk L); lia). rewrite andb_true_r.
  destruct (is_ascii_letter c) eqn:L; [|reflexivity]. specialize (Hk eq_refl).
  cbn [andb]. destruct (starts_with2 c (repeat c k ++ d)) eqn:E; [|reflexivity].
  apply starts_with2_spec in E as [r Hr].
  destruct k as [|[|k]]; [| |lia]; simpl in Hr; [|injection Hr as Hr]; subst d; simpl in Hd; congruence.
Qed.

Lemma emit_run_shape c k :
  1 <= k -> exists k', emit_run (c, k) = repeat c k' /\ (is_ascii_letter c = true -> k' <= 2).
Proof.
  intros Hk. unfold emit_run; cbn [fst snd].
  destruct (is_ascii_letter c) eqn:L; cbn [andb].
  - destruct (3 <=? k) eqn:E.
    + exists 1. split; [reflexivity|lia].
    + exists k. apply Nat.leb_gt in E. split; [reflexivity|lia].
  - exists k. split; [reflexivity|discriminate].
Qed.

Lemma stutter_free_dedupe s : stutter_free (dedupe_chars s) = true.
Proof.
  induction s as [s IH] using list_length_ind.
  destruct (runs s) as [|[c k] rs] eqn:E.
  - rewrite (runs_nil s E). reflexivity.
  - destruct (runs_decomp s c k rs E) as (r & -> & Hr & Hh & Hk).
    rewrite dedupe_chars_run_core by assumption.
    destruct (emit_run_shape c k Hk) as (k' & -> & Hk').
    apply stutter_free_repeat_app; [exact Hk'| |].
    + rewrite dedupe_chars_head. exact Hh.
    + apply IH. rewrite length_app, repeat_length. lia.
Qed.

#[export] Hint Resolve stutter_free_dedupe stutter_free_strip : pdf.

(** ** [re.sub(r'\s+', ' ', _)] never creates a stutter *)

Lemma sub_ws_nonspace_head t c R :
  sub_ws false t = c :: R -> py_isspace c = false ->
  exists t', t = c :: t' /\ R = sub_ws false t'.
Proof.
  destruct t as [|a t]; simpl; [discriminate|].
  destruct (py_isspace a) eqn:S; intros H Hc.
  - injection H as <- _. discriminate.
  - injection H as <- <-. eauto.
Qed.

Lemma stutter_free_sub_ws b s : stutter_free s = true -> stutter_free (sub_ws b s) = true.
Proof.
  revert b; induction s as [|c t IH]; intros b H; [reflexivity|].
  cbn [stutter_free] in H. apply andb_true_iff in H as [H1 H2].
  cbn [sub_ws]. destruct (py_isspace c) eqn:S.
  - destruct b; [apply IH; exact H2|].
    cbn [stutter_free]. rewrite IH by exact H2. reflexivity.
  - cbn [stutter_free]. rewrite IH, andb_true_r by exact H2.
    destruct (is_ascii_letter c) eqn:L; [|reflexivity]. cbn [andb].
    destruct (starts_with2 c (sub_ws false t)) eqn:W; [|reflexivity].
    apply starts_with2_spec in W as [r Hr].
    destruct (sub_ws_nonspace_head t c _ Hr S) as (t1 & -> & Hr1).
    destruct (sub_ws_nonspace_head t1 c _ (eq_sym Hr1) S) as (t2 & -> & _).
    cbn [starts_with2] in H1. rewrite !N.eqb_refl in H1. discriminate.
Qed.

(** ** Normal form and idempotence of [clean_line] *)

(** After [re.sub(r'\s+', ' ', _)] and [strip()] the white space is
    normal: single spaces, none at either end. *)
Lemma strip_sub_ws_normal x :
  ws_ok false (py_strip (re_sub_ws x)) = true /\
  (forall c, head (py_strip (re_sub_ws x)) = Some c -> py_isspace c = false) /\
  (forall y c, py_strip (re_sub_ws x) = y ++ [c] -> py_isspace c = false).
Proof.
  unfold py_strip, re_sub_ws.
  destruct (strip_by_ends py_isspace (sub_ws false x)) as [H1 H2].
  split; [apply ws_ok_strip, ws_ok_sub_ws|]. split; assumption.
Qed.

(** Shared form of [clean_line_normal] for the proofs that build on it. *)
Lemma clean_line_normal_core s :
  stutter_free (clean_line s) = true /\ ws_ok false (clean_line s) = true /\
  (forall c, head (clean_line s) = Some c -> py_isspace c = false) /\
  (forall x c, clean_line s = x ++ [c] -> py_isspace c = false).
Proof.
  split; [|apply strip_sub_ws_normal].
  unfold clean_line, py_strip, re_sub_ws.
  apply stutter_free_strip, stutter_free_sub_ws, stutter_free_dedupe.
Qed.

(** C34: The output of [clean_line] is stutter-free, its only white space
    is single spaces, and it neither starts nor ends with white space. *)
Theorem clean_line_normal s :
  stutter_free (clean_line s) = true /\ ws_ok false (clean_line s) = true /\
  (forall c, head (clean_line s) = Some c -> py_isspace c = false) /\
  (forall x c, clean_line s = x ++ [c] -> py_isspace c = false).
Proof. apply clean_line_normal_core. Qed.

(** Shared form of [clean_line_idem] for the proofs that build on it. *)
Lemma clean_line_idem_core s : clean_line (clean_line s) = clean_line s.
Proof.
  destruct (clean_line_normal_core s) as (Hsf & Hws & _).
  unfold clean_line at 1. set (t := clean_line s) in *.
  rewrite dedupe_chars_stutter_free_id by exact Hsf.
  unfold re_sub_ws. rewrite sub_ws_ok by exact Hws.
  unfold t, clean_line, py_strip. apply strip_by_idem.
Qed.

(** C33: clean_line is idempotent: cleaning an already cleaned line changes
    nothing, so the second [clean_line] of [extract_headings] is a no-op. *)
Theorem clean_line_idem s : clean_line (clean_line s) = clean_line s.
Proof. apply clean_line_idem_core. Qed.

Theorem dedupe_chars_idem s : dedupe_chars (dedupe_chars s) = dedupe_chars s.
Proof. apply dedupe_chars_stutter_free_id, stutter_free_dedupe. Qed.

(** ** The examples of the specification *)

Example clean_line_sales : clean_line (str "SSSales") = str "Sales".
Proof. reflexivity. Qed.

Example clean_line_digits : clean_line (str "11111") = str "11111".
Proof. reflexivity. Qed.

Example clean_line_spaces :
  clean_line (str "  Intro   to" ++ [10%N; 10%N] ++ str "Systems  ") = str "Intro to Systems".
Proof. reflexivity. Qed.

(** ** Witnesses *)

Lemma dedupe_chars_run_witness :
  dedupe_chars (repeat 83%N 3 ++ str "ales") = [83%N] ++ dedupe_chars (str "ales").
Proof. apply (dedupe_chars_run 83%N 3 (str "ales")); [lia | discriminate]. Defined.

(** ** Characters *)

Lemma Forall_dedupe_go (P : N -> Prop) f s : Forall P s -> Forall P (dedupe_go f s).
Proof.
  revert s. induction f as [|f IH]; intros s H; [exact H|]. destruct s as [|c t]; [constructor|].
  inversion H; subst. simpl. destruct (_ && _); constructor; auto. apply IH, Forall_drop. assumption.
Qed.

(** [clean_line] keeps a property of characters that the space has. *)
Lemma Forall_clean_line (P : N -> Prop) s : P 32%N -> Forall P s -> Forall P (clean_line s).
Proof.
  intros Hsp H. unfold clean_line, py_strip, re_sub_ws.
  apply Forall_strip_by, Forall_sub_ws, Forall_dedupe_go; assumption.
Qed.
