(* ===== verification/Noise.v ===== *)
(** * Noise filter: [is_noisy_heading] (src/main.py 20-30)

    The heading text is stripped of the characters [" :-•●"]; it is
    noise when it is shorter than 5 characters, when it is made of
    [[A-Z\d\s,]] only (a case-SENSITIVE [re.fullmatch]) and has at most
    four words, when [re.search(r"\.com|\bwww\b|RSVP\b|^\d{5}$", text,
    re.IGNORECASE)] finds a match, or when its lower-case form with
    colons stripped is one of five label words.

    The regular expressions are executable recognisers:
    [fullmatch_caps] for the character class, [search_go] for the
    unanchored alternatives tried at every position with the previous
    character at hand for [\b], [match_zip5] for [^\d{5}$] ([$] also
    matches before a final newline).  IGNORECASE compares simple lower
    cases ([sre_lower]); the pattern letter [s] also matches U+017F
    LATIN SMALL LETTER LONG S, as in Python's [re].

    The two patterns are also written as [regex] values of [Regex.v]
    ([caps_re], [noise_re]), and the recognisers are proved equal to
    [re_fullmatch] and [re_search] on them. *)

From S2P Require Import Prelude PyStr Regex.

(** ** Definitions *)

(** [" :-•●"] *)
Definition noise_strip_chars : list N := [32; 58; 45; 8226; 9679]%N.

(** [[A-Z\d\s,]] *)
Definition caps_class (c : N) : bool :=
  is_ascii_upper c || is_digit c || py_isspace c || (c =? 44)%N.

(** [re.fullmatch(r"[A-Z\d\s,]+", t)]: non-empty, every character in the class. *)
Definition fullmatch_caps (t : pystr) : bool :=
  match t with [] => false | _ => forallb caps_class t end.

(** Simple lower-case mapping used by IGNORECASE matching. *)
Definition sre_lower (c : N) : N :=
  if is_ascii_upper c then (c + 32)%N
  else if (c =? 8490)%N then 107%N
  else if (c =? 304)%N then 105%N
  else c.

(** A pattern character [p] (lower case) against a text character. *)
Definition ci_char (p c : N) : bool :=
  (sre_lower c =? p)%N || ((p =? 115)%N && (c =? 383)%N).

Fixpoint ci_prefix (p s : pystr) : bool :=
  match p, s with
  | [], _ => true
  | a :: p', b :: s' => ci_char a b && ci_prefix p' s'
  | _ :: _, [] => false
  end.

(** [\.com] *)
Definition match_com (s : pystr) : bool := ci_prefix (str ".com") s.

(** [\bwww\b] *)
Definition match_www (prev : option N) (s : pystr) : bool :=
  at_boundary prev (head s) && ci_prefix (str "www") s
  && at_boundary (nth_error s 2) (nth_error s 3).

(** [RSVP\b] *)
Definition match_rsvp (s : pystr) : bool :=
  ci_prefix (str "rsvp") s && at_boundary (nth_error s 3) (nth_error s 4).

(** [^\d{5}$] *)
Definition match_zip5 (t : pystr) : bool :=
  (length (take 5 t) =? 5) && forallb is_digit (take 5 t) &&
  match drop 5 t with [] => true | [10%N] => true | _ => false end.

(** The unanchored alternatives at every position of the text. *)
Fixpoint search_go (prev : option N) (s : pystr) : bool :=
  match_com s || match_www prev s || match_rsvp s ||
  match s with [] => false | c :: t => search_go (Some c) t end.

Definition noise_search (t : pystr) : bool := match_zip5 t || search_go None t.

Definition noise_words : list pystr :=
  [str "address"; str "date"; str "time"; str "location"; str "page"].

(** [text.lower().strip(":") in {...}] *)
Definition is_label_word (t : pystr) : bool :=
  let w := py_strip_chars [58%N] (py_lower t) in
  existsb (fun x => bool_decide (w = x)) noise_words.

Definition is_noisy_heading (text : pystr) : bool :=
  let t := py_strip_chars noise_strip_chars text in
  if length t <? 5 then true
  else if fullmatch_caps t && (length (py_split t) <=? 4) then true
  else if noise_search t then true
  else if is_label_word t then true
  else false.

(** The two patterns as [regex] values, for the equivalence with the
    reference semantics of [Regex.v].  Under IGNORECASE [sre] compiles
    each pattern letter to its lower case ([map sre_lower]). *)
Definition noise_re : regex :=
  RAlt (re_lit ci_char (map sre_lower (str ".com")))
    (RAlt (RSeq RWordB (RSeq (re_lit ci_char (map sre_lower (str "www"))) RWordB))
      (RAlt (RSeq (re_lit ci_char (map sre_lower (str "RSVP"))) RWordB)
            (RSeq RBol (RSeq (re_rep 5 is_digit) REol)))).


(** ** Lemmas *)

Lemma search_go_com prev x s : match_com s = true -> search_go prev (x ++ s) = true.
Proof.
  revert prev; induction x as [|a x IH]; intros prev H.
  - destruct s as [|c s]; [discriminate|]. cbn [search_go app]. rewrite H. reflexivity.
  - cbn [search_go app]. rewrite IH by exact H. rewrite !orb_true_r. reflexivity.
Qed.

Lemma digit_not_strip c : is_digit c = true -> mem_chars noise_strip_chars c = false.
Proof.
  unfold is_digit, mem_chars, noise_strip_chars. rewrite andb_true_iff, !N.leb_le.
  intros [H1 H2]. simpl. repeat (rewrite (proj2 (N.eqb_neq _ _)) by lia). reflexivity.
Qed.

Lemma lower_char_strip c : mem_chars noise_strip_chars c = true -> lower_char c = [c].
Proof.
  unfold mem_chars. intros H. apply existsb_exists in H as [x [Hx Heq]].
  apply N.eqb_eq in Heq. subst x.
  destruct Hx as [<-|[<-|[<-|[<-|[<-|[]]]]]]; reflexivity.
Qed.

Lemma py_lower_app x y : py_lower (x ++ y) = py_lower x ++ py_lower y.
Proof. apply flat_map_app. Qed.

(** The ends of a text whose lower case is a label word are not
    stripped by [" :-•●"]. *)
Lemma label_ends t w :
  In w noise_words -> py_lower t = w ->
  t <> [] /\ (forall c, head t = Some c -> mem_chars noise_strip_chars c = false) /\
  (forall c, head (rev t) = Some c -> mem_chars noise_strip_chars c = false).
Proof.
  intros Hw Hl.
  assert (Hh : forall c, head w = Some c -> mem_chars noise_strip_chars c = false)
    by (destruct Hw as [<-|[<-|[<-|[<-|[<-|[]]]]]]; intros c Hc; injection Hc as <-; reflexivity).
  assert (Hr : forall c, head (rev w) = Some c -> mem_chars noise_strip_chars c = false)
    by (destruct Hw as [<-|[<-|[<-|[<-|[<-|[]]]]]]; intros c Hc; injection Hc as <-; reflexivity).
  split; [|split].
  - intros ->. subst w. destruct Hw as [E|[E|[E|[E|[E|[]]]]]]; discriminate.
  - intros c Hc. destruct t as [|c' t]; [discriminate|]. injection Hc as ->.
    destruct (mem_chars noise_strip_chars c) eqn:E; [|reflexivity].
    rewrite <- E. apply Hh. subst w. cbn [py_lower List.flat_map]. rewrite lower_char_strip by exact E. reflexivity.
  - intros c Hc. destruct (rev t) as [|c' r] eqn:Et; [discriminate|]. injection Hc as ->.
    assert (Ht : t = rev r ++ [c]) by (rewrite <- (rev_involutive t), Et; reflexivity).
    destruct (mem_chars noise_strip_chars c) eqn:E; [|reflexivity].
    rewrite <- E. apply Hr. subst w t. rewrite py_lower_app. cbn [py_lower List.flat_map].
    rewrite lower_char_strip by exact E. rewrite app_nil_r, rev_unit. reflexivity.
Qed.

(** ** Properties *)

(** Any text containing [.com] is noise, wherever it occurs. *)
Theorem noisy_com x y : is_noisy_heading (x ++ str ".com" ++ y) = true.
Proof.
  unfold is_noisy_heading, py_strip_chars.
  destruct (strip_by_keeps (mem_chars noise_strip_chars) x (str ".com") y)
    as (x' & y' & ->); [discriminate | intros c Hc; injection Hc as <-; reflexivity ..|].
  destruct (length _ <? 5); [reflexivity|]. destruct (_ && _); [reflexivity|].
  unfold noise_search. rewrite (search_go_com None x' (str ".com" ++ y')) by reflexivity.
  rewrite orb_true_r. reflexivity.
Qed.

(** Five ASCII digits (a postal code), framed by bullets, colons,
    dashes or spaces, are noise whatever the font size. *)
Theorem noisy_zip5 pre d suf :
  length d = 5 -> forallb is_digit d = true ->
  (forall c, In c pre -> mem_chars noise_strip_chars c = true) ->
  (forall c, In c suf -> mem_chars noise_strip_chars c = true) ->
  is_noisy_heading (pre ++ d ++ suf) = true.
Proof.
  intros Hlen Hd Hpre Hsuf.
  assert (Hdig : forall c, In c d -> mem_chars noise_strip_chars c = false)
    by (intros c Hc; apply digit_not_strip; eapply forallb_forall; eassumption).
  unfold is_noisy_heading, py_strip_chars.
  rewrite strip_by_frame; auto.
  - destruct (length d <? 5); [reflexivity|]. destruct (_ && _); [reflexivity|].
    unfold noise_search, match_zip5. rewrite take_ge, drop_ge by lia.
    rewrite Hlen, Hd. reflexivity.
  - intros ->. discriminate.
  - intros c Hc. apply Hdig. destruct d; [discriminate|]. injection Hc as ->. left; reflexivity.
  - intros c Hc. apply Hdig, in_rev. destruct (rev d); [discriminate|]. injection Hc as ->. left; reflexivity.
Qed.

(** C40: A label word (address, date, time, location, page) in any letter
    case, followed by any number of colons, is noise. *)
Theorem noisy_label t w n :
  In w noise_words -> py_lower t = w -> is_noisy_heading (t ++ repeat 58%N n) = true.
Proof.
  intros Hw Hl. destruct (label_ends t w Hw Hl) as (Hne & Hh & Hr).
  assert (Hlab : is_label_word t = true)
    by (unfold is_label_word; rewrite Hl; destruct Hw as [<-|[<-|[<-|[<-|[<-|[]]]]]]; reflexivity).
  unfold is_noisy_heading, py_strip_chars.
  rewrite <- (app_nil_l (t ++ _)), (strip_by_frame _ [] t (repeat 58%N n));
    [| intros c [] | intros c Hc; apply repeat_spec in Hc; subst c; reflexivity
     | exact Hne | exact Hh | exact Hr].
  destruct (length t <? 5); [reflexivity|]. destruct (_ && _); [reflexivity|].
  destruct (noise_search t); [reflexivity|]. rewrite Hlab. reflexivity.
Qed.

(** What survives the filter has at least five characters once bullets
    are stripped. *)
Lemma not_noisy_length t :
  is_noisy_heading t = false -> 5 <= length (py_strip_chars noise_strip_chars t).
Proof.
  unfold is_noisy_heading. destruct (Nat.ltb_spec (length (py_strip_chars noise_strip_chars t)) 5);
    [discriminate | intros _; lia].
Qed.

(** ** Witnesses *)

Lemma noisy_zip5_witness : is_noisy_heading ([8226%N; 32%N] ++ str "12345" ++ [58%N]) = true.
Proof.
  apply noisy_zip5; [reflexivity | reflexivity | |];
    intros c Hc; simpl in Hc; decompose sum Hc; subst; reflexivity || contradiction.
Defined.

Lemma noisy_label_witness : is_noisy_heading (str "DATE" ++ repeat 58%N 1) = true.
Proof. apply (noisy_label (str "DATE") (str "date") 1); [simpl; tauto | reflexivity]. Defined.

(** ** The scanners are the patterns *)

Lemma ci_prefix_by w a : ci_prefix w a = prefix_by ci_char w a.
Proof. revert a. induction w as [|c w IH]; intros [|d a]; simpl; rewrite ?IH; reflexivity. Qed.

Lemma re_matches_lit w b a : re_matches (re_lit ci_char w) b a = ci_prefix w a.
Proof. unfold re_matches. rewrite re_run_lit, ci_prefix_by. destruct (prefix_by _ _ _); reflexivity. Qed.

Lemma re_run_wordb b a :
  re_run RWordB b a = if at_boundary (head b) (head a) then [(b, a)] else [].
Proof. reflexivity. Qed.

(** A literal followed by [\b]. *)
Lemma re_matches_lit_wordb w b a :
  re_matches (RSeq (re_lit ci_char w) RWordB) b a =
  ci_prefix w a && at_boundary (head (rev (take (length w) a) ++ b)) (head (drop (length w) a)).
Proof.
  rewrite ci_prefix_by. destruct (prefix_by ci_char w a) eqn:Hp.
  - rewrite (re_matches_seq1 _ _ b a (rev (take (length w) a) ++ b) (drop (length w) a))
      by (rewrite re_run_lit, Hp; reflexivity).
    unfold re_matches. rewrite re_run_wordb. destruct (at_boundary _ _); reflexivity.
  - apply re_matches_seq0. rewrite re_run_lit, Hp. reflexivity.
Qed.

Lemma match_com_re b s : match_com s = re_matches (re_lit ci_char (map sre_lower (str ".com"))) b s.
Proof. rewrite re_matches_lit. reflexivity. Qed.

Lemma match_rsvp_re b s :
  match_rsvp s = re_matches (RSeq (re_lit ci_char (map sre_lower (str "RSVP"))) RWordB) b s.
Proof.
  rewrite re_matches_lit_wordb. change (map sre_lower (str "RSVP")) with (str "rsvp"). unfold match_rsvp.
  destruct s as [|x1 [|x2 [|x3 [|x4 s]]]]; simpl; rewrite ?andb_false_r; reflexivity.
Qed.

Lemma match_www_re b s :
  match_www (head b) s =
  re_matches (RSeq RWordB (RSeq (re_lit ci_char (map sre_lower (str "www"))) RWordB)) b s.
Proof.
  unfold match_www. destruct (at_boundary (head b) (head s)) eqn:Hb.
  - rewrite (re_matches_seq1 _ _ b s b s) by (rewrite re_run_wordb, Hb; reflexivity).
    rewrite re_matches_lit_wordb. change (map sre_lower (str "www")) with (str "www"). simpl andb.
    destruct s as [|x1 [|x2 [|x3 s]]]; simpl; rewrite ?andb_false_r; reflexivity.
  - rewrite re_matches_seq0 by (rewrite re_run_wordb, Hb; reflexivity). reflexivity.
Qed.

(** The three unanchored alternatives, tried at every position. *)
Lemma search_go_re b s :
  search_go (head b) s =
  re_search_go (re_lit ci_char (map sre_lower (str ".com"))) b s ||
  re_search_go (RSeq RWordB (RSeq (re_lit ci_char (map sre_lower (str "www"))) RWordB)) b s ||
  re_search_go (RSeq (re_lit ci_char (map sre_lower (str "RSVP"))) RWordB) b s.
Proof.
  revert b. induction s as [|c s IH]; intros b; cbn [search_go re_search_go];
    rewrite (match_com_re b), (match_www_re b), (match_rsvp_re b).
  - rewrite !orb_false_r. reflexivity.
  - change (Some c) with (head (c :: b)). rewrite IH.
    destruct (re_matches _ b _), (re_matches _ b _), (re_matches _ b _),
      (re_search_go _ (c :: b) s), (re_search_go _ (c :: b) s), (re_search_go _ (c :: b) s); reflexivity.
Qed.

(** Case analysis on the bits of a code point, down to the literal a
    [match] tests. *)
Ltac destr_code := repeat (simpl; match goal with
  | |- context [match ?x with N0 => _ | Npos _ => _ end] => is_var x; destruct x
  | |- context [match ?p with xI _ => _ | xO _ => _ | xH => _ end] => is_var p; destruct p
  end); try reflexivity.

Lemma re_matches_eol b a : re_matches REol b a = match a with [] => true | [10%N] => true | _ => false end.
Proof. destruct a as [|x [|y a]]; [reflexivity| |]; unfold re_matches; cbn [re_run]; destr_code. Qed.

Lemma length_take5 (s : pystr) : (length (take 5 s) =? 5)%nat = (5 <=? length s)%nat.
Proof.
  rewrite length_take. destruct (Nat.leb_spec 5 (length s)); apply Nat.eqb_eq || apply Nat.eqb_neq; lia.
Qed.

(** [^\d{5}$] can only match at the start. *)
Lemma zip_search s : re_search_go (RSeq RBol (RSeq (re_rep 5 is_digit) REol)) [] s = match_zip5 s.
Proof.
  assert (E : re_search_go (RSeq RBol (RSeq (re_rep 5 is_digit) REol)) [] s =
              re_matches (RSeq RBol (RSeq (re_rep 5 is_digit) REol)) [] s)
    by (destruct s as [|c t]; cbn [re_search_go]; [apply orb_false_r|rewrite re_search_bol; apply orb_false_r]).
  rewrite E, (re_matches_seq1 _ _ [] s [] s) by reflexivity. unfold match_zip5. rewrite length_take5.
  destruct ((5 <=? length s)%nat && forallb is_digit (take 5 s)) eqn:Hd.
  - rewrite (re_matches_seq1 _ _ [] s (rev (take 5 s) ++ []) (drop 5 s)) by (rewrite re_run_rep, Hd; reflexivity).
    rewrite re_matches_eol. reflexivity.
  - rewrite re_matches_seq0 by (rewrite re_run_rep, Hd; reflexivity). reflexivity.
Qed.


(** C20: [noise_search] is [re.search(r"\.com|\bwww\b|RSVP\b|^\d{5}$", t, re.IGNORECASE)]. *)
Theorem noise_search_re t : noise_search t = re_search noise_re t.
Proof.
  unfold noise_search, re_search, noise_re. rewrite !re_search_alt, zip_search.
  change (search_go None t) with (search_go (head []) t). rewrite (search_go_re [] t).
  destruct (match_zip5 t), (re_search_go _ [] t), (re_search_go _ [] t), (re_search_go _ [] t); reflexivity.
Qed.

