(* ===== verification/Percentile.v ===== *)
(** * Font-size thresholds: [np.percentile] (src/main.py 111-113)

    [extract_headings] calls [np.percentile(all_sizes, q)] for
    [q = 90, 75, 60] with numpy's default 'linear' method: the sizes are
    sorted, the virtual index is [q/100 * (n-1)], and the result
    interpolates linearly between the two neighbouring order
    statistics ([_lerp] in numpy).  Sizes are rationals, so the model
    is exact where numpy rounds; [numpy._lerp]'s two algebraically equal
    branches are one formula here.

    Theorems: the result is monotone in [q] (so the 60th, 75th and 90th
    thresholds are ordered) and lies between the smallest and the
    largest size. *)

From S2P Require Import Prelude PySort.
From Stdlib Require Import Sorted.

Local Open Scope Q_scope.

(** ** Definitions *)

Definition lerp (a b t : Q) : Q := a + (b - a) * t.

(** numpy's virtual index for the 'linear' method. *)
Definition virtual_index (n : nat) (q : Q) : Q := q / 100 * inject_Z (Z.of_nat n - 1).

(** Interpolation between the order statistics around index [v] (the
    next index is clipped to the last one). *)
Definition interp (a : list Q) (v : Q) : Q :=
  let g := Z.to_nat (Qfloor v) in
  lerp (nth g a 0) (nth (Nat.min (S g) (length a - 1)) a 0) (v - inject_Z (Qfloor v)).

Definition np_percentile (xs : list Q) (q : Q) : Q :=
  let a := py_sorted (fun x : Q => x) xs in
  interp a (virtual_index (length a) q).

Abbreviation qsorted := (StronglySorted (key_le (fun x : Q => x))).

(** ** Lemmas *)

Lemma key_le_Q x y : key_le (fun x : Q => x) x y <-> x <= y.
Proof. unfold key_le. simpl. apply Qltb_false. Qed.

Lemma sorted_nth_le a i j :
  qsorted a -> (i <= j)%nat -> (j < length a)%nat -> nth i a 0 <= nth j a 0.
Proof.
  revert i j. induction a as [|x a IH]; intros i j Hs Hij Hj; simpl in *; [lia|].
  inversion Hs as [|? ? Hs' Hall]; subst.
  destruct i as [|i], j as [|j]; simpl.
  - apply Qle_refl.
  - apply key_le_Q. rewrite Forall_forall in Hall. apply Hall, nth_In. lia.
  - lia.
  - apply IH; auto; lia.
Qed.

Lemma frac_bounds v : 0 <= v - inject_Z (Qfloor v) /\ v - inject_Z (Qfloor v) < 1.
Proof.
  pose proof (Qfloor_le v) as H1. pose proof (Qlt_floor v) as H2.
  rewrite inject_Z_plus in H2. change (inject_Z 1) with 1 in H2. split; lra.
Qed.

Lemma floor_bounds n v :
  0 <= v -> v <= inject_Z (Z.of_nat n - 1) ->
  (0 <= Qfloor v)%Z /\ (Qfloor v <= Z.of_nat n - 1)%Z.
Proof.
  intros H0 H1. split.
  - change 0%Z with (Qfloor 0). apply Qfloor_resp_le. exact H0.
  - rewrite <- (Qfloor_Z (Z.of_nat n - 1)). apply Qfloor_resp_le. exact H1.
Qed.

Lemma lerp_between a b t : a <= b -> 0 <= t <= 1 -> a <= lerp a b t /\ lerp a b t <= b.
Proof.
  intros Hab [Ht0 Ht1]. unfold lerp.
  assert (0 <= (b - a) * t) by (apply Qmult_le_0_compat; lra).
  assert ((b - a) * t <= (b - a) * 1).
  { rewrite (Qmult_comm _ t), (Qmult_comm _ 1). apply Qmult_le_compat_r; lra. }
  split; lra.
Qed.

Lemma lerp_mono a b t1 t2 : a <= b -> t1 <= t2 -> lerp a b t1 <= lerp a b t2.
Proof.
  intros Hab Ht. unfold lerp.
  assert ((b - a) * t1 <= (b - a) * t2).
  { rewrite (Qmult_comm _ t1), (Qmult_comm _ t2). apply Qmult_le_compat_r; lra. }
  lra.
Qed.

Section Interp.
Context (a : list Q) (Hs : qsorted a) (Hne : a <> []).

Let n := length a.

Lemma length_pos : (1 <= n)%nat.
Proof. unfold n. destruct a; [congruence|simpl; lia]. Qed.

Lemma interp_bounds v :
  0 <= v -> v <= inject_Z (Z.of_nat n - 1) ->
  nth (Z.to_nat (Qfloor v)) a 0 <= interp a v /\
  interp a v <= nth (Nat.min (S (Z.to_nat (Qfloor v))) (n - 1)) a 0.
Proof.
  intros H0 H1. pose proof length_pos. destruct (floor_bounds n v H0 H1) as [Hg0 Hg1].
  destruct (frac_bounds v). unfold interp.
  apply lerp_between; [|split; lra].
  apply sorted_nth_le; [exact Hs|lia|fold n; lia].
Qed.

Lemma interp_mono v1 v2 :
  0 <= v1 -> v1 <= v2 -> v2 <= inject_Z (Z.of_nat n - 1) -> interp a v1 <= interp a v2.
Proof.
  intros H0 H12 H2. pose proof length_pos.
  assert (Hg12 : (Qfloor v1 <= Qfloor v2)%Z) by (apply Qfloor_resp_le; exact H12).
  destruct (floor_bounds n v2 ltac:(lra) H2) as [Hg0 Hg1].
  destruct (floor_bounds n v1 H0 ltac:(lra)) as [Hf0 Hf1].
  destruct (Z.eq_dec (Qfloor v1) (Qfloor v2)) as [E|E].
  - unfold interp. rewrite E. apply lerp_mono; [|lra].
    apply sorted_nth_le; [exact Hs|lia|fold n; lia].
  - destruct (interp_bounds v1 H0 ltac:(lra)) as [_ Hup].
    destruct (interp_bounds v2 ltac:(lra) H2) as [Hlo _].
    eapply Qle_trans; [exact Hup|]. eapply Qle_trans; [|exact Hlo].
    apply sorted_nth_le; [exact Hs|lia|fold n; lia].
Qed.

Lemma interp_range v :
  0 <= v -> v <= inject_Z (Z.of_nat n - 1) ->
  nth 0 a 0 <= interp a v /\ interp a v <= nth (n - 1) a 0.
Proof.
  intros H0 H1. pose proof length_pos. destruct (floor_bounds n v H0 H1).
  destruct (interp_bounds v H0 H1) as [Hlo Hup]. split.
  - eapply Qle_trans; [|exact Hlo]. apply sorted_nth_le; [exact Hs|lia|fold n; lia].
  - eapply Qle_trans; [exact Hup|]. apply sorted_nth_le; [exact Hs|lia|fold n; lia].
Qed.
End Interp.

Lemma virtual_index_range n q :
  (1 <= n)%nat -> 0 <= q -> q <= 100 ->
  0 <= virtual_index n q /\ virtual_index n q <= inject_Z (Z.of_nat n - 1).
Proof.
  intros Hn Hq0 Hq1. unfold virtual_index.
  assert (Hm : 0 <= inject_Z (Z.of_nat n - 1)) by (change 0 with (inject_Z 0); rewrite <- Zle_Qle; lia).
  assert (0 <= q / 100) by (apply Qle_shift_div_l; [reflexivity|lra]).
  assert (q / 100 <= 1) by (apply Qle_shift_div_r; [reflexivity|lra]).
  split; [apply Qmult_le_0_compat; assumption|].
  eapply Qle_trans; [apply Qmult_le_compat_r; eassumption|]. lra.
Qed.

Lemma Qinv_100_nonneg : 0 <= / 100.
Proof. compute. discriminate. Qed.

Lemma virtual_index_mono n q1 q2 :
  (1 <= n)%nat -> q1 <= q2 -> virtual_index n q1 <= virtual_index n q2.
Proof.
  intros Hn H. unfold virtual_index.
  apply Qmult_le_compat_r; [|change 0 with (inject_Z 0); rewrite <- Zle_Qle; lia].
  unfold Qdiv. apply Qmult_le_compat_r; [exact H|exact Qinv_100_nonneg].
Qed.

Lemma interp_nil v : interp [] v == 0.
Proof. unfold interp, lerp. rewrite !nth_overflow by (simpl; lia). reflexivity. Qed.

(** The sorted sizes: sorted, non-empty when the input is, and made of
    the input's elements. *)
Lemma sorted_sizes_cons xs x l :
  py_sorted (fun x : Q => x) xs = x :: l ->
  qsorted (x :: l) /\ (1 <= length (x :: l))%nat /\
  (forall i, (i < length (x :: l))%nat -> In (nth i (x :: l) 0) xs).
Proof.
  intros E. split; [rewrite <- E; apply py_sorted_strongly|]. split; [simpl; lia|].
  intros i Hi. apply (In_py_sorted (fun x : Q => x)). rewrite E. apply nth_In. exact Hi.
Qed.

Lemma sorted_sizes_nil xs : py_sorted (fun x : Q => x) xs = [] -> xs = [].
Proof.
  intros E. apply Permutation_nil. rewrite <- E. first [apply py_sorted_perm | symmetry; apply py_sorted_perm].
Qed.

(** ** Properties *)

(** Shared form of [np_percentile_mono] for the proofs that build on it. *)
Lemma np_percentile_mono_core xs q1 q2 :
  0 <= q1 -> q1 <= q2 -> q2 <= 100 -> np_percentile xs q1 <= np_percentile xs q2.
Proof.
  intros H0 H12 H2. unfold np_percentile.
  destruct (py_sorted (fun x : Q => x) xs) as [|x l] eqn:E.
  - rewrite !interp_nil. apply Qle_refl.
  - destruct (sorted_sizes_cons xs x l E) as (Hs & Hn & _).
    destruct (virtual_index_range _ q1 Hn H0 ltac:(lra)).
    destruct (virtual_index_range _ q2 Hn ltac:(lra) H2).
    apply (interp_mono (x :: l) Hs ltac:(discriminate)); auto.
    apply virtual_index_mono; auto.
Qed.

(** C38: The percentile is monotone in [q] on [0..100]. *)
Theorem np_percentile_mono xs q1 q2 :
  0 <= q1 -> q1 <= q2 -> q2 <= 100 -> np_percentile xs q1 <= np_percentile xs q2.
Proof. apply np_percentile_mono_core. Qed.

(** Shared form of [np_percentile_le_max] for the proofs that build on it. *)
Lemma np_percentile_le_max_core xs q y :
  0 <= q -> q <= 100 -> In y xs -> (forall z, In z xs -> z <= y) -> np_percentile xs q <= y.
Proof.
  intros H0 H1 Hy Hmax. unfold np_percentile.
  destruct (py_sorted (fun x : Q => x) xs) as [|x l] eqn:E.
  - apply sorted_sizes_nil in E. subst xs. destruct Hy.
  - destruct (sorted_sizes_cons xs x l E) as (Hs & Hn & Hin).
    destruct (virtual_index_range _ q Hn H0 H1).
    destruct (interp_range (x :: l) Hs ltac:(discriminate) (virtual_index (length (x :: l)) q))
      as [_ Hup]; auto.
    eapply Qle_trans; [exact Hup|]. apply Hmax, Hin. lia.
Qed.

(** C22: The percentile never exceeds the largest size ... *)
Theorem np_percentile_le_max xs q y :
  0 <= q -> q <= 100 -> In y xs -> (forall z, In z xs -> z <= y) -> np_percentile xs q <= y.
Proof. apply np_percentile_le_max_core. Qed.

(** ... and is never below the smallest. *)
Theorem np_percentile_ge_min xs q y :
  0 <= q -> q <= 100 -> In y xs -> (forall z, In z xs -> y <= z) -> y <= np_percentile xs q.
Proof.
  intros H0 H1 Hy Hmin. unfold np_percentile.
  destruct (py_sorted (fun x : Q => x) xs) as [|x l] eqn:E.
  - apply sorted_sizes_nil in E. subst xs. destruct Hy.
  - destruct (sorted_sizes_cons xs x l E) as (Hs & Hn & Hin).
    destruct (virtual_index_range _ q Hn H0 H1).
    destruct (interp_range (x :: l) Hs ltac:(discriminate) (virtual_index (length (x :: l)) q))
      as [Hlo _]; auto.
    eapply Qle_trans; [|exact Hlo]. apply Hmin, (Hin 0%nat). simpl; lia.
Qed.

(** The three thresholds of [extract_headings] are ordered. *)
Corollary thresholds_ordered xs :
  np_percentile xs 60 <= np_percentile xs 75 /\ np_percentile xs 75 <= np_percentile xs 90.
Proof. split; apply np_percentile_mono_core; discriminate. Qed.

(** numpy's documented value: for sizes 10, 12, 14, 20 the 90th
    percentile is 14 + 0.7 * (20 - 14). *)
Example np_percentile_example : np_percentile [12; 20; 10; 14] 90 == 182 # 10.
Proof. reflexivity. Qed.

(** ** Witnesses *)

Lemma np_percentile_mono_witness : np_percentile [12; 20; 10; 14] 60 <= np_percentile [12; 20; 10; 14] 90.
Proof. apply np_percentile_mono; discriminate. Defined.

Lemma np_percentile_le_max_witness : np_percentile [12; 20; 10; 14] 90 <= 20.
Proof.
  apply np_percentile_le_max; [discriminate | discriminate | simpl; tauto |].
  intros z Hz. simpl in Hz. decompose sum Hz; subst; discriminate || contradiction.
Defined.

Lemma np_percentile_ge_min_witness : 10 <= np_percentile [12; 20; 10; 14] 60.
Proof.
  apply np_percentile_ge_min; [discriminate | discriminate | simpl; tauto |].
  intros z Hz. simpl in Hz. decompose sum Hz; subst; discriminate || contradiction.
Defined.
