(* ===== verification/Grouper.v ===== *)
(** * Token grouper: [extract_lines] (src/main.py 32-62)

    A word of pdfplumber's [extract_words] is a record [word] (text,
    font name, size, box, 1-based page number set by [process_pdf]).
    Words are grouped by the key [(page_num, round(top / y_tol))] in a
    [defaultdict(list)], whose iteration order is the order in which
    keys were first inserted: the dictionary is an association list
    [groups] updated by [dd_append].  Each group is sorted by [x0]
    (stable) and turned into a [line] by [make_line]; the text is
    joined with a space wherever the horizontal gap exceeds 2.
    [round] is Python's round-half-to-even ([py_round]).  A group is
    never empty, so [make_line] (which would raise on an empty group:
    [ZeroDivisionError] and [IndexError]) always succeeds.

    Theorems: the groups partition the words and have distinct keys;
    every line's box contains its words' boxes and its size lies
    between their sizes; the line's font is the leftmost word's;
    grouping pages separately, as [process_pdf] does, equals grouping
    the whole document; [round] is a nearest integer with ties to
    even.  Bold detection ([is_bold_font]) tests the substrings "Bold"
    and "bold" only, as the code does. *)

From S2P Require Import Prelude PyStr PySort Normalizer.
From Stdlib Require Import Sorted.

Local Open Scope Q_scope.

(** ** Data *)

Record word := mkWord {
  w_text : pystr; w_fontname : pystr; w_size : Q;
  w_x0 : Q; w_x1 : Q; w_top : Q; w_bottom : Q;
  w_page_num : Z
}.

Record line := mkLine {
  l_text : pystr; l_raw_text : pystr; l_size : Q; l_font : pystr; l_is_bold : bool;
  l_x0 : Q; l_x1 : Q; l_y0 : Q; l_y1 : Q; l_page : Z
}.

(** ** Python's [round] on floats: to the nearest integer, ties to even. *)
Definition py_round (x : Q) : Z :=
  let f := Qfloor x in
  let r := x - inject_Z f in
  if Qltb r (1 # 2) then f
  else if Qltb (1 # 2) r then (f + 1)%Z
  else if Z.even f then f else (f + 1)%Z.

(** ** The [defaultdict(list)] of lines, in insertion order *)

Abbreviation groups := (list ((Z * Z) * list word)).

Definition word_key (y_tol : Q) (w : word) : Z * Z := (w_page_num w, py_round (w_top w / y_tol)).

(** [lines[key].append(w)] *)
Fixpoint dd_append (k : Z * Z) (w : word) (d : groups) : groups :=
  match d with
  | [] => [(k, [w])]
  | (k', ws) :: d' => if decide (k' = k) then (k', ws ++ [w]) :: d' else (k', ws) :: dd_append k w d'
  end.

Definition group_words (y_tol : Q) (words : list word) : groups :=
  fold_left (fun d w => dd_append (word_key y_tol w) w d) words [].

(** ** One line *)

(** The loop building [line_text]: a space when the gap to the previous
    word's right edge exceeds 2. *)
Fixpoint join_words (prev_right : option Q) (ws : list word) : pystr :=
  match ws with
  | [] => []
  | w :: ws' =>
      let sep := match prev_right with
                 | Some r => if Qltb 2 (w_x0 w - r) then [32%N] else []
                 | None => []
                 end in
      sep ++ w_text w ++ join_words (Some (w_x1 w)) ws'
  end.

Definition sum_sizes (ws : list word) : Q := fold_left (fun acc w => acc + w_size w) ws 0.

(** [any("Bold" in f or "bold" in f for f in fontnames)] *)
Definition is_bold_font (f : pystr) : bool := py_contains (str "Bold") f || py_contains (str "bold") f.

(** The record built for a group whose words are already sorted by [x0];
    [None] is the exception an empty group would raise. *)
Definition make_line (page_num : Z) (line_words : list word) : option line :=
  match line_words with
  | [] => None
  | w0 :: rest =>
      let line_text := join_words None line_words in
      Some {| l_text := clean_line line_text;
              l_raw_text := line_text;
              l_size := sum_sizes line_words / inject_Z (Z.of_nat (length line_words));
              l_font := w_fontname w0;
              l_is_bold := existsb is_bold_font (map w_fontname line_words);
              l_x0 := py_min (w_x0 w0) (map w_x0 rest);
              l_x1 := py_max (w_x1 w0) (map w_x1 rest);
              l_y0 := py_min (w_top w0) (map w_top rest);
              l_y1 := py_max (w_bottom w0) (map w_bottom rest);
              l_page := (page_num - 1)%Z |}
  end.

Definition line_of_group (g : (Z * Z) * list word) : list line :=
  match make_line g.1.1 (py_sorted w_x0 g.2) with Some l => [l] | None => [] end.

Definition extract_lines (words : list word) (y_tol : Q) : list line :=
  List.flat_map line_of_group (group_words y_tol words).

(** ** The grouping invariant *)

(** Keys are distinct; every group is non-empty and holds only words of
    its key. *)
Definition groups_ok (y_tol : Q) (d : groups) : Prop :=
  List.NoDup (map fst d) /\
  Forall (fun kg => kg.2 <> [] /\ Forall (fun w => word_key y_tol w = kg.1) kg.2) d.

Definition group_words_from (y_tol : Q) (words : list word) (d : groups) : groups :=
  fold_left (fun d w => dd_append (word_key y_tol w) w d) words d.

Lemma NoDup_snoc {A} (l : list A) x : List.NoDup l -> ~ In x l -> List.NoDup (l ++ [x]).
Proof.
  intros Hn Hx. apply NoDup_app; [exact Hn|repeat constructor; intros []|].
  intros a Ha [->|[]]. contradiction.
Qed.

Lemma dd_append_keys k w d :
  map fst (dd_append k w d) = map fst d \/
  (map fst (dd_append k w d) = map fst d ++ [k] /\ ~ In k (map fst d)).
Proof.
  induction d as [|[k' ws] d IH]; simpl; [right; split; auto|].
  destruct (decide (k' = k)) as [->|Hne]; [left; reflexivity|]. simpl.
  destruct IH as [->|[-> Hn]]; [left; reflexivity|].
  right. split; [reflexivity|]. intros [E|E]; auto.
Qed.

Lemma dd_append_ok y_tol w d :
  groups_ok y_tol d -> groups_ok y_tol (dd_append (word_key y_tol w) w d).
Proof.
  intros [Hnd Hall]. split.
  - destruct (dd_append_keys (word_key y_tol w) w d) as [->|[-> Hn]]; auto using NoDup_snoc.
  - clear Hnd. induction d as [|[k' ws] d IH]; simpl.
    + constructor; [|constructor]. simpl. split; [discriminate|]. repeat constructor.
    + inversion Hall as [|? ? [Hne Hws] Hrest]; subst.
      destruct (decide (k' = word_key y_tol w)) as [->|Hk]; constructor; auto; simpl.
      split; [destruct ws; discriminate|]. apply Forall_app; auto.
Qed.

Lemma dd_append_perm k w d : concat (map snd (dd_append k w d)) ≡ₚ concat (map snd d) ++ [w].
Proof.
  induction d as [|[k' ws] d IH]; simpl; [reflexivity|].
  destruct (decide (k' = k)); simpl.
  - rewrite <- !app_assoc. apply Permutation_app_head. apply Permutation_app_comm.
  - rewrite IH, app_assoc. reflexivity.
Qed.

Lemma group_words_from_inv y_tol ws d :
  groups_ok y_tol d ->
  groups_ok y_tol (group_words_from y_tol ws d) /\
  concat (map snd (group_words_from y_tol ws d)) ≡ₚ concat (map snd d) ++ ws.
Proof.
  revert d. induction ws as [|w ws IH]; intros d Hd; simpl.
  - rewrite app_nil_r. split; [exact Hd|reflexivity].
  - destruct (IH _ (dd_append_ok y_tol w d Hd)) as [Hok Hp].
    split; [exact Hok|]. unfold group_words_from in *. rewrite Hp, dd_append_perm, <- app_assoc. reflexivity.
Qed.

(** Shared form of [group_words_partition] for the proofs that build on it. *)
Lemma group_words_partition_core y_tol ws :
  concat (map snd (group_words y_tol ws)) ≡ₚ ws /\ groups_ok y_tol (group_words y_tol ws).
Proof.
  destruct (group_words_from_inv y_tol ws [] ltac:(split; constructor)) as [Hok Hp].
  split; [exact Hp|exact Hok].
Qed.

(** C23: The groups partition the words: every word is in exactly one group
    (the concatenation of the groups is a permutation of the input),
    keys are distinct, groups are non-empty and hold only words of
    their key. *)
Theorem group_words_partition y_tol ws :
  concat (map snd (group_words y_tol ws)) ≡ₚ ws /\ groups_ok y_tol (group_words y_tol ws).
Proof. apply group_words_partition_core. Qed.

Lemma in_group_words y_tol ws k g :
  In (k, g) (group_words y_tol ws) ->
  g <> [] /\ forall w, In w g -> In w ws /\ word_key y_tol w = k.
Proof.
  intros Hin. destruct (group_words_partition_core y_tol ws) as [Hp [_ Hall]].
  rewrite Forall_forall in Hall. destruct (Hall _ Hin) as [Hne Hk]. split; [exact Hne|].
  intros w Hw. split; [|rewrite Forall_forall in Hk; apply (Hk w Hw)].
  eapply Permutation_in; [exact Hp|]. apply in_concat. exists g. split; [|exact Hw].
  apply in_map_iff. exists (k, g). auto.
Qed.

Lemma assoc_unique {K V} (d : list (K * V)) k v v' :
  List.NoDup (map fst d) -> In (k, v) d -> In (k, v') d -> v = v'.
Proof.
  induction d as [|[k0 v0] d IH]; intros Hnd H H'; [destruct H|].
  simpl in *. inversion Hnd as [|? ? Hnot Hnd']; subst.
  destruct H as [E1|H], H' as [E2|H']; try congruence.
  - injection E1 as -> ->. exfalso. apply Hnot, in_map_iff. exists (k, v'). auto.
  - injection E2 as -> ->. exfalso. apply Hnot, in_map_iff. exists (k, v). auto.
  - eauto.
Qed.

(** Every input word is in the group of its key. *)
Lemma word_in_group y_tol ws w :
  In w ws -> exists g, In (word_key y_tol w, g) (group_words y_tol ws) /\ In w g.
Proof.
  intros Hw. destruct (group_words_partition_core y_tol ws) as [Hp [_ Hall]].
  assert (Hc : In w (concat (map snd (group_words y_tol ws))))
    by (eapply Permutation_in; [symmetry; exact Hp|exact Hw]).
  apply in_concat in Hc as [g [Hgm Hwg]]. apply in_map_iff in Hgm as [[k g'] [E Hkg]].
  simpl in E. subst g'. rewrite Forall_forall in Hall.
  destruct (Hall _ Hkg) as [_ Hk]. rewrite Forall_forall in Hk. specialize (Hk _ Hwg).
  simpl in Hk. rewrite Hk. eauto.
Qed.

(** ** Lines *)

Lemma in_extract_lines l ws y_tol :
  In l (extract_lines ws y_tol) ->
  exists k g, In (k, g) (group_words y_tol ws) /\ make_line k.1 (py_sorted w_x0 g) = Some l.
Proof.
  unfold extract_lines. rewrite in_flat_map. intros [[k g] [Hin Hl]].
  unfold line_of_group in Hl. simpl in Hl.
  destruct (make_line _ _) eqn:E; [|destruct Hl]. destruct Hl as [<-|[]]. eauto.
Qed.

Lemma fold_sizes_bounds ws m M a :
  (forall w, In w ws -> m <= w_size w <= M) ->
  a + inject_Z (Z.of_nat (length ws)) * m <= fold_left (fun acc w => acc + w_size w) ws a /\
  fold_left (fun acc w => acc + w_size w) ws a <= a + inject_Z (Z.of_nat (length ws)) * M.
Proof.
  revert a. induction ws as [|w ws IH]; intros a H; cbn [fold_left length].
  - change (inject_Z (Z.of_nat 0)) with 0. split; lra.
  - destruct (H w (or_introl eq_refl)) as [Hm HM].
    destruct (IH (a + w_size w)) as [H1 H2]; [intros w' Hw'; apply H; right; exact Hw'|].
    rewrite Nat2Z.inj_succ, <- Z.add_1_r, inject_Z_plus. change (inject_Z 1) with 1.
    split; lra.
Qed.

Lemma avg_between ws m M :
  ws <> [] -> (forall w, In w ws -> m <= w_size w <= M) ->
  m <= sum_sizes ws / inject_Z (Z.of_nat (length ws)) /\
  sum_sizes ws / inject_Z (Z.of_nat (length ws)) <= M.
Proof.
  intros Hne H. destruct (fold_sizes_bounds ws m M 0 H) as [H1 H2].
  assert (Hn : 0 < inject_Z (Z.of_nat (length ws))).
  { change 0 with (inject_Z 0). rewrite <- Zlt_Qlt. destruct ws; [congruence|simpl; lia]. }
  unfold sum_sizes. split.
  - apply Qle_shift_div_l; [exact Hn|]. rewrite Qmult_comm. lra.
  - apply Qle_shift_div_r; [exact Hn|]. rewrite Qmult_comm. lra.
Qed.

(** What [make_line] builds from a non-empty sorted group. *)
Lemma make_line_spec page sg l :
  make_line page sg = Some l ->
  sg <> [] /\ l_page l = (page - 1)%Z /\ l_text l = clean_line (l_raw_text l) /\
  (forall w, In w sg -> l_x0 l <= w_x0 w /\ w_x1 w <= l_x1 l /\
                        l_y0 l <= w_top w /\ w_bottom w <= l_y1 l) /\
  (exists w_lo w_hi, In w_lo sg /\ In w_hi sg /\ w_size w_lo <= l_size l /\ l_size l <= w_size w_hi) /\
  (exists w0 rest, sg = w0 :: rest /\ l_font l = w_fontname w0).
Proof.
  destruct sg as [|w0 rest]; [discriminate|]. intros E. injection E as <-.
  split; [discriminate|]. cbn [l_page l_text l_raw_text l_x0 l_x1 l_y0 l_y1 l_size l_font].
  split; [reflexivity|]. split; [reflexivity|]. split; [|split; [|eauto]].
  - intros w Hw. assert (Hm : forall f : word -> Q, In (f w) (f w0 :: map f rest))
      by (intros f; destruct Hw as [<-|Hw]; [left|right; apply in_map]; auto).
    repeat split; auto with pdf.
  - destruct (in_map_iff w_size (w0 :: rest) (py_min (w_size w0) (map w_size rest))) as [[wl [El Hl]] _];
      [apply py_min_in|].
    destruct (in_map_iff w_size (w0 :: rest) (py_max (w_size w0) (map w_size rest))) as [[wh [Eh Hh]] _];
      [apply py_max_in|].
    exists wl, wh. split; [exact Hl|]. split; [exact Hh|].
    rewrite El, Eh. apply avg_between; [discriminate|].
    intros w Hw. split; [apply py_min_le|apply py_max_ge];
      change (In (w_size w) (map w_size (w0 :: rest))); apply in_map; exact Hw.
Qed.

(** ** Properties *)

(** Shared form of [extract_lines_sound] for the proofs that build on it. *)
Lemma extract_lines_sound_core ws y_tol l :
  In l (extract_lines ws y_tol) ->
  exists g yk, g <> [] /\ l_text l = clean_line (l_raw_text l) /\
    (forall w, In w g ->
       In w ws /\ word_key y_tol w = ((l_page l + 1)%Z, yk) /\
       l_x0 l <= w_x0 w /\ w_x1 w <= l_x1 l /\ l_y0 l <= w_top w /\ w_bottom w <= l_y1 l) /\
    (exists w_lo w_hi, In w_lo g /\ In w_hi g /\ w_size w_lo <= l_size l /\ l_size l <= w_size w_hi).
Proof.
  intros Hl. destruct (in_extract_lines l ws y_tol Hl) as ([page yk] & g & Hin & Hm).
  destruct (in_group_words y_tol ws _ _ Hin) as [Hne Hg].
  destruct (make_line_spec _ _ _ Hm) as (_ & Hpage & Htext & Hbox & (wl & wh & Hwl & Hwh & Hsz) & _).
  exists g, yk. split; [exact Hne|]. split; [exact Htext|]. split.
  - intros w Hw. destruct (Hg w Hw) as [Hws Hk]. split; [exact Hws|]. split.
    + rewrite Hk, Hpage. simpl. f_equal. lia.
    + apply Hbox, In_py_sorted, Hw.
  - exists wl, wh. rewrite !(In_py_sorted w_x0) in Hwl, Hwh. auto.
Qed.

(** C24: Every line comes from one non-empty group of input words sharing
    its page and vertical bucket; its text is the normalised raw text,
    its box contains every word's box and its size lies between two of
    its words' sizes. *)
Theorem extract_lines_sound ws y_tol l :
  In l (extract_lines ws y_tol) ->
  exists g yk, g <> [] /\ l_text l = clean_line (l_raw_text l) /\
    (forall w, In w g ->
       In w ws /\ word_key y_tol w = ((l_page l + 1)%Z, yk) /\
       l_x0 l <= w_x0 w /\ w_x1 w <= l_x1 l /\ l_y0 l <= w_top w /\ w_bottom w <= l_y1 l) /\
    (exists w_lo w_hi, In w_lo g /\ In w_hi g /\ w_size w_lo <= l_size l /\ l_size l <= w_size w_hi).
Proof. apply extract_lines_sound_core. Qed.

(** C30: The line's font is the font of a leftmost word of its group (the
    first after the stable sort by [x0]), not of the first word met. *)
Theorem extract_lines_font_leftmost ws y_tol l :
  In l (extract_lines ws y_tol) ->
  exists w, In w ws /\ w_page_num w = (l_page l + 1)%Z /\ l_font l = w_fontname w /\
    forall w', In w' ws -> word_key y_tol w' = word_key y_tol w -> w_x0 w <= w_x0 w'.
Proof.
  intros Hl. destruct (in_extract_lines l ws y_tol Hl) as ([page yk] & g & Hin & Hm).
  destruct (in_group_words y_tol ws _ _ Hin) as [Hne Hg].
  destruct (make_line_spec _ _ _ Hm) as (_ & Hpage & _ & _ & _ & (w0 & rest & Hs & Hf)).
  assert (Hw0 : In w0 g) by (apply (In_py_sorted w_x0); rewrite Hs; left; reflexivity).
  destruct (Hg w0 Hw0) as [Hws Hk].
  exists w0. split; [exact Hws|].
  split; [unfold word_key in Hk; injection Hk as E1 _; rewrite E1, Hpage; simpl; lia|].
  split; [exact Hf|].
  intros w' Hw' Hk'. destruct (word_in_group y_tol ws w' Hw') as [g' [Hin' Hw'g']].
  rewrite Hk', Hk in Hin'.
  destruct (group_words_partition_core y_tol ws) as [_ [Hnd _]].
  rewrite (assoc_unique _ _ _ _ Hnd Hin' Hin) in Hw'g'.
  assert (Hs' : StronglySorted (key_le w_x0) (w0 :: rest)) by (rewrite <- Hs; apply py_sorted_strongly).
  apply (In_py_sorted w_x0) in Hw'g'. rewrite Hs in Hw'g'. destruct Hw'g' as [<-|Hr]; [apply Qle_refl|].
  inversion Hs' as [|? ? _ Hall]. rewrite Forall_forall in Hall. apply Qltb_false, Hall, Hr.
Qed.

(** ** Grouping page by page *)

Lemma dd_append_app k w d1 d2 :
  ~ In k (map fst d1) -> dd_append k w (d1 ++ d2) = d1 ++ dd_append k w d2.
Proof.
  induction d1 as [|[k' g] d1 IH]; simpl; intros Hn; [reflexivity|].
  destruct (decide (k' = k)) as [->|]; [exfalso; apply Hn; left; reflexivity|].
  f_equal. apply IH. auto.
Qed.

Lemma group_words_from_app y_tol ws d1 d2 :
  (forall w, In w ws -> ~ In (word_key y_tol w) (map fst d1)) ->
  group_words_from y_tol ws (d1 ++ d2) = d1 ++ group_words_from y_tol ws d2.
Proof.
  revert d2. induction ws as [|w ws IH]; intros d2 H; simpl; [reflexivity|].
  unfold group_words_from in *. rewrite dd_append_app by (apply H; left; reflexivity).
  apply IH. intros w' Hw'. apply H. right. exact Hw'.
Qed.

Lemma group_keys_from_words y_tol ws k :
  In k (map fst (group_words y_tol ws)) -> exists w, In w ws /\ word_key y_tol w = k.
Proof.
  intros Hk. apply in_map_iff in Hk as [[k' g] [E Hin]]. simpl in E. subst k'.
  destruct (in_group_words y_tol ws k g Hin) as [Hne Hg].
  destruct g as [|w g]; [congruence|]. exists w. apply Hg. left. reflexivity.
Qed.

(** Shared form of [extract_lines_app] for the proofs that build on it. *)
Lemma extract_lines_app_core ws1 ws2 y_tol :
  (forall w1 w2, In w1 ws1 -> In w2 ws2 -> w_page_num w1 <> w_page_num w2) ->
  extract_lines (ws1 ++ ws2) y_tol = extract_lines ws1 y_tol ++ extract_lines ws2 y_tol.
Proof.
  intros H. unfold extract_lines.
  assert (E : group_words y_tol (ws1 ++ ws2) = group_words y_tol ws1 ++ group_words y_tol ws2).
  { unfold group_words. rewrite fold_left_app.
    pose proof (group_words_from_app y_tol ws2 (group_words y_tol ws1) []) as Happ.
    rewrite app_nil_r in Happ. apply Happ.
    intros w2 Hw2 Hk. destruct (group_keys_from_words y_tol ws1 _ Hk) as [w1 [Hw1 Hk1]].
    apply (H w1 w2 Hw1 Hw2). unfold word_key in Hk1. injection Hk1 as E _. exact E. }
  rewrite E. apply flat_map_app.
Qed.

(** [process_pdf] calls [extract_lines] once per page and concatenates
    the results; when no page is shared this is the same as grouping
    all the words at once, so the per-page loop implements the
    document-wide grouping of the specification. *)
Theorem extract_lines_app ws1 ws2 y_tol :
  (forall w1 w2, In w1 ws1 -> In w2 ws2 -> w_page_num w1 <> w_page_num w2) ->
  extract_lines (ws1 ++ ws2) y_tol = extract_lines ws1 y_tol ++ extract_lines ws2 y_tol.
Proof. apply extract_lines_app_core. Qed.

(** ** Python's [round] *)

Lemma Qfloor_unique x z : inject_Z z <= x -> x < inject_Z z + 1 -> Qfloor x = z.
Proof.
  intros H1 H2. pose proof (Qfloor_le x) as F1. pose proof (Qlt_floor x) as F2.
  rewrite inject_Z_plus in F2. change (inject_Z 1) with 1 in F2.
  assert (A : inject_Z z < inject_Z (Qfloor x + 1)) by (rewrite inject_Z_plus; change (inject_Z 1) with 1; lra).
  assert (B : inject_Z (Qfloor x) < inject_Z (z + 1)) by (rewrite inject_Z_plus; change (inject_Z 1) with 1; lra).
  rewrite <- Zlt_Qlt in A, B. lia.
Qed.

(** C39: [round] returns a nearest integer, and on a tie the even one. *)
Theorem py_round_spec x :
  Qabs (x - inject_Z (py_round x)) <= (1 # 2) /\
  forall z, x == inject_Z z + (1 # 2) -> py_round x = (if Z.even z then z else z + 1)%Z.
Proof.
  pose proof (Qfloor_le x) as F1. pose proof (Qlt_floor x) as F2.
  rewrite inject_Z_plus in F2. change (inject_Z 1) with 1 in F2.
  split.
  - apply Qabs_Qle_condition. unfold py_round.
    repeat case_qb; try destruct (Z.even _); rewrite ?inject_Z_plus; change (inject_Z 1) with 1; split; lra.
  - intros z Hz. assert (Hf : Qfloor x = z) by (apply Qfloor_unique; lra).
    unfold py_round. rewrite Hf. repeat case_qb; lra || reflexivity.
Qed.

Lemma py_round_spec_witness : py_round (5 # 2) = 2%Z.
Proof. apply (proj2 (py_round_spec (5 # 2)) 2%Z). reflexivity. Defined.

(** ** Characters of the line texts *)

Lemma Forall_join_words (P : N -> Prop) r ws :
  P 32%N -> (forall w, In w ws -> Forall P (w_text w)) -> Forall P (join_words r ws).
Proof.
  revert r. induction ws as [|w ws IH]; intros r Hsp Hw; [constructor|]. simpl.
  apply Forall_app; split; [destruct r as [x|]; [destruct (Qltb _ _); repeat constructor; exact Hsp|constructor]|].
  apply Forall_app; split; [apply Hw; left; reflexivity|]. apply IH; [exact Hsp|]. intros w' Hw'. apply Hw. right. exact Hw'.
Qed.

(** Every character of a line's text is a character of one of its words
    or a space. *)
Lemma extract_lines_chars (P : N -> Prop) ws y_tol l :
  P 32%N -> (forall w, In w ws -> Forall P (w_text w)) -> In l (extract_lines ws y_tol) -> Forall P (l_text l).
Proof.
  intros Hsp Hw Hl. unfold extract_lines in Hl. apply in_flat_map in Hl as [[[k1 k2] g] [Hg Hl]].
  unfold line_of_group in Hl. cbn [fst snd] in Hl.
  destruct (make_line k1 (py_sorted w_x0 g)) as [l'|] eqn:E; [|destruct Hl].
  destruct Hl as [<-|[]]. unfold make_line in E. destruct (py_sorted w_x0 g) as [|w0 rest] eqn:Es; [discriminate|].
  injection E as <-. cbn [l_text]. apply Forall_clean_line; [exact Hsp|].
  change (Forall P (join_words None (w0 :: rest))). apply Forall_join_words; [exact Hsp|]. intros w Hin. rewrite <- Es, In_py_sorted in Hin.
  apply Hw, (in_group_words y_tol ws (k1, k2) g Hg), Hin.
Qed.

(** ** A sample page and witnesses *)

Definition sample_words : list word :=
  [ mkWord (str "Report") (str "Helvetica-Bold") 24 43 80 (21 # 2) 34 1;
    mkWord (str "Annual") (str "Helvetica") 24 0 40 10 34 1;
    mkWord (str "Intro") (str "Times") 12 0 30 200 212 1 ].

Definition default_line : line := mkLine [] [] 0 [] false 0 0 0 0 0.

(** "Report" comes first but "Annual" is to its left: one line
    "Annual Report" in the leftmost word's font, and a second line. *)
Example sample_lines :
  map l_text (extract_lines sample_words 2) = [str "Annual Report"; str "Intro"] /\
  l_font (nth 0 (extract_lines sample_words 2) default_line) = str "Helvetica".
Proof. split; reflexivity. Qed.

Lemma extract_lines_sound_witness :
  exists g yk, g <> [] /\
    l_text (nth 0 (extract_lines sample_words 2) default_line) =
      clean_line (l_raw_text (nth 0 (extract_lines sample_words 2) default_line)) /\
    (forall w, In w g ->
       In w sample_words /\
       word_key 2 w = ((l_page (nth 0 (extract_lines sample_words 2) default_line) + 1)%Z, yk) /\
       l_x0 (nth 0 (extract_lines sample_words 2) default_line) <= w_x0 w /\
       w_x1 w <= l_x1 (nth 0 (extract_lines sample_words 2) default_line) /\
       l_y0 (nth 0 (extract_lines sample_words 2) default_line) <= w_top w /\
       w_bottom w <= l_y1 (nth 0 (extract_lines sample_words 2) default_line)) /\
    (exists w_lo w_hi, In w_lo g /\ In w_hi g /\
       w_size w_lo <= l_size (nth 0 (extract_lines sample_words 2) default_line) /\
       l_size (nth 0 (extract_lines sample_words 2) default_line) <= w_size w_hi).
Proof. apply (extract_lines_sound sample_words 2). vm_compute. left. reflexivity. Defined.

Lemma extract_lines_font_leftmost_witness :
  exists w, In w sample_words /\
    w_page_num w = (l_page (nth 0 (extract_lines sample_words 2) default_line) + 1)%Z /\
    l_font (nth 0 (extract_lines sample_words 2) default_line) = w_fontname w /\
    forall w', In w' sample_words -> word_key 2 w' = word_key 2 w -> w_x0 w <= w_x0 w'.
Proof. apply (extract_lines_font_leftmost sample_words 2). vm_compute. left. reflexivity. Defined.

Lemma extract_lines_app_witness :
  extract_lines (sample_words ++ [mkWord (str "Methods") (str "Times") 12 0 40 50 62 2]) 2 =
  extract_lines sample_words 2 ++ extract_lines [mkWord (str "Methods") (str "Times") 12 0 40 50 62 2] 2.
Proof.
  apply extract_lines_app. intros w1 w2 H1 H2.
  destruct H2 as [<-|[]]. simpl in H1. decompose sum H1; subst; simpl; discriminate || contradiction.
Defined.
