(* ===== verification/Title.v ===== *)
(** * Title assembler: [merge_multiline_title] (src/main.py 64-72)

    Lines of page 0 whose top edge is above 120 are sorted by [y0]
    (stable); those whose size is within 1.5 of the largest size are
    normalised, joined with spaces, and the white space of the result
    is collapsed again.

    Theorems: the title is the reading-order join of exactly the banner
    lines within 1.5 of the largest banner size (the refinement of the
    specification's title rule); the title's white space is normal; the
    specification's "Annual Report" scenario. *)

From S2P Require Import Prelude PyStr PySort Normalizer Grouper.
From Stdlib Require Import Sorted.

Local Open Scope Q_scope.

Definition title_threshold : Q := 120.

Definition merge_multiline_title (lines : list line) : pystr :=
  let first_page := List.filter (fun l => (l_page l =? 0)%Z) lines in
  let top_lines := py_sorted l_y0 (List.filter (fun l => Qltb (l_y0 l) title_threshold) first_page) in
  match top_lines with
  | [] => []
  | l0 :: rest =>
      let max_font := py_max (l_size l0) (map l_size rest) in
      let title_lines := List.filter (fun l => Qltb (Qabs (l_size l - max_font)) (3 # 2)) top_lines in
      let merged := py_join [32%N] (map (fun l => clean_line (l_text l)) title_lines) in
      py_strip (re_sub_ws merged)
  end.

(** The banner region: page-0 lines above the threshold. *)
Definition banner (lines : list line) : list line :=
  List.filter (fun l => Qltb (l_y0 l) title_threshold)
    (List.filter (fun l => (l_page l =? 0)%Z) lines).

(** ** Properties *)

(** C25: The title is the reading-order join of exactly the banner lines
    whose size is within 1.5 of the largest banner size, each
    normalised, with white space collapsed; it is empty when the banner
    region is. *)
Theorem title_spec lines :
  (banner lines = [] /\ merge_multiline_title lines = []) \/
  exists M tl,
    (exists l, In l (banner lines) /\ l_size l = M) /\
    (forall l, In l (banner lines) -> l_size l <= M) /\
    (forall l, In l tl <-> In l (banner lines) /\ Qabs (l_size l - M) < 3 # 2) /\
    StronglySorted (fun a b => l_y0 a <= l_y0 b) tl /\
    merge_multiline_title lines =
      py_strip (re_sub_ws (py_join [32%N] (map (fun l => clean_line (l_text l)) tl))).
Proof.
  unfold merge_multiline_title. fold (banner lines).
  assert (Hin : forall x, In x (py_sorted l_y0 (banner lines)) <-> In x (banner lines))
    by (intros; apply In_py_sorted).
  pose proof (py_sorted_Q l_y0 (banner lines)) as Hs.
  destruct (py_sorted l_y0 (banner lines)) as [|l0 rest] eqn:E.
  - left. split; [|reflexivity]. destruct (banner lines) as [|b bs]; [reflexivity|].
    exfalso. apply (proj2 (Hin b)). left. reflexivity.
  - right. exists (py_max (l_size l0) (map l_size rest)).
    exists (List.filter (fun l => Qltb (Qabs (l_size l - py_max (l_size l0) (map l_size rest))) (3 # 2)) (l0 :: rest)).
    split; [|split; [|split; [|split; [apply StronglySorted_filter, Hs|reflexivity]]]].
    + destruct (in_map_iff l_size (l0 :: rest) (py_max (l_size l0) (map l_size rest))) as [[l [El Hl]] _];
        [apply py_max_in|]. exists l. split; [apply Hin, Hl|exact El].
    + intros l Hl. apply py_max_ge. change (In (l_size l) (map l_size (l0 :: rest))).
      apply in_map, Hin, Hl.
    + intros l. rewrite filter_In, Qltb_iff, Hin. reflexivity.
Qed.

(** The title has normal white space: single spaces only, none at
    either end. *)
Theorem title_normal_ws lines :
  ws_ok false (merge_multiline_title lines) = true /\
  (forall c, head (merge_multiline_title lines) = Some c -> py_isspace c = false) /\
  (forall x c, merge_multiline_title lines = x ++ [c] -> py_isspace c = false).
Proof.
  unfold merge_multiline_title.
  destruct (py_sorted _ _) as [|l0 rest].
  - split; [reflexivity|]. split; [discriminate|]. intros x c H. destruct x; discriminate.
  - apply strip_sub_ws_normal.
Qed.

(** ** Characters *)

(** The title is made of characters of the line texts and spaces. *)
Lemma title_chars (P : N -> Prop) lines :
  P 32%N -> (forall l, In l lines -> Forall P (l_text l)) -> Forall P (merge_multiline_title lines).
Proof.
  intros Hsp Hl. unfold merge_multiline_title.
  destruct (py_sorted l_y0 _) as [|l0 rest] eqn:E; [constructor|].
  unfold py_strip, re_sub_ws. apply Forall_strip_by, Forall_sub_ws, Forall_space_join; try exact Hsp.
  apply Forall_forall. intros t Ht. apply in_map_iff in Ht as [l [<- Hin]].
  apply Forall_clean_line; [exact Hsp|]. apply filter_In in Hin as [Hin _]. rewrite <- E, In_py_sorted in Hin.
  apply filter_In in Hin as [Hin _]. apply filter_In in Hin as [Hin _]. exact (Hl l Hin).
Qed.

(** ** The specification's scenario *)

Definition annual_report_lines : list line :=
  [ mkLine (str "Report") (str "Report") 24 (str "Helvetica") false 0 60 40 64 0;
    mkLine (str "Annual") (str "Annual") 24 (str "Helvetica") false 0 60 10 34 0;
    mkLine (str "Contents") (str "Contents") 12 (str "Times") false 0 80 300 312 0 ].

(** Found in the order "Report", "Annual", the two 24-point banner lines
    still give the title in reading order. *)
Example title_annual_report : merge_multiline_title annual_report_lines = str "Annual Report".
Proof. reflexivity. Qed.
