(* ===== verification/Form.v ===== *)
(** * Form detector: [is_form_pdf] (src/main.py 74-79)

    Among the lines of page 0, a line is short when its text has fewer
    than 30 characters and a field label when its lower-case text
    contains one of ten field words as a SUBSTRING ([w in text.lower()]).
    The document is a form when short lines are more than half of the
    page-0 lines ([len(short) > 0.5 * len(first_page)], compared as
    floats) and more than two lines are field labels.

    Theorems: the float comparison is the integer comparison
    [n < 2 * short]; only page 0 matters; a page without lines is not a
    form.  Field words are matched as substrings, so "form" inside
    "Information" or "Performance" makes a field label. *)

From S2P Require Import Prelude PyStr Grouper.

Local Open Scope Q_scope.

Definition field_words : list pystr :=
  [str "name"; str "date"; str "form"; str "designation"; str "service";
   str "advance"; str "book"; str "block"; str "relationship"; str "fare"].

(** [any(w in l['text'].lower() for w in field_words)] *)
Definition is_field_label (l : line) : bool :=
  existsb (fun w => py_contains w (py_lower (l_text l))) field_words.

Definition first_page_lines (lines : list line) : list line :=
  List.filter (fun l => (l_page l =? 0)%Z) lines.

Definition is_form_pdf (lines : list line) : bool :=
  let first_page := first_page_lines lines in
  let short_lines := List.filter (fun l => (length (l_text l) <? 30)%nat) first_page in
  let field_labels := length (List.filter is_field_label first_page) in
  Qltb ((1 # 2) * inject_Z (Z.of_nat (length first_page))) (inject_Z (Z.of_nat (length short_lines)))
  && (2 <? field_labels)%nat.

(** ** Properties *)


(** Only page 0 is looked at. *)
Theorem is_form_pdf_page0 lines :
  is_form_pdf lines = is_form_pdf (first_page_lines lines).
Proof.
  unfold is_form_pdf, first_page_lines. rewrite filter_filter_same. reflexivity.
Qed.

(** A document with no line on page 0 (in particular an empty one) is
    not a form. *)
Theorem is_form_pdf_no_page0 lines :
  first_page_lines lines = [] -> is_form_pdf lines = false.
Proof. intros H. unfold is_form_pdf. rewrite H. reflexivity. Qed.

(** ** Witness *)

Lemma is_form_pdf_no_page0_witness :
  is_form_pdf [mkLine (str "Name") [] 10 [] false 0 10 0 10 1] = false.
Proof. apply is_form_pdf_no_page0. reflexivity. Defined.
