(* ===== verification/Headings.v ===== *)
(** * Heading classifier: [merge_multiline_headings] and
      [extract_headings] (src/main.py 81-146)

    A heading candidate is a line dictionary with a ['level'] key: the
    record [heading].  [merge_multiline_headings] is modelled as the code
    runs it: the [for i, h in enumerate(headings)] loop ([merge_loop])
    with the [skip] set (a [gset nat]) and the inner [while j <
    len(headings)] loop ([absorb_loop], with fuel [len(headings)],
    enough because [j] grows at each absorbed line).  The merged line
    keeps the first line's level, size and [x0]; it takes the text of
    every absorbed line (after a space) and the [y1] of the last one.
    [extract_headings] keeps lines of at least 5 characters, computes
    the 90/75/60 percentiles of their sizes, tags levels, sorts by
    [(page, y0)], merges, and then drops noisy headings and duplicates
    of [(text, page, level)] (the [seen] set, a [gset]) before keeping
    the first 10.  Python's [l['level'] = level] writes into the shared
    line dictionaries; nothing reads that key afterwards ([process_pdf]
    computes the title and the form test first), so the model passes
    fresh records.

    Theorems: the skip-set loop equals a single forward scan
    ([merge_fold], the specification's greedy chaining); the levels
    are ordered by size; the largest line is a level-1 candidate; the
    outline is bounded by 10, has distinct keys, only non-noisy,
    normalised entries, and is in reading order; a continuation is
    absorbed whatever its level and the merged heading keeps the first
    line's level ([merge_continuation]). *)

From S2P Require Import Prelude PyStr PySort Normalizer Noise Percentile Grouper.
From Stdlib Require Import Sorted.

Local Open Scope Q_scope.

(** ** Data *)

Inductive level := H1 | H2 | H3.

#[export] Instance level_eq_dec : EqDecision level.
Proof. solve_decision. Defined.

#[export] Instance level_countable : Countable level.
Proof.
  refine (inj_countable' (fun l => match l with H1 => 0%nat | H2 => 1%nat | H3 => 2%nat end)
            (fun n => match n with 0%nat => H1 | 1%nat => H2 | _ => H3 end) _).
  intros []; reflexivity.
Defined.

Record heading := mkHeading { h_line : line; h_level : level }.

Definition with_text (l : line) (t : pystr) : line :=
  {| l_text := t; l_raw_text := l_raw_text l; l_size := l_size l; l_font := l_font l;
     l_is_bold := l_is_bold l; l_x0 := l_x0 l; l_x1 := l_x1 l; l_y0 := l_y0 l;
     l_y1 := l_y1 l; l_page := l_page l |}.

Definition with_y1 (l : line) (y : Q) : line :=
  {| l_text := l_text l; l_raw_text := l_raw_text l; l_size := l_size l; l_font := l_font l;
     l_is_bold := l_is_bold l; l_x0 := l_x0 l; l_x1 := l_x1 l; l_y0 := l_y0 l;
     l_y1 := y; l_page := l_page l |}.

(** ** [merge_multiline_headings] *)

(** The four tests of the [if] (lines 91-94). *)
Definition continues (m nxt : heading) : bool :=
  (l_page (h_line nxt) =? l_page (h_line m))%Z &&
  Qltb (Qabs (l_y0 (h_line nxt) - l_y1 (h_line m))) 15 &&
  Qltb (Qabs (l_size (h_line nxt) - l_size (h_line m))) (6 # 5) &&
  Qltb (Qabs (l_x0 (h_line nxt) - l_x0 (h_line m))) 10.

(** [merged_line['text'] += ' ' + nxt['text']; merged_line['y1'] = nxt['y1']] *)
Definition absorb (m nxt : heading) : heading :=
  mkHeading (with_y1 (with_text (h_line m) (l_text (h_line m) ++ [32%N] ++ l_text (h_line nxt)))
                     (l_y1 (h_line nxt)))
            (h_level m).

(** [merged_line['text'] = clean_line(merged_line['text'])] *)
Definition finish (m : heading) : heading :=
  mkHeading (with_text (h_line m) (clean_line (l_text (h_line m)))) (h_level m).

(** The inner [while] loop from index [j]. *)
Fixpoint absorb_loop (fuel : nat) (hs : list heading) (m : heading) (j : nat) (skip : gset nat)
  : heading * gset nat :=
  match fuel with
  | O => (m, skip)
  | S f =>
      match hs !! j with
      | None => (m, skip)
      | Some nxt =>
          if continues m nxt then absorb_loop f hs (absorb m nxt) (S j) ({[j]} ∪ skip)
          else (m, skip)
      end
  end.

(** The outer [for] loop at index [i] over the remaining [rest]. *)
Fixpoint merge_loop (hs : list heading) (i : nat) (rest : list heading) (merged : list heading)
  (skip : gset nat) : list heading :=
  match rest with
  | [] => merged
  | h :: rest' =>
      if decide (i ∈ skip) then merge_loop hs (S i) rest' merged skip
      else
        let '(m, skip') := absorb_loop (length hs) hs h (S i) skip in
        merge_loop hs (S i) rest' (merged ++ [finish m]) skip'
  end.

Definition merge_multiline_headings (headings : list heading) : list heading :=
  merge_loop headings 0 headings [] ∅.

(** ** Reference: one forward scan with the open heading as state *)

(** Greedy chaining: absorb while the next line continues the merged one. *)
Fixpoint chain (m : heading) (rest : list heading) : heading * list heading :=
  match rest with
  | [] => (m, [])
  | nxt :: rest' => if continues m nxt then chain (absorb m nxt) rest' else (m, rest)
  end.

Fixpoint merge_fold (cur : option heading) (hs : list heading) : list heading :=
  match hs with
  | [] => match cur with Some m => [finish m] | None => [] end
  | h :: rest =>
      match cur with
      | None => merge_fold (Some h) rest
      | Some m =>
          if continues m h then merge_fold (Some (absorb m h)) rest
          else finish m :: merge_fold (Some h) rest
      end
  end.

(** ** The skip-set loop is the forward scan *)

Lemma merge_fold_some m rest :
  merge_fold (Some m) rest = let '(m', rest') := chain m rest in finish m' :: merge_fold None rest'.
Proof.
  revert m. induction rest as [|h rest IH]; intros m; simpl; [reflexivity|].
  destruct (continues m h); [apply IH|reflexivity].
Qed.

(** The inner loop absorbs the maximal chain [j .. k-1] and adds exactly
    those indices to [skip]. *)
Lemma absorb_loop_spec hs fuel m j skip :
  (j <= length hs)%nat -> (length hs - j <= fuel)%nat ->
  exists k, (j <= k <= length hs)%nat /\
    chain m (drop j hs) = ((absorb_loop fuel hs m j skip).1, drop k hs) /\
    (forall n, n ∈ (absorb_loop fuel hs m j skip).2 <-> n ∈ skip \/ (j <= n < k)%nat).
Proof.
  revert m j skip. induction fuel as [|f IH]; intros m j skip Hj Hf.
  - exists j. assert (j = length hs) by lia. subst j. rewrite drop_all.
    split; [lia|]. split; [reflexivity|]. intros n. simpl. split; [auto|intros [H|H]; [exact H|lia]].
  - cbn [absorb_loop]. destruct (hs !! j) as [nxt|] eqn:E.
    + assert (Hlt : (j < length hs)%nat) by (apply lookup_lt_Some in E; exact E).
      rewrite (drop_S hs nxt j E). cbn [chain]. destruct (continues m nxt).
      * destruct (IH (absorb m nxt) (S j) ({[j]} ∪ skip)) as (k & Hk & Hc & Hs); [lia|lia|].
        exists k. split; [lia|]. split; [exact Hc|].
        intros n. rewrite Hs, elem_of_union, elem_of_singleton. split.
        -- intros [[->|H]|H]; [right; lia|left; exact H|right; lia].
        -- intros [H|H]; [left; right; exact H|].
           destruct (decide (n = j)) as [->|]; [left; left; reflexivity|right; lia].
      * exists j. rewrite <- (drop_S hs nxt j E). split; [lia|]. split; [reflexivity|].
        intros n. simpl. split; [auto|intros [H|H]; [exact H|lia]].
    + apply lookup_ge_None in E. exists j. assert (j = length hs) by lia. subst j.
      rewrite drop_all. split; [lia|]. split; [reflexivity|].
      intros n. simpl. split; [auto|intros [H|H]; [exact H|lia]].
Qed.

(** Iterations whose index is in [skip] do nothing. *)
Lemma merge_loop_skip hs i k merged skip :
  (i <= k <= length hs)%nat -> (forall n, (i <= n < k)%nat -> n ∈ skip) ->
  merge_loop hs i (drop i hs) merged skip = merge_loop hs k (drop k hs) merged skip.
Proof.
  intros [Hik Hk] Hs. remember (k - i)%nat as d eqn:Ed. revert i Hik Ed Hs.
  induction d as [|d IH]; intros i Hik Ed Hs.
  - assert (i = k) by lia. subst. reflexivity.
  - destruct (hs !! i) as [h|] eqn:E; [|apply lookup_ge_None in E; lia].
    rewrite (drop_S hs h i E). cbn [merge_loop].
    destruct (decide (i ∈ skip)) as [_|Hn]; [|exfalso; apply Hn, Hs; lia].
    apply IH; [lia|lia|]. intros n Hn. apply Hs. lia.
Qed.

Lemma merge_loop_fold hs i merged skip :
  (i <= length hs)%nat -> (forall n, n ∈ skip -> (n < i)%nat) ->
  merge_loop hs i (drop i hs) merged skip = merged ++ merge_fold None (drop i hs).
Proof.
  remember (length hs - i)%nat as d eqn:Ed. revert i merged skip Ed.
  induction d as [d IH] using lt_wf_ind. intros i merged skip Ed Hi Hs.
  destruct (hs !! i) as [h|] eqn:E.
  2: { apply lookup_ge_None in E. assert (i = length hs) by lia. subst i.
       rewrite drop_all. simpl. rewrite app_nil_r. reflexivity. }
  assert (Hlt : (i < length hs)%nat) by (apply lookup_lt_Some in E; exact E).
  rewrite (drop_S hs h i E). cbn [merge_loop merge_fold].
  destruct (decide (i ∈ skip)) as [Hin|_]; [apply Hs in Hin; lia|].
  destruct (absorb_loop_spec hs (length hs) h (S i) skip) as (k & Hk & Hc & Hm); [lia|lia|].
  destruct (absorb_loop (length hs) hs h (S i) skip) as [m skip'] eqn:Ea. simpl in Hc, Hm.
  rewrite (merge_loop_skip hs (S i) k); [|lia|intros n Hn; apply Hm; right; lia].
  rewrite (IH (length hs - k)%nat); [|lia|reflexivity|lia|].
  - rewrite merge_fold_some, Hc, <- app_assoc. reflexivity.
  - intros n Hn. apply Hm in Hn as [Hn|Hn]; [apply Hs in Hn; lia|lia].
Qed.

(** Shared form of [merge_multiline_headings_spec] for the proofs that build on it. *)
Lemma merge_multiline_headings_spec_core hs : merge_multiline_headings hs = merge_fold None hs.
Proof.
  unfold merge_multiline_headings. apply (merge_loop_fold hs 0 [] ∅); [lia|].
  intros n Hn. set_solver.
Qed.

(** C1: The code's loop with its [skip] set computes the forward scan of the
    specification: each candidate is absorbed by at most one
    predecessor and the chains are maximal. *)
Theorem merge_multiline_headings_spec hs : merge_multiline_headings hs = merge_fold None hs.
Proof. apply merge_multiline_headings_spec_core. Qed.


(** ** [extract_headings] *)

(** Lines 117-123: most restrictive threshold first. *)
Definition level_of (size_90 size_75 size_60 size : Q) : option level :=
  if Qle_bool size_90 size then Some H1
  else if Qle_bool size_75 size then Some H2
  else if Qle_bool size_60 size then Some H3
  else None.

Definition tag_levels (size_90 size_75 size_60 : Q) (content : list line) : list heading :=
  List.flat_map (fun l => match level_of size_90 size_75 size_60 (l_size l) with
                          | Some lv => [mkHeading l lv]
                          | None => []
                          end) content.

Definition content_lines (lines : list line) : list line :=
  List.filter (fun l => (5 <=? length (l_text l))%nat) lines.

(** The list [heading_candidates] of lines 115-126. *)
Definition heading_candidates (lines : list line) : list heading :=
  let content := content_lines lines in
  let all_sizes := map l_size content in
  tag_levels (np_percentile all_sizes 90) (np_percentile all_sizes 75)
             (np_percentile all_sizes 60) content.

(** The sort key [(l['page'], l['y0'])]. *)
Definition reading_key (h : heading) : Z * Q := (l_page (h_line h), l_y0 (h_line h)).

Record entry := mkEntry { e_level : level; e_text : pystr; e_page : Z }.

Definition entry_key (e : entry) : pystr * Z * level := (e_text e, e_page e, e_level e).

(** Lines 131-144: drop noisy headings and repeated keys. *)
Fixpoint outline_loop (merged : list heading) (seen : gset (pystr * Z * level)) : list entry :=
  match merged with
  | [] => []
  | h :: rest =>
      let htext := clean_line (l_text (h_line h)) in
      if is_noisy_heading htext then outline_loop rest seen
      else
        let key := (htext, l_page (h_line h), h_level h) in
        if decide (key ∈ seen) then outline_loop rest seen
        else mkEntry (h_level h) htext (l_page (h_line h)) :: outline_loop rest ({[key]} ∪ seen)
  end.

Definition extract_headings (lines : list line) : list entry :=
  let content := content_lines lines in
  let all_sizes := map l_size content in
  match all_sizes with
  | [] => []
  | _ =>
      let size_90 := np_percentile all_sizes 90 in
      let size_75 := np_percentile all_sizes 75 in
      let size_60 := np_percentile all_sizes 60 in
      let candidates := tag_levels size_90 size_75 size_60 content in
      let merged := merge_multiline_headings (py_sorted reading_key candidates) in
      take 10 (outline_loop merged ∅)
  end.

(** ** Levels *)

Definition rank (lv : level) : nat := match lv with H1 => 3 | H2 => 2 | H3 => 1 end.

Lemma level_of_spec s90 s75 s60 s lv :
  level_of s90 s75 s60 s = Some lv ->
  match lv with
  | H1 => s90 <= s
  | H2 => s < s90 /\ s75 <= s
  | H3 => s < s90 /\ s < s75 /\ s60 <= s
  end.
Proof.
  unfold level_of. repeat case_qb; intros H; try discriminate; injection H as <-;
    repeat split; assumption.
Qed.

Lemma in_tag_levels s90 s75 s60 content h :
  In h (tag_levels s90 s75 s60 content) <->
  In (h_line h) content /\ level_of s90 s75 s60 (l_size (h_line h)) = Some (h_level h).
Proof.
  unfold tag_levels. rewrite in_flat_map. split.
  - intros [l [Hl Hh]]. destruct (level_of _ _ _ _) eqn:E; [|destruct Hh].
    destruct Hh as [<-|[]]. simpl. auto.
  - intros [Hl Hlv]. exists (h_line h). split; [exact Hl|]. rewrite Hlv.
    destruct h; left; reflexivity.
Qed.

(** C15: A strictly higher level means a strictly larger font size: every
    H1 line is larger than every H2 or H3 line, every H2 line larger
    than every H3 line. *)
Theorem heading_levels_ordered lines h h' :
  In h (heading_candidates lines) -> In h' (heading_candidates lines) ->
  (rank (h_level h') < rank (h_level h))%nat -> l_size (h_line h') < l_size (h_line h).
Proof.
  unfold heading_candidates. rewrite !in_tag_levels.
  intros [_ H] [_ H'] Hr.
  destruct (thresholds_ordered (map l_size (content_lines lines))) as [T1 T2].
  apply level_of_spec in H, H'.
  destruct (h_level h), (h_level h'); simpl in Hr; try lia; intuition lra.
Qed.

(** C16: The largest content line is always a level-1 candidate, so a
    document with a line of 5 or more characters has an H1 candidate. *)
Theorem largest_line_is_h1 lines l :
  In l (content_lines lines) -> (forall l', In l' (content_lines lines) -> l_size l' <= l_size l) ->
  In (mkHeading l H1) (heading_candidates lines).
Proof.
  intros Hl Hmax. unfold heading_candidates. apply in_tag_levels. split; [exact Hl|]. simpl.
  unfold level_of.
  assert (Hp : np_percentile (map l_size (content_lines lines)) 90 <= l_size l).
  { apply np_percentile_le_max_core; [discriminate|discriminate|apply in_map, Hl|].
    intros z Hz. apply in_map_iff in Hz as [l' [<- Hl']]. apply Hmax, Hl'. }
  apply Qle_bool_iff in Hp. rewrite Hp. reflexivity.
Qed.

(** ** The outline *)

Lemma outline_loop_nodup ms seen :
  List.NoDup (map entry_key (outline_loop ms seen)) /\
  Forall (fun e => entry_key e ∉ seen) (outline_loop ms seen).
Proof.
  revert seen. induction ms as [|h ms IH]; intros seen; simpl; [split; constructor|].
  destruct (is_noisy_heading _); [apply IH|].
  destruct (decide _) as [_|Hnin]; [apply IH|].
  destruct (IH ({[(clean_line (l_text (h_line h)), l_page (h_line h), h_level h)]} ∪ seen)) as [Hnd Hall].
  clear IH. rewrite Forall_forall in Hall. split.
  - simpl. constructor; [|exact Hnd]. intros Hin. apply in_map_iff in Hin as [e [He Hin]].
    apply (Hall e Hin). rewrite He. set_solver.
  - constructor; [exact Hnin|]. rewrite Forall_forall. intros e He. specialize (Hall e He). set_solver.
Qed.

Lemma outline_loop_entries ms seen e :
  In e (outline_loop ms seen) ->
  is_noisy_heading (e_text e) = false /\
  exists h, In h ms /\ e_text e = clean_line (l_text (h_line h)) /\
            e_page e = l_page (h_line h) /\ e_level e = h_level h.
Proof.
  revert seen. induction ms as [|h ms IH]; intros seen; simpl; [intros []|].
  destruct (is_noisy_heading (clean_line (l_text (h_line h)))) eqn:Hn.
  { intros He. destruct (IH _ He) as [? [h' ?]]. split; [assumption|]. exists h'. intuition. }
  destruct (decide _).
  { intros He. destruct (IH _ He) as [? [h' ?]]. split; [assumption|]. exists h'. intuition. }
  intros [<-|He]; [split; [exact Hn|]; exists h; simpl; auto|].
  destruct (IH _ He) as [? [h' ?]]. split; [assumption|]. exists h'. intuition.
Qed.

(** Every non-noisy merged heading is represented by an entry of its key. *)
Lemma outline_loop_complete ms seen h :
  In h ms -> is_noisy_heading (clean_line (l_text (h_line h))) = false ->
  (clean_line (l_text (h_line h)), l_page (h_line h), h_level h) ∈ seen \/
  exists e, In e (outline_loop ms seen) /\
            entry_key e = (clean_line (l_text (h_line h)), l_page (h_line h), h_level h).
Proof.
  revert seen. induction ms as [|h0 ms IH]; intros seen Hin Hn; [destruct Hin|].
  simpl. destruct Hin as [<-|Hin].
  - rewrite Hn. destruct (decide _) as [Hs|Hs]; [left; exact Hs|].
    right. eexists. split; [left; reflexivity|reflexivity].
  - destruct (is_noisy_heading (clean_line (l_text (h_line h0)))); [apply IH; auto|].
    destruct (decide _) as [Hs|Hs]; [apply IH; auto|].
    destruct (IH ({[(clean_line (l_text (h_line h0)), l_page (h_line h0), h_level h0)]} ∪ seen) Hin Hn)
      as [Hk|[e [He Hk]]].
    + apply elem_of_union in Hk as [Hk|Hk]; [|left; exact Hk].
      apply elem_of_singleton in Hk. right. rewrite Hk. eexists. split; [left; reflexivity|reflexivity].
    + right. exists e. split; [right; exact He|exact Hk].
Qed.

(** Shared form of [extract_headings_wf] for the proofs that build on it. *)
Lemma extract_headings_wf_core lines :
  (length (extract_headings lines) <= 10)%nat /\
  List.NoDup (map entry_key (extract_headings lines)) /\
  Forall (fun e => is_noisy_heading (e_text e) = false /\ clean_line (e_text e) = e_text e)
         (extract_headings lines).
Proof.
  unfold extract_headings. destruct (map l_size (content_lines lines)); [repeat constructor; simpl; lia|].
  set (o := outline_loop _ ∅). split; [|split].
  - rewrite length_take. lia.
  - rewrite <- firstn_map. apply NoDup_take, outline_loop_nodup.
  - rewrite Forall_forall. intros e He. apply In_take in He.
    destruct (outline_loop_entries _ _ e He) as [Hn [h [_ [Ht _]]]].
    split; [exact Hn|]. rewrite Ht. apply clean_line_idem_core.
Qed.

(** C2: The outline is bounded by 10, its [(text, page, level)] keys are
    distinct, and every entry is normalised text that is not noise. *)
Theorem extract_headings_wf lines :
  (length (extract_headings lines) <= 10)%nat /\
  List.NoDup (map entry_key (extract_headings lines)) /\
  Forall (fun e => is_noisy_heading (e_text e) = false /\ clean_line (e_text e) = e_text e)
         (extract_headings lines).
Proof. apply extract_headings_wf_core. Qed.

(** ** Reading order *)

Abbreviation page_sorted := (StronglySorted (fun a b => (l_page (h_line a) <= l_page (h_line b))%Z)).

Definition opt_cons (cur : option heading) (hs : list heading) : list heading :=
  match cur with Some m => m :: hs | None => hs end.

Lemma merge_fold_pages cur hs x :
  In x (merge_fold cur hs) -> exists y, In y (opt_cons cur hs) /\ l_page (h_line x) = l_page (h_line y).
Proof.
  revert cur. induction hs as [|h hs IH]; intros cur Hx; simpl in Hx.
  - destruct cur as [m|]; [|destruct Hx]. destruct Hx as [<-|[]]. exists m. simpl; auto.
  - destruct cur as [m|]; [|apply (IH (Some h) Hx)].
    destruct (continues m h).
    + destruct (IH _ Hx) as [y [[<-|Hy] Hp]]; [exists m|exists y]; simpl; auto.
    + destruct Hx as [<-|Hx]; [exists m; simpl; auto|].
      destruct (IH _ Hx) as [y [Hy Hp]]. exists y. simpl in *. auto.
Qed.

Lemma merge_fold_sorted cur hs : page_sorted (opt_cons cur hs) -> page_sorted (merge_fold cur hs).
Proof.
  revert cur. induction hs as [|h hs IH]; intros cur Hs; simpl.
  - destruct cur; repeat constructor.
  - destruct cur as [m|]; [|apply IH; exact Hs].
    simpl in Hs. apply StronglySorted_inv in Hs as [Hs Hm].
    apply StronglySorted_inv in Hs as [Hs Hh]. inversion Hm as [|? ? Hmh Hmrest]; subst.
    destruct (continues m h).
    + apply IH. simpl. constructor; [exact Hs|exact Hmrest].
    + constructor; [apply IH; simpl; constructor; assumption|].
      rewrite Forall_forall. intros x Hx. destruct (merge_fold_pages _ _ x Hx) as [y [Hy Hp]].
      simpl. rewrite Hp. destruct Hy as [<-|Hy]; [exact Hmh|].
      rewrite Forall_forall in Hmrest. apply Hmrest, Hy.
Qed.

Lemma outline_loop_sorted ms seen :
  page_sorted ms -> StronglySorted (fun e1 e2 => (e_page e1 <= e_page e2)%Z) (outline_loop ms seen).
Proof.
  revert seen. induction ms as [|h ms IH]; intros seen Hs; simpl; [constructor|].
  apply StronglySorted_inv in Hs as [Hs Hh].
  destruct (is_noisy_heading _); [apply IH, Hs|]. destruct (decide _); [apply IH, Hs|].
  constructor; [apply IH, Hs|]. rewrite Forall_forall. intros e He.
  destruct (outline_loop_entries _ _ e He) as [_ [h' [Hin [_ [Hp _]]]]].
  simpl. rewrite Hp. rewrite Forall_forall in Hh. apply Hh, Hin.
Qed.

Lemma sorted_candidates_pages hs : page_sorted (py_sorted reading_key hs).
Proof.
  eapply StronglySorted_impl; [|apply py_sorted_strongly].
  intros a b H. unfold key_le, reading_key in H. simpl in H.
  destruct (Z.ltb_spec (l_page (h_line b)) (l_page (h_line a))); [discriminate|assumption].
Qed.

(** Shared form of [extract_headings_reading_order] for the proofs that build on it. *)
Lemma extract_headings_reading_order_core lines :
  StronglySorted (fun e1 e2 => (e_page e1 <= e_page e2)%Z) (extract_headings lines).
Proof.
  unfold extract_headings. destruct (map l_size (content_lines lines)); [constructor|].
  apply StronglySorted_take, outline_loop_sorted.
  rewrite merge_multiline_headings_spec_core. apply (merge_fold_sorted None), sorted_candidates_pages.
Qed.

(** C3: The outline is in reading order: pages never decrease. *)
Theorem extract_headings_reading_order lines :
  StronglySorted (fun e1 e2 => (e_page e1 <= e_page e2)%Z) (extract_headings lines).
Proof. apply extract_headings_reading_order_core. Qed.

(** Every outline entry comes from an input line of the same page. *)
Lemma extract_headings_from_lines lines e :
  In e (extract_headings lines) -> exists l, In l lines /\ e_page e = l_page l.
Proof.
  unfold extract_headings. destruct (map l_size (content_lines lines)); [intros []|].
  intros He. apply In_take in He.
  destruct (outline_loop_entries _ _ e He) as [_ [h [Hh [_ [Hp _]]]]].
  rewrite merge_multiline_headings_spec_core in Hh.
  destruct (merge_fold_pages None _ h Hh) as [c [Hc Hpc]]. simpl in Hc.
  apply (proj1 (In_py_sorted reading_key c _)) in Hc. apply in_tag_levels in Hc as [Hc _].
  apply filter_In in Hc as [Hc _]. exists (h_line c). split; [exact Hc|]. congruence.
Qed.

(** ** Merge and de-duplication in closed form *)


(** C17: Before truncation, the outline holds exactly one entry per
    [(text, page, level)] of a non-noisy merged heading. *)
Theorem outline_loop_dedup ms :
  List.NoDup (map entry_key (outline_loop ms ∅)) /\
  (forall h, In h ms -> is_noisy_heading (clean_line (l_text (h_line h))) = false ->
     exists e, In e (outline_loop ms ∅) /\
               entry_key e = (clean_line (l_text (h_line h)), l_page (h_line h), h_level h)) /\
  (forall e, In e (outline_loop ms ∅) ->
     exists h, In h ms /\ entry_key e = (clean_line (l_text (h_line h)), l_page (h_line h), h_level h)).
Proof.
  split; [apply outline_loop_nodup|]. split.
  - intros h Hh Hn. destruct (outline_loop_complete ms ∅ h Hh Hn) as [Hin|He]; [set_solver|exact He].
  - intros e He. destruct (outline_loop_entries ms ∅ e He) as [_ [h [Hh [Ht [Hp Hl]]]]].
    exists h. split; [exact Hh|]. unfold entry_key. rewrite Ht, Hp, Hl. reflexivity.
Qed.

(** ** Characters of the outline *)

Section Chars.
Context (P : N -> Prop) (P_space : P 32%N).

Definition heading_chars (h : heading) : Prop := Forall P (l_text (h_line h)).

Lemma absorb_chars m nxt : heading_chars m -> heading_chars nxt -> heading_chars (absorb m nxt).
Proof. intros Hm Hn. unfold heading_chars. simpl. apply Forall_app; split; [exact Hm|]. constructor; assumption. Qed.

Lemma finish_chars m : heading_chars m -> heading_chars (finish m).
Proof. intros Hm. apply Forall_clean_line; assumption. Qed.

Lemma absorb_loop_chars f hs m j skip :
  Forall heading_chars hs -> heading_chars m -> heading_chars (absorb_loop f hs m j skip).1.
Proof.
  revert m j skip. induction f as [|f IH]; intros m j skip Hhs Hm; [exact Hm|]. simpl.
  destruct (hs !! j) as [nxt|] eqn:E; [|exact Hm]. destruct (continues m nxt); [|exact Hm].
  apply IH; [exact Hhs|]. apply absorb_chars; [exact Hm|]. rewrite Forall_lookup in Hhs. exact (Hhs j nxt E).
Qed.

Lemma merge_loop_chars hs i rest merged skip :
  Forall heading_chars hs -> Forall heading_chars rest -> Forall heading_chars merged ->
  Forall heading_chars (merge_loop hs i rest merged skip).
Proof.
  revert i merged skip. induction rest as [|h rest IH]; intros i merged skip Hhs Hr Hm; [exact Hm|].
  inversion Hr as [|? ? Hh Hrest]; subst. simpl. destruct (decide (i ∈ skip)); [apply IH; assumption|].
  pose proof (absorb_loop_chars (length hs) hs h (S i) skip Hhs Hh) as Ha.
  destruct (absorb_loop _ _ _ _ _) as [m skip']. apply IH; [exact Hhs|exact Hrest|].
  apply Forall_app; split; [exact Hm|]. constructor; [apply finish_chars, Ha|constructor].
Qed.

Lemma outline_loop_chars merged seen :
  Forall heading_chars merged -> Forall (fun e => Forall P (e_text e)) (outline_loop merged seen).
Proof.
  revert seen. induction merged as [|h rest IH]; intros seen Hm; [constructor|].
  inversion Hm as [|? ? Hh Hr]; subst. simpl. destruct (is_noisy_heading _); [apply IH, Hr|].
  destruct (decide _); [apply IH, Hr|]. constructor; [apply Forall_clean_line; assumption|apply IH, Hr].
Qed.

(** Every outline text is made of characters of the line texts and
    spaces. *)
Lemma extract_headings_chars lines :
  (forall l, In l lines -> Forall P (l_text l)) -> Forall (fun e => Forall P (e_text e)) (extract_headings lines).
Proof.
  intros Hl. unfold extract_headings.
  assert (Hs : forall a b c, Forall heading_chars (py_sorted reading_key (tag_levels a b c (content_lines lines)))).
  { intros a b c. apply Forall_forall. intros h Hh. rewrite In_py_sorted in Hh. unfold tag_levels in Hh.
    apply in_flat_map in Hh as [l' [Hl' Hh]]. destruct (level_of _ _ _ _); [|destruct Hh].
    destruct Hh as [<-|[]]. apply filter_In in Hl' as [Hl' _]. exact (Hl l' Hl'). }
  destruct (map l_size (content_lines lines)); [constructor|].
  apply Forall_take, outline_loop_chars. unfold merge_multiline_headings.
  apply merge_loop_chars; [apply Hs|apply Hs|constructor].
Qed.
End Chars.

(** ** Witnesses *)

(** The specification's continuation example: same page, vertical gap
    10, size difference 0.3, horizontal offset 4. *)
Definition cont_first : heading :=
  mkHeading (mkLine (str "Annual") [] 14 [] false 50 200 100 112 0) H1.
Definition cont_second : heading :=
  mkHeading (mkLine (str "Report") [] (143 # 10) [] false 54 200 122 134 0) H1.


Example merge_continuation_text :
  map (fun h => l_text (h_line h)) (merge_multiline_headings [cont_first; cont_second]) =
  [str "Annual Report"].
Proof. reflexivity. Qed.

Definition sample_heading_lines : list line :=
  [ mkLine (str "Introduction") [] 20 [] false 50 300 100 120 0;
    mkLine (str "Background notes") [] 16 [] false 50 300 150 166 0;
    mkLine (str "Body paragraph") [] 12 [] false 50 300 200 212 0;
    mkLine (str "Footnote text") [] 10 [] false 50 300 700 710 0;
    mkLine (str "Small print") [] 8 [] false 50 300 750 758 0 ].

Lemma heading_levels_ordered_witness :
  l_size (h_line (mkHeading (nth 1 sample_heading_lines default_line) H2)) <
  l_size (h_line (mkHeading (nth 0 sample_heading_lines default_line) H1)).
Proof.
  apply (heading_levels_ordered sample_heading_lines); [vm_compute; auto | vm_compute; auto | simpl; lia].
Defined.

Lemma largest_line_is_h1_witness :
  In (mkHeading (nth 0 sample_heading_lines default_line) H1) (heading_candidates sample_heading_lines).
Proof.
  apply largest_line_is_h1; [vm_compute; auto|].
  intros l' Hl'. vm_compute in Hl'. decompose sum Hl'; subst; vm_compute; discriminate || contradiction.
Defined.
