(* ===== verification/Json.v ===== *)
(** * JSON text: [json.dump(obj, f, ensure_ascii=False, indent=2)]

    [process_pdf] (src/main.py 162-167) writes its result with Python's
    [json] encoder.  The values it serialises are built from [str],
    [int], [list] and [dict] only, so [json] has those four shapes; a
    [dict] is its list of items in insertion order.  [dump] follows
    [json.encoder._make_iterencode] for [indent=2] and the default
    separators [(',', ': ')]: a non-empty container opens a new line
    indented by two more spaces per level, items are separated by [","]
    and a new line, and the closing bracket goes on its own line at the
    outer indentation; empty containers are [[]] and [{}].  Strings go
    through [py_encode_basestring] ([ensure_ascii=False]): only the
    quote, the backslash and the control characters below U+0020 are
    escaped, with the short escapes of [ESCAPE_DCT] and [\u00XX]
    (lower-case hex) for the others.  Integers print as [int.__repr__].

    The reader [json_loads] is a reference decoder of JSON text
    (white space, strings with escapes, integers, arrays, objects),
    written with fuel; it is the specification side of the round trip
    [json_loads (json_dumps v) = Some v]. *)

From S2P Require Import Prelude PyStr.

(** ** Values *)

Unset Elimination Schemes.
Inductive json :=
| JStr (s : pystr)
| JInt (z : Z)
| JArr (xs : list json)
| JObj (kvs : list (pystr * json)).
Set Elimination Schemes.

(** Induction with the hypothesis on every element of a container. *)
Section json_ind.
Context (P : json -> Prop)
  (fstr : forall s, P (JStr s)) (fint : forall z, P (JInt z))
  (farr : forall xs, Forall P xs -> P (JArr xs))
  (fobj : forall kvs, Forall (fun kv => P kv.2) kvs -> P (JObj kvs)).

Fixpoint json_ind (v : json) : P v :=
  match v with
  | JStr s => fstr s
  | JInt z => fint z
  | JArr xs => farr xs ((fix go (l : list json) : Forall P l :=
                          match l with
                          | [] => Forall_nil_2 _
                          | x :: l' => Forall_cons_2 _ x l' (json_ind x) (go l')
                          end) xs)
  | JObj kvs => fobj kvs ((fix go (l : list (pystr * json)) : Forall (fun kv => P kv.2) l :=
                            match l with
                            | [] => Forall_nil_2 _
                            | kv :: l' => Forall_cons_2 _ kv l' (json_ind kv.2) (go l')
                            end) kvs)
  end.
End json_ind.

(** ** The encoder *)

Definition hex_digit (d : N) : N := if (d <? 10)%N then (48 + d)%N else (87 + d)%N.

(** [ESCAPE_DCT]: the short escapes, then [\u00XX] below U+0020. *)
Definition escape_char (c : N) : pystr :=
  if (c =? 34)%N then [92; 34]%N
  else if (c =? 92)%N then [92; 92]%N
  else if (c =? 10)%N then [92; 110]%N
  else if (c =? 13)%N then [92; 114]%N
  else if (c =? 9)%N then [92; 116]%N
  else if (c =? 8)%N then [92; 98]%N
  else if (c =? 12)%N then [92; 102]%N
  else if (c <? 32)%N then [92; 117; 48; 48; hex_digit (c / 16); hex_digit (c mod 16)]%N
  else [c].

(** [py_encode_basestring] *)
Definition encode_str (s : pystr) : pystr := [34%N] ++ List.flat_map escape_char s ++ [34%N].

(** Decimal digits, most significant first, prepended to [acc]. *)
Fixpoint digits_go (fuel : nat) (n : N) (acc : pystr) : pystr :=
  match fuel with
  | O => acc
  | S f =>
      if (n <? 10)%N then (48 + n)%N :: acc
      else digits_go f (n / 10) ((48 + n mod 10)%N :: acc)
  end.

(** The fuel [N.size n + 1] bounds the number of digits. *)
Definition n_digits (n : N) : pystr := digits_go (S (N.to_nat (N.size n))) n [].

(** [int.__repr__] *)
Definition int_repr (z : Z) : pystr :=
  if (z <? 0)%Z then 45%N :: n_digits (Z.to_N (- z)) else n_digits (Z.to_N z).

(** A new line and the indentation of level [k] ([indent=2]). *)
Definition nl (k : nat) : pystr := 10%N :: repeat 32%N (2 * k).

(** The separator [',' + newline_indent] between items. *)
Definition item_sep (k : nat) : pystr := 44%N :: nl k.

Definition member (dump : json -> pystr) (kv : pystr * json) : pystr :=
  encode_str kv.1 ++ [58; 32]%N ++ dump kv.2.

(** [_iterencode] at indentation level [lvl]. *)
Fixpoint dump (lvl : nat) (v : json) : pystr :=
  match v with
  | JStr s => encode_str s
  | JInt z => int_repr z
  | JArr [] => [91; 93]%N
  | JArr xs =>
      [91%N] ++ nl (S lvl) ++ py_join (item_sep (S lvl)) (map (dump (S lvl)) xs) ++ nl lvl ++ [93%N]
  | JObj [] => [123; 125]%N
  | JObj kvs =>
      [123%N] ++ nl (S lvl) ++ py_join (item_sep (S lvl)) (map (member (dump (S lvl))) kvs)
      ++ nl lvl ++ [125%N]
  end.

Definition json_dumps (v : json) : pystr := dump 0 v.

(** ** The chunks [json.dump] writes

    [json.dump] does not build the text: it calls [fp.write] on every
    chunk that the generator [_make_iterencode] yields.  In a list the
    opening bracket and indentation (or the separator) are glued to a
    following scalar ([yield buf + _encoder(value)]) and yielded alone
    before a container; in a dict the separator, the key, [": "] and a
    scalar value are separate chunks. *)

(** [_iterencode_list]'s loop; [buf] is ['[' + newline_indent] for the
    first item and [separator] after. *)
Fixpoint list_chunks (enc : json -> list pystr) (sep buf : pystr) (xs : list json) : list pystr :=
  match xs with
  | [] => []
  | x :: xs' =>
      match x with
      | JStr s => [buf ++ encode_str s]
      | JInt z => [buf ++ int_repr z]
      | _ => buf :: enc x
      end ++ list_chunks enc sep sep xs'
  end.

(** [_iterencode_dict]'s loop. *)
Fixpoint dict_chunks (enc : json -> list pystr) (sep : pystr) (first : bool)
    (kvs : list (pystr * json)) : list pystr :=
  match kvs with
  | [] => []
  | (k, v) :: kvs' =>
      (if first then [] else [sep]) ++ [encode_str k; [58; 32]%N] ++
      match v with
      | JStr s => [encode_str s]
      | JInt z => [int_repr z]
      | _ => enc v
      end ++ dict_chunks enc sep false kvs'
  end.

(** [_iterencode] at indentation level [lvl]. *)
Fixpoint iterencode (lvl : nat) (v : json) : list pystr :=
  match v with
  | JStr s => [encode_str s]
  | JInt z => [int_repr z]
  | JArr [] => [[91; 93]%N]
  | JArr xs =>
      list_chunks (iterencode (S lvl)) (item_sep (S lvl)) (91%N :: nl (S lvl)) xs ++ [nl lvl; [93%N]]
  | JObj [] => [[123; 125]%N]
  | JObj kvs =>
      [[123%N]; nl (S lvl)] ++ dict_chunks (iterencode (S lvl)) (item_sep (S lvl)) true kvs
      ++ [nl lvl; [125%N]]
  end.

(** The strings (keys included) that occur in a value. *)
Inductive str_in (s : pystr) : json -> Prop :=
| str_in_str : str_in s (JStr s)
| str_in_arr xs x : In x xs -> str_in s x -> str_in s (JArr xs)
| str_in_key kvs v : In (s, v) kvs -> str_in s (JObj kvs)
| str_in_val kvs k x : In (k, x) kvs -> str_in s x -> str_in s (JObj kvs).

(** ** The reference decoder *)

Definition is_json_ws (c : N) : bool := ((c =? 32) || (c =? 9) || (c =? 10) || (c =? 13))%N.

Definition skip_ws (s : pystr) : pystr := drop_while is_json_ws s.

Definition hex_val (c : N) : option N :=
  if ((48 <=? c) && (c <=? 57))%N then Some (c - 48)%N
  else if ((97 <=? c) && (c <=? 102))%N then Some (c - 87)%N
  else if ((65 <=? c) && (c <=? 70))%N then Some (c - 55)%N
  else None.

Definition hex4 (a b c d : N) : option N :=
  match hex_val a, hex_val b, hex_val c, hex_val d with
  | Some a, Some b, Some c, Some d => Some (((a * 16 + b) * 16 + c) * 16 + d)%N
  | _, _, _, _ => None
  end.

(** The one-character escapes of JSON. *)
Definition unescape (e : N) : option N :=
  if (e =? 34)%N then Some 34%N
  else if (e =? 92)%N then Some 92%N
  else if (e =? 47)%N then Some 47%N
  else if (e =? 98)%N then Some 8%N
  else if (e =? 102)%N then Some 12%N
  else if (e =? 110)%N then Some 10%N
  else if (e =? 114)%N then Some 13%N
  else if (e =? 116)%N then Some 9%N
  else None.

Definition cons_fst {A B} (x : A) (r : option (list A * B)) : option (list A * B) :=
  match r with Some (l, rest) => Some (x :: l, rest) | None => None end.

(** The body of a string after its opening quote; raw control
    characters are refused, as by [json.loads] in strict mode. *)
Fixpoint parse_str (s : pystr) : option (pystr * pystr) :=
  match s with
  | [] => None
  | c :: t =>
      if (c =? 34)%N then Some ([], t)
      else if (c =? 92)%N then
        match t with
        | [] => None
        | e :: t1 =>
            if (e =? 117)%N then
              match t1 with
              | h1 :: h2 :: h3 :: h4 :: t2 =>
                  match hex4 h1 h2 h3 h4 with Some x => cons_fst x (parse_str t2) | None => None end
              | _ => None
              end
            else match unescape e with Some x => cons_fst x (parse_str t1) | None => None end
        end
      else if (c <? 32)%N then None
      else cons_fst c (parse_str t)
  end.

Definition digits_val (acc : N) (ds : pystr) : N :=
  fold_left (fun a d => a * 10 + (d - 48))%N ds acc.

Definition parse_nat (s : pystr) : option (N * pystr) :=
  match take_while is_digit s with
  | [] => None
  | ds => Some (digits_val 0 ds, drop_while is_digit s)
  end.

Definition parse_int (s : pystr) : option (Z * pystr) :=
  match s with
  | c :: t =>
      if (c =? 45)%N then
        match parse_nat t with Some (n, r) => Some ((- Z.of_N n)%Z, r) | None => None end
      else match parse_nat s with Some (n, r) => Some (Z.of_N n, r) | None => None end
  | [] => None
  end.

Fixpoint parse_value (fuel : nat) (s : pystr) : option (json * pystr) :=
  match fuel with
  | O => None
  | S f =>
      match skip_ws s with
      | [] => None
      | c :: t =>
          if (c =? 34)%N then
            match parse_str t with Some (x, r) => Some (JStr x, r) | None => None end
          else if (c =? 91)%N then
            match skip_ws t with
            | d :: r =>
                if (d =? 93)%N then Some (JArr [], r)
                else match parse_elems f t with Some (xs, r') => Some (JArr xs, r') | None => None end
            | [] => None
            end
          else if (c =? 123)%N then
            match skip_ws t with
            | d :: r =>
                if (d =? 125)%N then Some (JObj [], r)
                else match parse_members f t with Some (kvs, r') => Some (JObj kvs, r') | None => None end
            | [] => None
            end
          else match parse_int (c :: t) with Some (z, r) => Some (JInt z, r) | None => None end
      end
  end
with parse_elems (fuel : nat) (s : pystr) : option (list json * pystr) :=
  match fuel with
  | O => None
  | S f =>
      match parse_value f s with
      | None => None
      | Some (v, r) =>
          match skip_ws r with
          | d :: r' =>
              if (d =? 44)%N then cons_fst v (parse_elems f r')
              else if (d =? 93)%N then Some ([v], r')
              else None
          | [] => None
          end
      end
  end
with parse_members (fuel : nat) (s : pystr) : option (list (pystr * json) * pystr) :=
  match fuel with
  | O => None
  | S f =>
      match skip_ws s with
      | q :: t =>
          if (q =? 34)%N then
            match parse_str t with
            | Some (k, r) =>
                match skip_ws r with
                | col :: r1 =>
                    if (col =? 58)%N then
                      match parse_value f r1 with
                      | Some (v, r2) =>
                          match skip_ws r2 with
                          | d :: r3 =>
                              if (d =? 44)%N then cons_fst (k, v) (parse_members f r3)
                              else if (d =? 125)%N then Some ([(k, v)], r3)
                              else None
                          | [] => None
                          end
                      | None => None
                      end
                    else None
                | [] => None
                end
            | None => None
            end
          else None
      | [] => None
      end
  end.

(** [json.loads]: one value, then only white space. *)
Definition json_loads (s : pystr) : option json :=
  match parse_value (S (length s)) s with
  | Some (v, r) => if forallb is_json_ws r then Some v else None
  | None => None
  end.

(** ** Sizes *)

Fixpoint json_size (v : json) : nat :=
  match v with
  | JStr _ | JInt _ => 1
  | JArr xs => S (fold_right (fun x n => S (json_size x + n)) 0 xs)
  | JObj kvs => S (fold_right (fun kv n => S (json_size kv.2 + n)) 0 kvs)
  end.

Definition elems_size (xs : list json) : nat := fold_right (fun x n => S (json_size x + n)) 0 xs.
Definition members_size (kvs : list (pystr * json)) : nat :=
  fold_right (fun kv n => S (json_size kv.2 + n)) 0 kvs.

(** No digit at the front: an integer read greedily stops there. *)
Definition not_digit_start (s : pystr) : bool :=
  match s with c :: _ => negb (is_digit c) | [] => true end.

(** ** Lemmas: white space, strings, integers *)

Ltac nbool := repeat match goal with
  | |- context [(?a =? ?b)%N] => destruct (N.eqb_spec a b)
  | |- context [(?a <? ?b)%N] => destruct (N.ltb_spec a b)
  | |- context [(?a <=? ?b)%N] => destruct (N.leb_spec a b)
  end.

Lemma nl_ws k : forall c, In c (nl k) -> is_json_ws c = true.
Proof. intros c [<-|Hc]; [reflexivity|]. apply repeat_spec in Hc. subst c. reflexivity. Qed.

Lemma skip_ws_nl k s : skip_ws (nl k ++ s) = skip_ws s.
Proof. apply drop_while_all, nl_ws. Qed.

Lemma skip_ws_cons c s : is_json_ws c = false -> skip_ws (c :: s) = c :: s.
Proof. intros H. unfold skip_ws. simpl. rewrite H. reflexivity. Qed.

Lemma parse_value_ws f w s :
  (forall c, In c w -> is_json_ws c = true) -> parse_value f (w ++ s) = parse_value f s.
Proof. intros H. destruct f; [reflexivity|]. cbn [parse_value]. unfold skip_ws. rewrite drop_while_all by exact H. reflexivity. Qed.

Lemma parse_elems_ws f w s :
  (forall c, In c w -> is_json_ws c = true) -> parse_elems f (w ++ s) = parse_elems f s.
Proof. intros H. destruct f; [reflexivity|]. cbn [parse_elems]. rewrite parse_value_ws by exact H. reflexivity. Qed.

Lemma parse_members_ws f w s :
  (forall c, In c w -> is_json_ws c = true) -> parse_members f (w ++ s) = parse_members f s.
Proof. intros H. destruct f; [reflexivity|]. cbn [parse_members]. unfold skip_ws. rewrite drop_while_all by exact H. reflexivity. Qed.

Lemma hex_val_digit d : (d < 16)%N -> hex_val (hex_digit d) = Some d.
Proof. intros H. unfold hex_digit, hex_val. nbool; simpl; try lia; f_equal; lia. Qed.

Lemma hex_split c : (c < 32)%N ->
  (c / 16 < 16)%N /\ (c mod 16 < 16)%N /\ (((0 * 16 + 0) * 16 + c / 16) * 16 + c mod 16)%N = c.
Proof.
  intros H. split; [apply N.Div0.div_lt_upper_bound; lia|]. split; [apply N.mod_lt; lia|].
  pose proof (N.Div0.div_mod c 16). lia.
Qed.

(** Every escape reads back as the character it encodes. *)
Lemma parse_str_escape c rest : parse_str (escape_char c ++ rest) = cons_fst c (parse_str rest).
Proof.
  unfold escape_char. nbool; subst; try reflexivity.
  - destruct (hex_split c) as (H1 & H2 & H3); [assumption|].
    cbn [app parse_str]. unfold hex4. rewrite !hex_val_digit by assumption. simpl.
    match goal with |- context [(?x * 16 + ?y)%N] => replace (x * 16 + y)%N with c by lia end.
    reflexivity.
  - cbn [app parse_str]. nbool; try lia. reflexivity.
Qed.

Lemma parse_str_roundtrip s rest : parse_str (List.flat_map escape_char s ++ 34%N :: rest) = Some (s, rest).
Proof.
  induction s as [|c s IH]; [reflexivity|].
  cbn [List.flat_map]. rewrite <- app_assoc, parse_str_escape, IH. reflexivity.
Qed.

Lemma encode_str_app s rest : encode_str s ++ rest = 34%N :: (List.flat_map escape_char s ++ 34%N :: rest).
Proof. unfold encode_str. simpl. rewrite <- app_assoc. reflexivity. Qed.

Lemma digits_val_cons a d ds : digits_val a (d :: ds) = digits_val (a * 10 + (d - 48))%N ds.
Proof. reflexivity. Qed.

Lemma is_digit_ascii d : (d < 10)%N -> is_digit (48 + d) = true.
Proof. intros H. unfold is_digit. nbool; simpl; lia. Qed.

Lemma digits_go_S f n acc :
  digits_go (S f) n acc =
  if (n <? 10)%N then (48 + n)%N :: acc else digits_go f (n / 10) ((48 + n mod 10)%N :: acc).
Proof. reflexivity. Qed.

(** [digits_go] reads back by [digits_val] once the fuel covers the bits of [n]. *)
Lemma digits_go_val f n acc :
  (n < 2 ^ N.of_nat f)%N -> digits_val 0 (digits_go (S f) n acc) = digits_val n acc.
Proof.
  revert n acc. induction f as [|f IH]; intros n acc Hn; rewrite digits_go_S;
    destruct (N.ltb_spec n 10); try (rewrite digits_val_cons; f_equal; lia).
  - simpl in Hn. lia.
  - rewrite Nat2N.inj_succ, N.pow_succ_r' in Hn.
    rewrite IH by (apply N.Div0.div_lt_upper_bound; lia).
    rewrite digits_val_cons. f_equal.
    pose proof (N.Div0.div_mod n 10). set (q := (n / 10)%N) in *. set (r := (n mod 10)%N) in *. lia.
Qed.

Lemma digits_go_digits f n acc c : In c (digits_go f n acc) -> is_digit c = true \/ In c acc.
Proof.
  revert n acc. induction f as [|f IH]; intros n acc Hc; cbn [digits_go] in Hc; [right; exact Hc|].
  destruct (N.ltb_spec n 10).
  - destruct Hc as [<-|Hc]; [left; apply is_digit_ascii; assumption|right; exact Hc].
  - destruct (IH _ _ Hc) as [Hd|[<-|Hin]]; [left; exact Hd| |right; exact Hin].
    left. apply is_digit_ascii, N.mod_lt. lia.
Qed.

Lemma digits_go_nonempty f n acc : (f <> 0 \/ acc <> []) -> digits_go f n acc <> [].
Proof.
  revert n acc. induction f as [|f IH]; intros n acc H; cbn [digits_go]; [destruct H; [lia|exact H]|].
  destruct (_ <? _)%N; [discriminate|]. apply IH. right. discriminate.
Qed.

Lemma n_digits_val n : digits_val 0 (n_digits n) = n.
Proof. unfold n_digits. rewrite digits_go_val; [reflexivity|]. rewrite N2Nat.id. apply N.size_gt. Qed.

Lemma n_digits_digits n c : In c (n_digits n) -> is_digit c = true.
Proof. intros Hc. destruct (digits_go_digits _ _ _ _ Hc) as [H|[]]. exact H. Qed.

Lemma parse_nat_digits n rest :
  not_digit_start rest = true -> parse_nat (n_digits n ++ rest) = Some (n, rest).
Proof.
  intros Hr. unfold parse_nat.
  assert (Ht : take_while is_digit rest = [] /\ drop_while is_digit rest = rest)
    by (destruct rest as [|c r]; [auto|]; simpl in *; apply negb_true_iff in Hr; rewrite Hr; auto).
  rewrite take_while_app, drop_while_all by apply n_digits_digits.
  destruct Ht as [-> ->]. rewrite app_nil_r.
  destruct (n_digits n) eqn:E; [exfalso; revert E; apply digits_go_nonempty; left; discriminate|].
  rewrite <- E, n_digits_val. reflexivity.
Qed.

Lemma parse_int_roundtrip z rest :
  not_digit_start rest = true -> parse_int (int_repr z ++ rest) = Some (z, rest).
Proof.
  intros Hr. unfold int_repr. destruct (Z.ltb_spec z 0).
  - cbn [app parse_int]. rewrite N.eqb_refl, parse_nat_digits by exact Hr.
    rewrite Z2N.id by lia. f_equal. f_equal. lia.
  - destruct (n_digits (Z.to_N z)) as [|c t] eqn:E;
      [exfalso; revert E; apply digits_go_nonempty; left; discriminate|].
    assert (Hc : is_digit c = true) by (apply (n_digits_digits (Z.to_N z)); rewrite E; left; reflexivity).
    cbn [app parse_int]. replace (c =? 45)%N with false
      by (symmetry; apply N.eqb_neq; intros ->; discriminate).
    rewrite app_comm_cons, <- E, parse_nat_digits by exact Hr. rewrite Z2N.id by lia. reflexivity.
Qed.

(** ** Values *)

Lemma int_repr_head z : exists c t, int_repr z = c :: t /\ (c = 45%N \/ is_digit c = true).
Proof.
  unfold int_repr. destruct (z <? 0)%Z; [do 2 eexists; split; [reflexivity|left; reflexivity]|].
  destruct (n_digits (Z.to_N z)) as [|c t] eqn:E; [exfalso; revert E; apply digits_go_nonempty; left; discriminate|].
  exists c, t. split; [reflexivity|]. right. apply (n_digits_digits (Z.to_N z)). rewrite E. left. reflexivity.
Qed.

(** A dumped value starts with a character that is neither white space
    nor a closing bracket. *)
Lemma dump_head lvl v :
  exists c t, dump lvl v = c :: t /\ is_json_ws c = false /\ (c =? 93)%N = false /\ (c =? 125)%N = false.
Proof.
  assert (Hok : forall c, (34 <= c <= 90)%N -> is_json_ws c = false /\ (c =? 93)%N = false /\ (c =? 125)%N = false)
    by (intros c Hc; unfold is_json_ws; nbool; simpl; repeat split; lia).
  destruct v as [s|z|[|x xs]|[|kv kvs]]; try (do 2 eexists; split; [reflexivity|]; repeat split; reflexivity).
  destruct (int_repr_head z) as (c & t & E & Hc). exists c, t. split; [exact E|]. apply Hok.
  destruct Hc as [->|Hc]; [lia|]. unfold is_digit in Hc. apply andb_true_iff in Hc as [H1 H2].
  apply N.leb_le in H1, H2. lia.
Qed.

Lemma skip_ws_dump lvl v s : skip_ws (dump lvl v ++ s) = dump lvl v ++ s.
Proof. destruct (dump_head lvl v) as (c & t & -> & Hc & _). apply skip_ws_cons, Hc. Qed.

(** The round trip of one value, followed by any text that does not
    extend an integer. *)
Definition rt (v : json) : Prop := forall lvl f rest,
  json_size v < f -> not_digit_start rest = true -> parse_value f (dump lvl v ++ rest) = Some (v, rest).

Lemma rt_elems lvl lvl' x xs f rest :
  Forall rt (x :: xs) -> elems_size (x :: xs) < f ->
  parse_elems f (py_join (item_sep lvl) (map (dump lvl) (x :: xs)) ++ nl lvl' ++ 93%N :: rest)
  = Some (x :: xs, rest).
Proof.
  revert x f. induction xs as [|y xs IH]; intros x f Hall Hs; apply Forall_cons_1 in Hall as [Hx Hxs];
    destruct f as [|f]; [simpl in Hs; lia| |simpl in Hs; lia|]; cbn [elems_size fold_right] in Hs.
  - cbn [map py_join parse_elems]. rewrite Hx by (reflexivity || lia).
    rewrite skip_ws_nl, skip_ws_cons by reflexivity. reflexivity.
  - rewrite map_cons, py_join_cons by discriminate. cbn [parse_elems]. rewrite <- !app_assoc. unfold item_sep at 1. rewrite Hx by (reflexivity || lia).
    cbn [app]. rewrite skip_ws_cons by reflexivity. cbn [N.eqb Pos.eqb]. rewrite parse_elems_ws by apply nl_ws.
    rewrite IH; [reflexivity|exact Hxs|]. unfold elems_size in *. simpl. lia.
Qed.

(** One member [key: value] reads back, leaving the text after it. *)
Lemma rt_member f lvl k v s :
  rt v -> json_size v < f -> not_digit_start s = true ->
  parse_members (S f) (member (dump lvl) (k, v) ++ s) =
  match skip_ws s with
  | d :: r3 =>
      if (d =? 44)%N then cons_fst (k, v) (parse_members f r3)
      else if (d =? 125)%N then Some ([(k, v)], r3) else None
  | [] => None
  end.
Proof.
  intros Hv Hs Hr. cbn [parse_members]. unfold member. cbn [fst snd].
  rewrite <- !app_assoc, encode_str_app, skip_ws_cons by reflexivity. cbn [N.eqb Pos.eqb].
  rewrite parse_str_roundtrip. cbn [app]. rewrite skip_ws_cons by reflexivity. cbn [N.eqb Pos.eqb].
  rewrite (parse_value_ws _ [32%N] (dump lvl v ++ s)) by (intros c [<-|[]]; reflexivity).
  rewrite Hv by assumption. reflexivity.
Qed.

Lemma rt_members lvl lvl' kv kvs f rest :
  Forall (fun kv => rt kv.2) (kv :: kvs) -> members_size (kv :: kvs) < f ->
  parse_members f (py_join (item_sep lvl) (map (member (dump lvl)) (kv :: kvs)) ++ nl lvl' ++ 125%N :: rest)
  = Some (kv :: kvs, rest).
Proof.
  revert kv f. induction kvs as [|kv' kvs IH]; intros [k v] f Hall Hs; apply Forall_cons_1 in Hall as [Hx Hxs];
    destruct f as [|f]; [simpl in Hs; lia| |simpl in Hs; lia|]; cbn [members_size fold_right snd] in Hs, Hx.
  - cbn [map py_join]. rewrite rt_member by (reflexivity || lia || assumption).
    rewrite skip_ws_nl, skip_ws_cons by reflexivity. reflexivity.
  - rewrite map_cons, py_join_cons by discriminate. rewrite <- !app_assoc.
    rewrite rt_member by (reflexivity || lia || assumption).
    unfold item_sep. cbn [app]. rewrite skip_ws_cons by reflexivity. cbn [N.eqb Pos.eqb].
    rewrite parse_members_ws by apply nl_ws.
    rewrite IH; [reflexivity|exact Hxs|]. unfold members_size in *. simpl. lia.
Qed.


Lemma int_head_ok c : c = 45%N \/ is_digit c = true ->
  is_json_ws c = false /\ (c =? 34)%N = false /\ (c =? 91)%N = false /\ (c =? 123)%N = false.
Proof.
  intros [->|Hc]; [repeat split; reflexivity|].
  unfold is_digit in Hc. apply andb_true_iff in Hc as [H1 H2]. apply N.leb_le in H1, H2.
  unfold is_json_ws. nbool; simpl; repeat split; reflexivity || lia.
Qed.

(** The items of a container start with the first item's first character. *)
Lemma join_head sep a l s c t : a = c :: t -> exists t', py_join sep (a :: l) ++ s = c :: t'.
Proof. intros ->. destruct (py_join_head sep (c :: t) l) as [r ->]. eexists. reflexivity. Qed.

Lemma dump_rt v : rt v.
Proof.
  induction v as [s|z|xs IH|kvs IH] using json_ind; intros lvl [|f] rest Hs Hr; try (simpl in Hs; lia).
  - cbn [dump parse_value]. rewrite encode_str_app, skip_ws_cons by reflexivity. cbn [N.eqb Pos.eqb].
    rewrite parse_str_roundtrip. reflexivity.
  - cbn [dump parse_value]. destruct (int_repr_head z) as (c & t & E & Hc).
    destruct (int_head_ok c Hc) as (Hw & H34 & H91 & H123).
    rewrite E. cbn [app]. rewrite skip_ws_cons, H34, H91, H123 by exact Hw.
    rewrite app_comm_cons, <- E, parse_int_roundtrip by exact Hr. reflexivity.
  - destruct xs as [|x xs]; [reflexivity|].
    cbn [dump parse_value]. rewrite <- !app_assoc. cbn [app]. rewrite skip_ws_cons by reflexivity.
    cbn [N.eqb Pos.eqb]. rewrite skip_ws_nl, map_cons.
    destruct (dump_head (S lvl) x) as (c & t & Ex & Hw & H93 & _).
    destruct (join_head (item_sep (S lvl)) _ (map (dump (S lvl)) xs) (nl lvl ++ 93%N :: rest) _ _ Ex) as [t' E].
    rewrite E, skip_ws_cons, H93 by exact Hw. rewrite <- E, parse_elems_ws by apply nl_ws.
    rewrite <- map_cons, rt_elems; [reflexivity|exact IH|].
    change (json_size (JArr (x :: xs))) with (S (elems_size (x :: xs))) in Hs. lia.
  - destruct kvs as [|[k v] kvs]; [reflexivity|].
    cbn [dump parse_value]. rewrite <- !app_assoc. cbn [app]. rewrite skip_ws_cons by reflexivity.
    cbn [N.eqb Pos.eqb]. rewrite skip_ws_nl, map_cons.
    destruct (join_head (item_sep (S lvl)) (member (dump (S lvl)) (k, v)) (map (member (dump (S lvl))) kvs) (nl lvl ++ 125%N :: rest) 34%N
      (List.flat_map escape_char k ++ 34%N :: [58; 32]%N ++ dump (S lvl) v))
      as [t' E]; [unfold member, encode_str; simpl; rewrite <- !app_assoc; reflexivity|].
    rewrite E. cbn [skip_ws drop_while is_json_ws N.eqb Pos.eqb orb]. rewrite <- E, parse_members_ws by apply nl_ws.
    rewrite <- map_cons, rt_members; [reflexivity|exact IH|].
    change (json_size (JObj ((k, v) :: kvs))) with (S (members_size ((k, v) :: kvs))) in Hs. lia.
Qed.

(** ** The round trip *)

Lemma join_length {A} (sz : A -> nat) (g : A -> pystr) sep xs :
  sep <> [] -> Forall (fun x => sz x <= length (g x)) xs ->
  fold_right (fun x n => S (sz x + n)) 0 xs <= S (length (py_join sep (map g xs))).
Proof.
  intros Hsep. induction xs as [|x xs IH]; intros Hall; [simpl; lia|].
  apply Forall_cons_1 in Hall as [Hx Hxs]. destruct xs as [|y ys]; [simpl; lia|].
  rewrite map_cons, py_join_cons by discriminate. rewrite !length_app.
  destruct sep; [congruence|]. cbn [fold_right length] in *. specialize (IH Hxs). lia.
Qed.

(** Each node of a value takes at least one character of its text. *)
Lemma json_size_dump v : forall lvl, json_size v <= length (dump lvl v).
Proof.
  induction v as [s|z|xs IH|kvs IH] using json_ind; intros lvl.
  - unfold dump, encode_str. rewrite !length_app. simpl. lia.
  - destruct (int_repr_head z) as (c & t & E & _). cbn [dump json_size]. rewrite E. simpl. lia.
  - destruct xs as [|x xs]; [simpl; lia|].
    change (json_size (JArr (x :: xs))) with (S (elems_size (x :: xs))).
    pose proof (join_length json_size (dump (S lvl)) (item_sep (S lvl)) (x :: xs)) as Hj.
    cbn [dump]. rewrite !length_app. unfold nl at 1. cbn [length] in *.
    enough (elems_size (x :: xs) <= S (length (py_join (item_sep (S lvl)) (map (dump (S lvl)) (x :: xs)))))
      by lia.
    apply Hj; [discriminate|]. rewrite Forall_forall in IH |- *. intros y Hy. apply IH, Hy.
  - destruct kvs as [|kv kvs]; [simpl; lia|].
    change (json_size (JObj (kv :: kvs))) with (S (members_size (kv :: kvs))).
    pose proof (join_length (fun kv => json_size kv.2) (member (dump (S lvl))) (item_sep (S lvl)) (kv :: kvs)) as Hj.
    cbn [dump]. rewrite !length_app. unfold nl at 1. cbn [length] in *.
    enough (members_size (kv :: kvs) <= S (length (py_join (item_sep (S lvl)) (map (member (dump (S lvl))) (kv :: kvs)))))
      by lia.
    apply Hj; [discriminate|]. rewrite Forall_forall in IH |- *. intros [k v] Hv.
    specialize (IH _ Hv (S lvl)). unfold member. rewrite !length_app. cbn [snd] in *. lia.
Qed.

(** Shared form of [json_roundtrip] for the proofs that build on it. *)
Lemma json_roundtrip_core v : json_loads (json_dumps v) = Some v.
Proof.
  unfold json_loads, json_dumps. pose proof (json_size_dump v 0).
  pose proof (dump_rt v 0 (S (length (dump 0 v))) []) as H'. rewrite app_nil_r in H'.
  rewrite H' by (reflexivity || lia). reflexivity.
Qed.

(** C6: The text [json.dump] writes reads back as the value it encodes. *)
Theorem json_roundtrip v : json_loads (json_dumps v) = Some v.
Proof. apply json_roundtrip_core. Qed.


(** [ensure_ascii=False]: a string without quotes, backslashes or
    control characters is written between quotes as it is, non-ASCII
    characters included. *)
Theorem encode_str_verbatim s :
  (forall c, In c s -> (32 <= c)%N /\ c <> 34%N /\ c <> 92%N) -> encode_str s = [34%N] ++ s ++ [34%N].
Proof.
  intros H. unfold encode_str. enough (E : List.flat_map escape_char s = s) by (rewrite E; reflexivity).
  induction s as [|c s IH]; [reflexivity|]. cbn [List.flat_map].
  rewrite IH by (intros d Hd; apply H; right; exact Hd).
  destruct (H c (or_introl eq_refl)) as (H1 & H2 & H3).
  unfold escape_char. nbool; try lia. reflexivity.
Qed.

(** ** Witnesses *)

Lemma encode_str_verbatim_witness : encode_str [233; 116; 233]%N = [34; 233; 116; 233; 34]%N.
Proof.
  apply (encode_str_verbatim [233; 116; 233]%N).
  intros c Hc. simpl in Hc. decompose sum Hc; subst; lia || contradiction.
Defined.

(** ** The chunks make up the text *)

Lemma item_chunk_concat (enc : json -> list pystr) k buf x :
  concat (enc x) = dump k x ->
  concat (match x with
          | JStr s => [buf ++ encode_str s]
          | JInt z => [buf ++ int_repr z]
          | _ => buf :: enc x
          end) = buf ++ dump k x.
Proof. intros E. destruct x; simpl; rewrite ?app_nil_r; [reflexivity|reflexivity| |]; rewrite E; reflexivity. Qed.

Lemma list_chunks_cons enc sep buf x xs :
  list_chunks enc sep buf (x :: xs) =
  match x with
  | JStr s => [buf ++ encode_str s]
  | JInt z => [buf ++ int_repr z]
  | _ => buf :: enc x
  end ++ list_chunks enc sep sep xs.
Proof. reflexivity. Qed.

Lemma list_chunks_concat enc k sep buf x xs :
  Forall (fun y => concat (enc y) = dump k y) (x :: xs) ->
  concat (list_chunks enc sep buf (x :: xs)) = buf ++ py_join sep (map (dump k) (x :: xs)).
Proof.
  revert buf x. induction xs as [|y xs IH]; intros buf x H; inversion H as [|? ? Hx Hxs]; subst.
  - cbn [list_chunks]. rewrite app_nil_r, (item_chunk_concat enc k) by exact Hx. reflexivity.
  - rewrite list_chunks_cons, concat_app, (item_chunk_concat enc k) by exact Hx.
    rewrite IH by exact Hxs. cbn [map]. rewrite (py_join_cons sep (dump k x)) by (intros E; discriminate E).
    rewrite <- !app_assoc. reflexivity.
Qed.

Lemma value_chunk_concat (enc : json -> list pystr) k v :
  concat (enc v) = dump k v ->
  concat (match v with JStr s => [encode_str s] | JInt z => [int_repr z] | _ => enc v end) = dump k v.
Proof. intros E. destruct v; simpl; rewrite ?app_nil_r; [reflexivity|reflexivity|exact E|exact E]. Qed.

Lemma dict_chunks_cons enc sep first key v kvs :
  dict_chunks enc sep first ((key, v) :: kvs) =
  (if first then [] else [sep]) ++ [encode_str key; [58; 32]%N] ++
  match v with JStr s => [encode_str s] | JInt z => [int_repr z] | _ => enc v end
  ++ dict_chunks enc sep false kvs.
Proof. reflexivity. Qed.

Lemma dict_chunks_concat enc k sep first kv kvs :
  Forall (fun kv => concat (enc kv.2) = dump k kv.2) (kv :: kvs) ->
  concat (dict_chunks enc sep first (kv :: kvs)) =
  (if first then [] else sep) ++ py_join sep (map (member (dump k)) (kv :: kvs)).
Proof.
  revert first kv. induction kvs as [|kv' kvs IH]; intros first [key v] H;
    inversion H as [|? ? Hx Hxs]; subst; rewrite dict_chunks_cons, !concat_app, (value_chunk_concat enc k) by exact Hx.
  - destruct first; simpl; rewrite ?app_nil_r; unfold member; simpl; rewrite <- ?app_assoc; reflexivity.
  - rewrite IH by exact Hxs. cbn [map].
    rewrite (py_join_cons sep (member (dump k) (key, v))) by (intros E; discriminate E).
    unfold member at 2. cbn [fst snd]. destruct first; simpl; rewrite <- ?app_assoc; reflexivity.
Qed.

Lemma iterencode_dump_core v : forall lvl, concat (iterencode lvl v) = dump lvl v.
Proof.
  induction v as [s|z|xs IH|kvs IH] using json_ind; intros lvl; try (cbn [iterencode dump concat]; apply app_nil_r).
  - destruct xs as [|x xs]; [reflexivity|]. cbn [iterencode dump].
    rewrite concat_app, (list_chunks_concat _ (S lvl)).
    + simpl. rewrite <- !app_assoc. reflexivity.
    + eapply Forall_impl; [|exact IH]. intros y Hy. apply Hy.
  - destruct kvs as [|kv kvs]; [reflexivity|]. cbn [iterencode dump].
    rewrite !concat_app, (dict_chunks_concat _ (S lvl)).
    + simpl. rewrite <- !app_assoc. reflexivity.
    + eapply Forall_impl; [|exact IH]. intros y Hy. apply Hy.
Qed.

(** C8: The chunks [json.dump] writes one after the other make up the
    text of [json.dumps]. *)
Theorem iterencode_dump v : concat (iterencode 0 v) = json_dumps v.
Proof. apply iterencode_dump_core. Qed.

(** ** Characters of the text *)

Section Chars.
Context (P : N -> Prop) (P_ascii : forall c, (c < 128)%N -> P c).

Lemma Forall_ascii (s : pystr) : Forall (fun c => c < 128)%N s -> Forall P s.
Proof. intros H. eapply Forall_impl; [|exact H]. exact P_ascii. Qed.

Lemma Forall_escape_char c : P c -> Forall P (escape_char c).
Proof.
  intros Hc. unfold escape_char.
  repeat match goal with |- context [if ?b then _ else _] => destruct b eqn:?; [|] end;
    try (apply Forall_ascii; repeat constructor; lia).
  - apply Forall_ascii. apply N.ltb_lt in Heqb6.
    assert (c / 16 < 2)%N by (apply N.Div0.div_lt_upper_bound; lia).
    assert (c mod 16 < 16)%N by (apply N.mod_lt; lia).
    unfold hex_digit. repeat constructor; try lia; destruct (_ <? 10)%N; lia.
  - repeat constructor. exact Hc.
Qed.

Lemma Forall_encode_str s : Forall P s -> Forall P (encode_str s).
Proof.
  intros Hs. unfold encode_str. apply Forall_app; split; [apply Forall_ascii; repeat constructor; lia|].
  apply Forall_app; split; [|apply Forall_ascii; repeat constructor; lia].
  apply Forall_flat_map. eapply Forall_impl; [|exact Hs]. exact Forall_escape_char.
Qed.

Lemma Forall_int_repr z : Forall P (int_repr z).
Proof.
  assert (Hd : forall n, Forall P (n_digits n)).
  { intros n. apply Forall_forall. intros c Hc. apply P_ascii.
    apply n_digits_digits in Hc. unfold is_digit in Hc. apply andb_prop in Hc as [_ Hc]. apply N.leb_le in Hc. lia. }
  unfold int_repr. destruct (z <? 0)%Z; [constructor; [apply P_ascii; lia|]|]; apply Hd.
Qed.

Lemma Forall_nl k : Forall P (nl k).
Proof. apply Forall_ascii. constructor; [lia|]. apply Forall_forall. intros c Hc. apply repeat_spec in Hc. lia. Qed.

Lemma Forall_item_sep k : Forall P (item_sep k).
Proof. constructor; [apply P_ascii; lia|apply Forall_nl]. Qed.

#[local] Hint Resolve Forall_nl Forall_item_sep Forall_int_repr Forall_encode_str : core.

(** A property of characters that holds of ASCII and of every string in
    the value holds of its JSON text. *)
Lemma Forall_dump v :
  forall lvl, (forall s, str_in s v -> Forall P s) -> Forall P (dump lvl v).
Proof.
  induction v as [s|z|xs IH|kvs IH] using json_ind; intros lvl Hs; cbn [dump].
  - apply Forall_encode_str, Hs. constructor.
  - apply Forall_int_repr.
  - destruct xs as [|x xs]; [apply Forall_ascii; repeat constructor; lia|].
    repeat (apply Forall_app; split); auto; try (apply Forall_ascii; repeat constructor; lia).
    apply Forall_py_join; [auto|]. apply Forall_forall. intros t Ht. apply in_map_iff in Ht as [y [<- Hy]].
    rewrite Forall_forall in IH. apply IH; [exact Hy|]. intros s Hsy. apply Hs. econstructor; eassumption.
  - destruct kvs as [|kv kvs]; [apply Forall_ascii; repeat constructor; lia|].
    repeat (apply Forall_app; split); auto; try (apply Forall_ascii; repeat constructor; lia).
    apply Forall_py_join; [auto|]. apply Forall_forall. intros t Ht. apply in_map_iff in Ht as [[k y] [<- Hy]].
    unfold member. cbn [fst snd]. apply Forall_app; split; [|apply Forall_app; split].
    + apply Forall_encode_str, Hs. eapply str_in_key. exact Hy.
    + apply Forall_ascii. repeat constructor; lia.
    + rewrite Forall_forall in IH. apply (IH (k, y) Hy). intros s Hsy. apply Hs. eapply str_in_val; eassumption.
Qed.
End Chars.
