(* ===== verification/Output.v ===== *)
(** * The output document (src/main.py 139-143, 162-167)

    [extract_headings] builds each outline entry as the dictionary
    [{"level": ..., "text": htext, "page": ...}] (lines 139-143) and
    [process_pdf] builds [{"title": title, "outline": outline}] (lines
    162-165) and serialises it with [json.dump(output, f,
    ensure_ascii=False, indent=2)] (line 167).  [doc_result] is the
    value, [result_json] the dictionary as a JSON value (keys in
    insertion order), [output_text] the text written.

    The specification's output contract (section 6) is the [schema]
    [output_schema]: exactly the keys [title] (a string) and [outline]
    (at most 10 objects with exactly the keys [level] in H1, H2, H3,
    [text] a string and [page] an integer >= 0).  [read_output] reads a
    document back from text.

    Theorems: the written text reads back as the document (round trip);
    a document whose pages are >= 0 and whose outline has at most 10
    entries conforms to the contract; strings without quotes,
    backslashes or control characters are written verbatim (no forced
    escaping of non-ASCII text). *)

From S2P Require Import Prelude PyStr Grouper Headings Json.

(** ** The document and its JSON form *)

Record doc_result := mkResult { title : pystr; outline : list entry }.

Definition level_name (lv : level) : pystr :=
  match lv with H1 => str "H1" | H2 => str "H2" | H3 => str "H3" end.

(** [{"level": h['level'], "text": htext, "page": h['page']}] *)
Definition entry_json (e : entry) : json :=
  JObj [(str "level", JStr (level_name (e_level e))); (str "text", JStr (e_text e));
        (str "page", JInt (e_page e))].

(** [output = {"title": title, "outline": outline}] *)
Definition result_json (r : doc_result) : json :=
  JObj [(str "title", JStr (title r)); (str "outline", JArr (map entry_json (outline r)))].

(** What [json.dump(output, f, ensure_ascii=False, indent=2)] writes. *)
Definition output_text (r : doc_result) : pystr := json_dumps (result_json r).

(** ** Reading a document back *)

Definition level_of_name (s : pystr) : option level :=
  if bool_decide (s = str "H1") then Some H1
  else if bool_decide (s = str "H2") then Some H2
  else if bool_decide (s = str "H3") then Some H3
  else None.

Definition entry_of_json (j : json) : option entry :=
  match j with
  | JObj [(k1, JStr lv); (k2, JStr t); (k3, JInt p)] =>
      if bool_decide (k1 = str "level" /\ k2 = str "text" /\ k3 = str "page") then
        match level_of_name lv with Some l => Some (mkEntry l t p) | None => None end
      else None
  | _ => None
  end.

Fixpoint entries_of_json (js : list json) : option (list entry) :=
  match js with
  | [] => Some []
  | j :: js' =>
      match entry_of_json j, entries_of_json js' with
      | Some e, Some es => Some (e :: es)
      | _, _ => None
      end
  end.

Definition result_of_json (j : json) : option doc_result :=
  match j with
  | JObj [(k1, JStr t); (k2, JArr es)] =>
      if bool_decide (k1 = str "title" /\ k2 = str "outline") then
        match entries_of_json es with Some o => Some (mkResult t o) | None => None end
      else None
  | _ => None
  end.

Definition read_output (s : pystr) : option doc_result :=
  match json_loads s with Some j => result_of_json j | None => None end.

(** ** The output contract as a schema *)

Unset Elimination Schemes.
Inductive schema :=
| SStr
| SNat
| SEnum (names : list pystr)
| SArr (max : nat) (item : schema)
| SObj (fields : list (pystr * schema)).
Set Elimination Schemes.

(** [j] has the shape [sc]; objects have exactly the listed keys, in order. *)
Fixpoint conforms (sc : schema) (j : json) {struct j} : bool :=
  match sc, j with
  | SStr, JStr _ => true
  | SNat, JInt z => (0 <=? z)%Z
  | SEnum ns, JStr s => bool_decide (s ∈ ns)
  | SArr m it, JArr xs => (length xs <=? m) && forallb (conforms it) xs
  | SObj fs, JObj kvs =>
      (fix go (fs : list (pystr * schema)) (kvs : list (pystr * json)) {struct kvs} : bool :=
         match fs, kvs with
         | [], [] => true
         | (n, s) :: fs', (k, v) :: kvs' => bool_decide (n = k) && conforms s v && go fs' kvs'
         | _, _ => false
         end) fs kvs
  | _, _ => false
  end.

Definition entry_schema : schema :=
  SObj [(str "level", SEnum [str "H1"; str "H2"; str "H3"]); (str "text", SStr); (str "page", SNat)].

Definition output_schema : schema :=
  SObj [(str "title", SStr); (str "outline", SArr 10 entry_schema)].

(** ** Lemmas *)

Lemma level_of_name_level lv : level_of_name (level_name lv) = Some lv.
Proof. destruct lv; reflexivity. Qed.

Lemma entry_of_json_entry e : entry_of_json (entry_json e) = Some e.
Proof.
  destruct e as [lv t p]. unfold entry_of_json, entry_json. cbn [e_level e_text e_page].
  rewrite bool_decide_eq_true_2 by auto. rewrite level_of_name_level. reflexivity.
Qed.

Lemma entries_of_json_map es : entries_of_json (map entry_json es) = Some es.
Proof. induction es as [|e es IH]; [reflexivity|]. cbn [map entries_of_json]. rewrite entry_of_json_entry, IH. reflexivity. Qed.

Lemma entry_conforms e : (0 <= e_page e)%Z -> conforms entry_schema (entry_json e) = true.
Proof. destruct e as [[] t p]; cbn [e_page]; intros H; apply Z.leb_le in H; simpl; rewrite H; reflexivity. Qed.

Lemma ascii_lit (s : pystr) : forallb (fun c => c <? 128)%N s = true -> Forall (fun c => c < 128)%N s.
Proof. rewrite forallb_forall, Forall_forall. intros H c Hc. apply N.ltb_lt, H, Hc. Qed.

(** The strings of the output dict: the title, the outline texts, and
    ASCII keys and level names. *)
Lemma str_in_result s r :
  str_in s (result_json r) ->
  s = title r \/ (exists e, In e (outline r) /\ s = e_text e) \/ Forall (fun c => c < 128)%N s.
Proof.
  intros H. inversion H as [| |kvs v Hin|kvs k x Hin Hx]; subst.
  - right. right. destruct Hin as [E|[E|[]]]; injection E; intros; subst; apply ascii_lit; reflexivity.
  - destruct Hin as [E|[E|[]]]; injection E; intros; subst.
    + inversion Hx. left. reflexivity.
    + inversion Hx as [|xs y Hy Hs| |]; subst. apply in_map_iff in Hy as [e [<- He]].
      inversion Hs as [| |kvs v Hin|kvs k x Hin Hx']; subst.
      * right. right. destruct Hin as [E'|[E'|[E'|[]]]]; injection E'; intros; subst; apply ascii_lit; reflexivity.
      * destruct Hin as [E'|[E'|[E'|[]]]]; injection E'; intros; subst; inversion Hx'; subst.
        -- right. right. apply ascii_lit. destruct (e_level e); reflexivity.
        -- right. left. exists e. split; [exact He|reflexivity].
Qed.

(** Every character of the written text is ASCII, a character of the
    title or one of an outline text. *)
Lemma output_text_chars (P : N -> Prop) r :
  (forall c, (c < 128)%N -> P c) -> Forall P (title r) -> Forall (fun e => Forall P (e_text e)) (outline r) ->
  Forall P (output_text r).
Proof.
  intros Ha Ht Ho. apply Forall_dump; [exact Ha|]. intros s Hs.
  destruct (str_in_result s r Hs) as [->|[[e [He ->]]|Hs']]; [exact Ht| |].
  - rewrite Forall_forall in Ho. exact (Ho e He).
  - eapply Forall_impl; [|exact Hs']. exact Ha.
Qed.

(** ** Properties *)

(** The text written for a document reads back as that document. *)
Theorem output_roundtrip r : read_output (output_text r) = Some r.
Proof.
  unfold read_output, output_text. rewrite json_roundtrip_core. destruct r as [t o].
  unfold result_json, result_of_json. cbn [title outline].
  rewrite bool_decide_eq_true_2 by auto. rewrite entries_of_json_map. reflexivity.
Qed.

(** A document with at most 10 entries and pages [>= 0] meets the
    output contract. *)
Theorem result_json_conforms r :
  (length (outline r) <= 10)%nat -> Forall (fun e => (0 <= e_page e)%Z) (outline r) ->
  conforms output_schema (result_json r) = true.
Proof.
  destruct r as [t o]. cbn [outline]. intros Hlen Hpg. simpl.
  rewrite length_map. apply Nat.leb_le in Hlen. rewrite Hlen. simpl.
  replace (forallb _ _) with true; [reflexivity|]. symmetry. apply forallb_forall.
  intros j Hj. apply in_map_iff in Hj as [e [<- He]]. apply entry_conforms.
  rewrite Forall_forall in Hpg. apply Hpg, He.
Qed.
