(* ===== verification/FileSys.v ===== *)
(** * The file system calls of [main] and [process_pdf]
      (src/main.py 166-167, 170)

    [main] calls [os.makedirs(OUTPUT_DIR, exist_ok=True)] before the
    batch, and [process_pdf] writes its output with
    [with open(output_path, "w", encoding="utf-8") as f: json.dump(output, f, ...)].
    The state they act on is a [disk]: the set of directories and the
    bytes of every regular file (paths are absolute strings, the root
    directory always exists).  The calls are modelled with the errors
    Python raises for them:
    - [open(path, "w")] ([open_w]) first resolves the ancestors of
      [path] ([ancestors]: the prefixes that end before a separator)
      from the outermost, as the kernel does ([walk]): the first one
      that is not a directory raises [NotADirectoryError] when it is a
      regular file and [FileNotFoundError] when it does not exist.
      Then [path] itself raises [IsADirectoryError] when it is a
      directory; otherwise the file is created or truncated to no
      bytes;
    - [f.write(chunk)] ([write_chunk]) encodes the chunk in UTF-8
      ([Utf8.utf8_encode]) and appends the bytes; a character without an
      encoding raises [UnicodeEncodeError] before anything of the chunk
      is written.  The text layer buffers the bytes and the [with]
      block's [close] flushes them, also when an exception leaves the
      block, so the file ends with the bytes of every chunk written
      before the error ([write_chunks]).  New lines are written as is
      ([os.linesep] is "\n" on the POSIX system the program runs on);
    - [os.makedirs(path, exist_ok=True)] ([makedirs]) creates [path] and
      its missing ancestors, from the outermost; a regular file on
      the way raises [FileExistsError] when it is [path] itself and
      [NotADirectoryError] (for the next path [mkdir] is called on)
      when it is an ancestor.
    Permissions, symbolic links and disk-full errors are not
    modelled. *)

From S2P Require Import Prelude PyStr Utf8.

(** ** State *)

Record disk := mkDisk { dirs : gset pystr; files : gmap pystr (list N) }.

Inductive os_error :=
| FileNotFound (path : pystr)
| IsADirectory (path : pystr)
| FileExists (path : pystr)
| NotADirectory (path : pystr).

(** The index of the last occurrence of [c]. *)
Fixpoint rfind (c : N) (s : pystr) : option nat :=
  match s with
  | [] => None
  | d :: t =>
      match rfind c t with
      | Some i => Some (S i)
      | None => if (d =? c)%N then Some 0%nat else None
      end
  end.

(** The proper ancestors of a path that end before a separator, from the
    outermost; [cur] is the part already read, reversed. *)
Fixpoint slash_prefixes (cur : pystr) (s : pystr) : list pystr :=
  match s with
  | [] => []
  | c :: t =>
      if (c =? 47)%N && negb (bool_decide (cur = [])) then rev cur :: slash_prefixes (c :: cur) t
      else slash_prefixes (c :: cur) t
  end.

(** The directories the kernel walks through to reach [p], outermost
    first (the root is not listed: it always exists). *)
Definition ancestors (p : pystr) : list pystr := slash_prefixes [] p.

(** The path walk of [open(2)] and [mkdir(2)]: the first ancestor that is
    not a directory raises [NotADirectoryError] when it is a regular
    file and [FileNotFoundError] when it does not exist. *)
Fixpoint walk (d : disk) (path : pystr) (ancs : list pystr) : option os_error :=
  match ancs with
  | [] => None
  | a :: rest =>
      if bool_decide (a ∈ dirs d) then walk d path rest
      else if bool_decide (is_Some (files d !! a)) then Some (NotADirectory path)
      else Some (FileNotFound path)
  end.

(** [open(path, "w", encoding="utf-8")]: the path walk, then
    [IsADirectoryError] on a directory; otherwise the file is created
    or truncated. *)
Definition open_w (path : pystr) (d : disk) : os_error + disk :=
  match walk d path (ancestors path) with
  | Some e => inl e
  | None =>
      if bool_decide (path ∈ dirs d) then inl (IsADirectory path)
      else inr (mkDisk (dirs d) (<[path := []]> (files d)))
  end.

(** [f.write(chunk)]: the chunk's bytes are appended, or the first
    character without an encoding is raised. *)
Definition write_chunk (path chunk : pystr) (d : disk) : N + disk :=
  match utf8_encode chunk with
  | inl c => inl c
  | inr bs => inr (mkDisk (dirs d) (<[path := default [] (files d !! path) ++ bs]> (files d)))
  end.

(** [for chunk in iterable: fp.write(chunk)]: the disk when the loop ends
    or raises, and the character raised, if any. *)
Fixpoint write_chunks (path : pystr) (chunks : list pystr) (d : disk) : disk * option N :=
  match chunks with
  | [] => (d, None)
  | ch :: rest =>
      match write_chunk path ch d with
      | inl c => (d, Some c)
      | inr d' => write_chunks path rest d'
      end
  end.

Definition dir_prefixes (p : pystr) : list pystr := ancestors p ++ [p].

Fixpoint makedirs_go (ps : list pystr) (d : disk) : os_error + disk :=
  match ps with
  | [] => inr d
  | p :: ps' =>
      if bool_decide (is_Some (files d !! p)) then
        match ps' with [] => inl (FileExists p) | q :: _ => inl (NotADirectory q) end
      else makedirs_go ps' (mkDisk ({[p]} ∪ dirs d) (files d))
  end.

(** [os.makedirs(path, exist_ok=True)] *)
Definition makedirs (path : pystr) (d : disk) : os_error + disk := makedirs_go (dir_prefixes path) d.

(** ** Lemmas *)

Lemma slash_prefixes_noslash cur x : ~ In 47%N x -> slash_prefixes cur x = [].
Proof.
  revert cur. induction x as [|c x IH]; intros cur Hx; [reflexivity|]. simpl.
  destruct (N.eqb_spec c 47) as [->|Hc]; [exfalso; apply Hx; left; reflexivity|].
  apply IH. intros H. apply Hx. right. exact H.
Qed.

Lemma slash_prefixes_app cur s t :
  slash_prefixes cur (s ++ t) = slash_prefixes cur s ++ slash_prefixes (rev s ++ cur) t.
Proof.
  revert cur. induction s as [|c s IH]; intros cur; [reflexivity|]. cbn [app slash_prefixes].
  rewrite IH. cbn [rev]. rewrite <- app_assoc. destruct (_ && _); reflexivity.
Qed.

(** The walk passes when every ancestor is a directory, and otherwise
    stops at the first one that is not. *)
Lemma walk_ok d path ancs : Forall (fun a => a ∈ dirs d) ancs -> walk d path ancs = None.
Proof. induction 1 as [|a ancs Ha _ IH]; [reflexivity|]. simpl. rewrite bool_decide_eq_true_2 by exact Ha. exact IH. Qed.

Lemma walk_first d path pre a post :
  Forall (fun x => x ∈ dirs d) pre -> a ∉ dirs d ->
  walk d path (pre ++ a :: post) =
  Some (if bool_decide (is_Some (files d !! a)) then NotADirectory path else FileNotFound path).
Proof.
  induction 1 as [|x pre Hx _ IH]; intros Ha; simpl.
  - rewrite bool_decide_eq_false_2 by exact Ha. destruct (bool_decide _); reflexivity.
  - rewrite bool_decide_eq_true_2 by exact Hx. apply IH, Ha.
Qed.

Lemma open_w_inr path d d1 : open_w path d = inr d1 -> d1 = mkDisk (dirs d) (<[path := []]> (files d)).
Proof.
  unfold open_w. destruct (walk _ _ _); [discriminate|]. destruct (bool_decide _); [discriminate|].
  intros E. injection E as <-. reflexivity.
Qed.

(** Opening a file whose ancestors are directories empties it. *)
Lemma open_w_ok path d :
  Forall (fun a => a ∈ dirs d) (ancestors path) -> path ∉ dirs d ->
  open_w path d = inr (mkDisk (dirs d) (<[path := []]> (files d))).
Proof.
  intros Ha Hn. unfold open_w. rewrite walk_ok by exact Ha. rewrite bool_decide_eq_false_2 by exact Hn. reflexivity.
Qed.

Lemma write_chunks_cons path ch rest d :
  write_chunks path (ch :: rest) d =
  match write_chunk path ch d with inl c => (d, Some c) | inr d' => write_chunks path rest d' end.
Proof. reflexivity. Qed.

(** Writing chunks that all have an encoding appends the encoding of
    their concatenation. *)
Lemma write_chunks_ok path chunks d (pre bs : list N) :
  files d !! path = Some pre -> utf8_encode (concat chunks) = inr bs ->
  write_chunks path chunks d = (mkDisk (dirs d) (<[path := pre ++ bs]> (files d)), None).
Proof.
  revert d pre bs. induction chunks as [|ch chunks IH]; intros d pre bs Hp Hbs.
  - injection Hbs as <-. destruct d as [ds fs]. cbn in *. rewrite app_nil_r, insert_id by exact Hp. reflexivity.
  - cbn [concat] in Hbs. rewrite utf8_encode_app in Hbs.
    destruct (utf8_encode ch) as [c|b] eqn:Eb; [discriminate|].
    destruct (utf8_encode (concat chunks)) as [c|b'] eqn:Eb'; [discriminate|]. injection Hbs as <-.
    rewrite write_chunks_cons. unfold write_chunk. rewrite Eb, Hp. cbn [default from_option id].
    rewrite (IH _ (pre ++ b) b'); [|cbn; apply lookup_insert_eq|reflexivity].
    cbn [dirs files]. rewrite insert_insert_eq, app_assoc. reflexivity.
Qed.

(** When a chunk has no encoding the loop stops there: the file holds the
    bytes of the chunks before it, and its first bad character is
    raised. *)
Lemma write_chunks_error path chunks d (pre : list N) c :
  files d !! path = Some pre -> utf8_encode (concat chunks) = inl c ->
  exists k bs, (k < length chunks)%nat /\ utf8_encode (concat (take k chunks)) = inr bs /\
    (exists ch, chunks !! k = Some ch /\ utf8_encode ch = inl c) /\
    write_chunks path chunks d = (mkDisk (dirs d) (<[path := pre ++ bs]> (files d)), Some c).
Proof.
  revert d pre. induction chunks as [|ch chunks IH]; intros d pre Hp Hc; [discriminate|].
  cbn [concat] in Hc. rewrite utf8_encode_app in Hc. rewrite write_chunks_cons. unfold write_chunk.
  destruct (utf8_encode ch) as [c'|b] eqn:Eb.
  - injection Hc as ->. exists 0%nat, []. split; [simpl; lia|]. split; [reflexivity|].
    split; [exists ch; split; [reflexivity|exact Eb]|]. destruct d as [ds fs]. cbn in *.
    rewrite app_nil_r, insert_id by exact Hp. reflexivity.
  - destruct (utf8_encode (concat chunks)) as [c'|b'] eqn:Eb'; [|discriminate]. injection Hc as ->.
    rewrite Hp. cbn [default from_option id].
    destruct (IH (mkDisk (dirs d) (<[path := pre ++ b]> (files d))) (pre ++ b)
      ltac:(apply lookup_insert_eq) eq_refl) as (k & bs & Hk & Ebs & Hch & Ew).
    exists (S k), (b ++ bs). split; [simpl; lia|]. split.
    + cbn [take concat]. rewrite utf8_encode_app, Eb, Ebs. reflexivity.
    + split; [exact Hch|]. rewrite Ew. cbn [dirs files]. rewrite insert_insert_eq, app_assoc. reflexivity.
Qed.

(** Writing changes only the written file, which stays present. *)
Lemma write_chunks_frame path cs d :
  dirs (write_chunks path cs d).1 = dirs d /\
  (forall k, k <> path -> files (write_chunks path cs d).1 !! k = files d !! k) /\
  (is_Some (files d !! path) -> is_Some (files (write_chunks path cs d).1 !! path)).
Proof.
  revert d. induction cs as [|ch cs IH]; intros d; [auto|]. rewrite write_chunks_cons. unfold write_chunk.
  destruct (utf8_encode ch) as [c|bs]; [auto|]. destruct (IH (mkDisk (dirs d) (<[path := default [] (files d !! path) ++ bs]> (files d))))
    as (Hd & Hk & Hp). cbn [dirs files] in *. split; [exact Hd|split].
  - intros k Hne. rewrite Hk by exact Hne. apply lookup_insert_ne. congruence.
  - intros _. apply Hp. rewrite lookup_insert_eq. eexists. reflexivity.
Qed.

(** [makedirs] adds the listed directories, or fails on a regular file. *)
Lemma makedirs_go_spec ps d :
  (forall p, In p ps -> files d !! p = None) ->
  makedirs_go ps d = inr (mkDisk (list_to_set ps ∪ dirs d) (files d)).
Proof.
  revert d. induction ps as [|p ps IH]; intros d Hf; cbn [makedirs_go].
  - destruct d. cbn. rewrite (left_id_L ∅ union). reflexivity.
  - rewrite bool_decide_eq_false_2 by (rewrite Hf by (left; reflexivity); intros [? ?]; discriminate).
    rewrite IH by (intros q Hq; apply Hf; right; exact Hq). cbn.
    rewrite (assoc_L union), (comm_L union (list_to_set ps) {[p]}). reflexivity.
Qed.
