(* ===== verification/Processor.v ===== *)
(** * Document processor: [process_pdf] (src/main.py 148-167)

    [process_pdf] opens a PDF with pdfplumber, numbers its pages from 1,
    writes [page_num] into every word, groups each page's words into
    lines, then computes the title, the form test and the outline
    ([build_result]).  The text-extraction collaborator (pdfplumber's
    [open] and [extract_words]) is the interface [PdfSource]: a path
    yields the words of every page or an extraction failure (any
    exception it raises), and word texts are Python strings.  The
    extraction comes first; then [open(output_path, "w",
    encoding="utf-8")] ([FileSys.open_w]) truncates the output and
    [json.dump] writes the chunks of [{"title", "outline"}]
    ([Json.iterencode]) one by one ([FileSys.write_chunks]).
    [process_pdf] returns the disk and the exception raised, if any
    ([py_error]): the extraction failure, the [OSError] of [open], or
    the [UnicodeEncodeError] of a write.

    Theorems: the per-page grouping equals grouping the whole document;
    every result meets the output contract (at most 10 entries,
    distinct keys, non-noise, reading order, pages >= 0, empty for
    forms); an empty document gives an empty result; every character
    written is ASCII or a word's; the written bytes decode to JSON text
    that conforms to the contract's schema and reads back as the result,
    other files and the directories unchanged; the error paths (a
    failed extraction writes nothing; a missing ancestor directory, an
    ancestor that is a regular file or a directory at the output path
    raise before anything is written; a lone surrogate leaves in the
    file exactly the bytes of the chunks before the first one that fails
    to encode); the specification's end-to-end scenario. *)

From S2P Require Import Prelude PyStr Utf8 PySort Normalizer Noise Grouper Title Form Headings Json Output FileSys.
From Stdlib Require Import Sorted.

Local Open Scope Q_scope.

(** ** One document *)

(** [w['page_num'] = page_num] *)
Definition set_page_num (n : Z) (w : word) : word :=
  {| w_text := w_text w; w_fontname := w_fontname w; w_size := w_size w;
     w_x0 := w_x0 w; w_x1 := w_x1 w; w_top := w_top w; w_bottom := w_bottom w;
     w_page_num := n |}.

(** [for page_num, page in enumerate(pdf.pages, 1): ... all_lines.extend(extract_lines(words))] *)
Fixpoint collect_lines (page_num : Z) (pages : list (list word)) : list line :=
  match pages with
  | [] => []
  | words :: rest =>
      extract_lines (map (set_page_num page_num) words) 2 ++ collect_lines (page_num + 1) rest
  end.

(** Lines 157-165. *)
Definition build_result (all_lines : list line) : doc_result :=
  let title := merge_multiline_title all_lines in
  let outline := if is_form_pdf all_lines then [] else extract_headings all_lines in
  {| title := title; outline := outline |}.

(** ** The extraction collaborator *)

Inductive extraction_error := ExtractionFailure (path : pystr).

(** pdfplumber's [open] and [extract_words]: the words of every page, or
    a failure.  Word texts are Python strings: code points below
    U+110000. *)
Class PdfSource := {
  pdf_pages : pystr -> extraction_error + list (list word);
  pdf_pages_py : forall p pages, pdf_pages p = inr pages ->
    Forall (fun ws => Forall (fun w => forallb py_char (w_text w) = true) ws) pages
}.

(** The exceptions that leave [process_pdf]. *)
Inductive py_error :=
| Extract (e : extraction_error)
| OSErr (e : os_error)
| UnicodeEncodeError (c : N).

(** [process_pdf(pdf_path, output_path)]: the extraction, then
    [open(output_path, "w", encoding="utf-8")] and [json.dump], which
    writes the chunks of the output dict one by one; the disk after the
    call and the exception it raises, if any. *)
Definition process_pdf `{PdfSource} (pdf_path output_path : pystr) (d : disk) : disk * option py_error :=
  match pdf_pages pdf_path with
  | inl e => (d, Some (Extract e))
  | inr pages =>
      let output := result_json (build_result (collect_lines 1 pages)) in
      match open_w output_path d with
      | inl e => (d, Some (OSErr e))
      | inr d1 =>
          let '(d2, err) := write_chunks output_path (iterencode 0 output) d1 in
          (d2, option_map UnicodeEncodeError err)
      end
  end.

(** Reading an output file back: UTF-8, then JSON, then the result. *)
Definition read_file (bs : list N) : option doc_result := utf8_decode bs ≫= read_output.

(** No word of the document has a surrogate. *)
Definition no_surrogates (pages : list (list word)) : bool :=
  forallb (forallb (fun w => forallb (fun c => negb (is_surrogate c)) (w_text w))) pages.

(** ** Pages *)

(** The words of a document numbered page by page from [n]. *)
Fixpoint number_pages (n : Z) (pages : list (list word)) : list word :=
  match pages with
  | [] => []
  | ws :: rest => map (set_page_num n) ws ++ number_pages (n + 1) rest
  end.

Lemma number_pages_ge n pages w : In w (number_pages n pages) -> (n <= w_page_num w)%Z.
Proof.
  revert n. induction pages as [|ws rest IH]; intros n Hw; simpl in Hw; [destruct Hw|].
  apply in_app_or in Hw as [Hw|Hw].
  - apply in_map_iff in Hw as [w' [<- _]]. simpl. lia.
  - specialize (IH _ Hw). lia.
Qed.

(** Shared form of [collect_lines_whole] for the proofs that build on it. *)
Lemma collect_lines_whole_core n pages :
  collect_lines n pages = extract_lines (number_pages n pages) 2.
Proof.
  revert n. induction pages as [|ws rest IH]; intros n; [reflexivity|].
  cbn [collect_lines number_pages]. rewrite extract_lines_app_core, IH; [reflexivity|].
  intros w1 w2 H1 H2. apply in_map_iff in H1 as [w [<- _]].
  apply number_pages_ge in H2. simpl. lia.
Qed.

(** C18: Grouping each page on its own, as [process_pdf] does, gives the
    lines of the whole numbered document grouped at once. *)
Theorem collect_lines_whole n pages :
  collect_lines n pages = extract_lines (number_pages n pages) 2.
Proof. apply collect_lines_whole_core. Qed.

Lemma collect_lines_pages pages l : In l (collect_lines 1 pages) -> (0 <= l_page l)%Z.
Proof.
  rewrite collect_lines_whole_core. intros Hl.
  destruct (extract_lines_sound_core _ _ _ Hl) as (g & yk & Hne & _ & Hg & _).
  destruct g as [|w g]; [congruence|]. destruct (Hg w (or_introl eq_refl)) as [Hw [Hk _]].
  apply number_pages_ge in Hw. unfold word_key in Hk. injection Hk as Hk _. lia.
Qed.

(** ** Results *)

Lemma extract_headings_pages pages e :
  In e (extract_headings (collect_lines 1 pages)) -> (0 <= e_page e)%Z.
Proof.
  intros He. destruct (extract_headings_from_lines _ e He) as [l [Hl ->]].
  apply (collect_lines_pages pages), Hl.
Qed.

(** The outline of a processed document has at most 10 entries, all on
    pages [>= 0]. *)
Lemma build_result_bounds pages :
  (length (outline (build_result (collect_lines 1 pages))) <= 10)%nat /\
  Forall (fun e => (0 <= e_page e)%Z) (outline (build_result (collect_lines 1 pages))).
Proof.
  unfold build_result. cbn [outline]. destruct (is_form_pdf _); [split; [simpl; lia|constructor]|].
  split; [apply extract_headings_wf_core|]. rewrite Forall_forall. apply extract_headings_pages.
Qed.

(** C4: The output contract of a processed document: at most 10 outline
    entries with distinct [(text, page, level)], none of them noise, all
    normalised, pages [>= 0] and non-decreasing, and no outline at all
    for a form. *)
Theorem build_result_contract pages :
  let r := build_result (collect_lines 1 pages) in
  (length (outline r) <= 10)%nat /\
  List.NoDup (map entry_key (outline r)) /\
  Forall (fun e => is_noisy_heading (e_text e) = false /\ clean_line (e_text e) = e_text e /\
                   (0 <= e_page e)%Z) (outline r) /\
  StronglySorted (fun e1 e2 => (e_page e1 <= e_page e2)%Z) (outline r) /\
  (is_form_pdf (collect_lines 1 pages) = true -> outline r = []).
Proof.
  cbn zeta. unfold build_result. cbn [outline].
  destruct (is_form_pdf (collect_lines 1 pages)).
  - repeat split; try constructor; simpl; lia.
  - destruct (extract_headings_wf_core (collect_lines 1 pages)) as (Hlen & Hnd & Hall).
    split; [exact Hlen|]. split; [exact Hnd|]. split; [|split; [apply extract_headings_reading_order_core|discriminate]].
    rewrite Forall_forall in *. intros e He. destruct (Hall e He) as [Hn Hc].
    split; [exact Hn|]. split; [exact Hc|]. apply (extract_headings_pages pages e He).
Qed.

(** A document whose pages have no words gives [{title: "", outline: []}]. *)
Theorem build_result_empty pages :
  Forall (fun ws => ws = []) pages -> build_result (collect_lines 1 pages) = mkResult [] [].
Proof.
  intros H. assert (E : collect_lines 1 pages = []).
  { rewrite collect_lines_whole_core. enough (number_pages 1 pages = []) as -> by reflexivity.
    generalize 1%Z. induction H as [|ws rest -> _ IH]; intros n; [reflexivity|apply IH]. }
  rewrite E. reflexivity.
Qed.

(** ** Writing the result *)

(** ** Characters of the output *)

Lemma collect_lines_chars (P : N -> Prop) n pages :
  P 32%N -> Forall (fun ws => Forall (fun w => Forall P (w_text w)) ws) pages ->
  forall l, In l (collect_lines n pages) -> Forall P (l_text l).
Proof.
  intros Hsp Hp. revert n. induction Hp as [|ws rest Hws Hrest IH]; intros n l Hl; [destruct Hl|].
  cbn [collect_lines] in Hl. apply in_app_or in Hl as [Hl|Hl]; [|exact (IH _ l Hl)].
  apply (extract_lines_chars P (map (set_page_num n) ws) 2 l Hsp); [|exact Hl]. intros w Hw. apply in_map_iff in Hw as [w' [<- Hw']].
  rewrite Forall_forall in Hws. exact (Hws w' Hw').
Qed.

(** Every character of the JSON text is ASCII or a character of a word. *)
Lemma build_result_chars (P : N -> Prop) pages :
  (forall c, (c < 128)%N -> P c) -> Forall (fun ws => Forall (fun w => Forall P (w_text w)) ws) pages ->
  Forall P (output_text (build_result (collect_lines 1 pages))).
Proof.
  intros Ha Hp. assert (Hsp : P 32%N) by (apply Ha; lia).
  pose proof (collect_lines_chars P 1 pages Hsp Hp) as Hl.
  apply output_text_chars; [exact Ha|apply title_chars; assumption|].
  unfold build_result. cbn [outline]. destruct (is_form_pdf _); [constructor|].
  apply extract_headings_chars; assumption.
Qed.

(** C14: Every character of the JSON text written for a document is ASCII
    or a character of one of its words: the pipeline adds only spaces,
    JSON syntax and escapes. *)
Theorem output_chars_from_words pages c :
  In c (output_text (build_result (collect_lines 1 pages))) ->
  (c < 128)%N \/ exists ws w, In ws pages /\ In w ws /\ In c (w_text w).
Proof.
  intros Hc. revert c Hc. apply Forall_forall, build_result_chars; [intros c Hc; left; exact Hc|].
  apply Forall_forall. intros ws Hws. apply Forall_forall. intros w Hw. apply Forall_forall.
  intros c Hc. right. exists ws, w. auto.
Qed.

Lemma pages_chars (f : N -> bool) pages :
  Forall (fun ws => Forall (fun w => forallb f (w_text w) = true) ws) pages ->
  Forall (fun ws => Forall (fun w => Forall (fun c => f c = true) (w_text w)) ws) pages.
Proof.
  intros H. eapply Forall_impl; [|exact H]. intros ws Hws. eapply Forall_impl; [|exact Hws].
  intros w Hw. apply Forall_forall, forallb_forall, Hw.
Qed.

Lemma ascii_encodable c : (c < 128)%N -> (py_char c && negb (is_surrogate c)) = true.
Proof. intros Hc. unfold py_char, is_surrogate. nsolve. reflexivity. Qed.

Section Doc.
Context `{PdfSource}.

(** The JSON text holds Python code points. *)
Lemma output_py_chars p pages :
  pdf_pages p = inr pages -> forallb py_char (output_text (build_result (collect_lines 1 pages))) = true.
Proof.
  intros Hp. apply forallb_forall, Forall_forall, (build_result_chars (fun c => py_char c = true)).
  - intros c Hc. unfold py_char. nsolve. reflexivity.
  - apply pages_chars, (pdf_pages_py p pages Hp).
Qed.

(** Without a surrogate in the words, the JSON text has an encoding. *)
Lemma output_encodable p pages :
  pdf_pages p = inr pages -> no_surrogates pages = true ->
  encodable (output_text (build_result (collect_lines 1 pages))) = true.
Proof.
  intros Hp Hn. apply forallb_forall, Forall_forall, (build_result_chars (fun c => _ = true)); [exact ascii_encodable|].
  pose proof (pdf_pages_py p pages Hp) as Hpy. unfold no_surrogates in Hn.
  rewrite forallb_forall in Hn. rewrite Forall_forall in *. intros ws Hws.
  specialize (Hpy ws Hws). specialize (Hn ws Hws). rewrite forallb_forall in Hn. rewrite Forall_forall in *.
  intros w Hw. specialize (Hpy w Hw). specialize (Hn w Hw). rewrite forallb_forall in Hpy, Hn.
  rewrite Forall_forall. intros c Hc. rewrite (Hpy c Hc), (Hn c Hc). reflexivity.
Qed.

Lemma process_pdf_opened p o d pages d1 :
  pdf_pages p = inr pages -> open_w o d = inr d1 ->
  process_pdf p o d =
  let '(d2, err) := write_chunks o (iterencode 0 (result_json (build_result (collect_lines 1 pages)))) d1 in
  (d2, option_map UnicodeEncodeError err).
Proof. intros Hp Ho. unfold process_pdf. rewrite Hp, Ho. reflexivity. Qed.

(** When the JSON text has an encoding, the file holds exactly its
    bytes. *)
Lemma process_pdf_encoded p o d pages d1 bs :
  pdf_pages p = inr pages -> open_w o d = inr d1 ->
  utf8_encode (output_text (build_result (collect_lines 1 pages))) = inr bs ->
  process_pdf p o d = (mkDisk (dirs d) (<[o := bs]> (files d)), None).
Proof.
  intros Hp Ho Hb. rewrite (process_pdf_opened p o d pages d1 Hp Ho). apply open_w_inr in Ho as ->.
  rewrite (write_chunks_ok o _ _ [] bs); [|apply lookup_insert_eq|rewrite iterencode_dump_core; exact Hb].
  cbn. rewrite insert_insert_eq. reflexivity.
Qed.

(** When it has none, the loop stops at the first chunk without an
    encoding: the file holds the bytes of the chunks before it. *)
Lemma process_pdf_partial p o d pages d1 c :
  pdf_pages p = inr pages -> open_w o d = inr d1 ->
  utf8_encode (output_text (build_result (collect_lines 1 pages))) = inl c ->
  exists k bs,
    utf8_encode (concat (take k (iterencode 0 (result_json (build_result (collect_lines 1 pages)))))) = inr bs /\
    (exists ch, iterencode 0 (result_json (build_result (collect_lines 1 pages))) !! k = Some ch /\
                utf8_encode ch = inl c) /\
    process_pdf p o d = (mkDisk (dirs d) (<[o := bs]> (files d)), Some (UnicodeEncodeError c)).
Proof.
  intros Hp Ho Hc. rewrite (process_pdf_opened p o d pages d1 Hp Ho). apply open_w_inr in Ho as ->.
  set (cs := iterencode 0 _).
  assert (Hcs : concat cs = output_text (build_result (collect_lines 1 pages))) by apply iterencode_dump_core.
  destruct (write_chunks_error o cs (mkDisk (dirs d) (<[o := []]> (files d))) [] c (lookup_insert_eq _ _ _)
    ltac:(rewrite Hcs; exact Hc)) as (k & bs & _ & Ebs & Hch & ->).
  exists k, bs. split; [exact Ebs|]. split; [exact Hch|]. cbn. rewrite insert_insert_eq. reflexivity.
Qed.

(** A successful [process_pdf] replaces exactly the output file by the
    bytes of the JSON text. *)
Lemma process_pdf_ok p o d d' :
  process_pdf p o d = (d', None) ->
  exists pages bs, pdf_pages p = inr pages /\
    utf8_encode (output_text (build_result (collect_lines 1 pages))) = inr bs /\
    d' = mkDisk (dirs d) (<[o := bs]> (files d)).
Proof.
  intros E. destruct (pdf_pages p) as [e|pages] eqn:Hp; [unfold process_pdf in E; rewrite Hp in E; discriminate|].
  destruct (open_w o d) as [e|d1] eqn:Ho; [unfold process_pdf in E; rewrite Hp, Ho in E; discriminate|].
  destruct (utf8_encode (output_text (build_result (collect_lines 1 pages)))) as [c|bs] eqn:Hb.
  - destruct (process_pdf_partial p o d pages d1 c Hp Ho Hb) as (k & b & _ & _ & E'). congruence.
  - rewrite (process_pdf_encoded p o d pages d1 bs Hp Ho Hb) in E. injection E as <-.
    exists pages, bs. split; [reflexivity|split; [exact Hb|reflexivity]].
Qed.

(** [process_pdf] changes only the output file, which is present after
    it when it was before or when no exception is raised; an extraction
    error comes from the source. *)
Lemma process_pdf_frame p o d :
  dirs (process_pdf p o d).1 = dirs d /\
  (forall k, k <> o -> files (process_pdf p o d).1 !! k = files d !! k) /\
  ((process_pdf p o d).2 = None \/ is_Some (files d !! o) -> is_Some (files (process_pdf p o d).1 !! o)) /\
  (forall e, (process_pdf p o d).2 = Some (Extract e) -> pdf_pages p = inl e).
Proof.
  unfold process_pdf. destruct (pdf_pages p) as [e|pages].
  { cbn. split; [|split; [|split]]; [reflexivity|reflexivity|intros [?|?]; [discriminate|assumption]|congruence]. }
  destruct (open_w o d) as [e|d1] eqn:Ho.
  { cbn. split; [|split; [|split]]; [reflexivity|reflexivity|intros [?|?]; [discriminate|assumption]|congruence]. }
  apply open_w_inr in Ho as ->. destruct (write_chunks_frame o (iterencode 0 (result_json (build_result (collect_lines 1 pages))))
    (mkDisk (dirs d) (<[o := []]> (files d)))) as (Hd & Hk & Hp).
  destruct (write_chunks _ _ _) as [d2 err]. cbn [fst snd dirs files] in *. split; [exact Hd|split; [|split]].
  - intros k Hne. rewrite Hk by exact Hne. apply lookup_insert_ne. congruence.
  - intros _. apply Hp. rewrite lookup_insert_eq. eexists. reflexivity.
  - intros e He. destruct err; discriminate.
Qed.

Lemma process_pdf_extract p o d e : pdf_pages p = inl e -> process_pdf p o d = (d, Some (Extract e)).
Proof. unfold process_pdf. intros ->. reflexivity. Qed.
(** C9: [process_pdf] writes, at the output path, bytes that read back
    (UTF-8, then JSON) as the document's result, and leaves every other
    file and the directories unchanged, when no word of the document
    has a surrogate, every ancestor of the output path is a directory
    and the path itself is not one. *)
Theorem process_pdf_writes p o d pages :
  pdf_pages p = inr pages -> no_surrogates pages = true ->
  Forall (fun a => a ∈ dirs d) (ancestors o) -> o ∉ dirs d ->
  exists d', process_pdf p o d = (d', None) /\ dirs d' = dirs d /\
    (files d' !! o ≫= read_file) = Some (build_result (collect_lines 1 pages)) /\
    (forall o', o' <> o -> files d' !! o' = files d !! o').
Proof.
  intros Hp Hn Ha Hd. destruct (utf8_roundtrip_core _ (output_encodable p pages Hp Hn)) as (bs & Eb & Db).
  eexists. split; [exact (process_pdf_encoded p o d pages _ bs Hp (open_w_ok o d Ha Hd) Eb)|].
  cbn [dirs files]. split; [reflexivity|]. split.
  - rewrite lookup_insert_eq. unfold read_file. cbn [mbind option_bind]. rewrite Db. apply output_roundtrip.
  - intros o' Hne. apply lookup_insert_ne. congruence.
Qed.

(** C5: When [process_pdf] returns normally, the file it wrote is UTF-8
    text of JSON whose value meets the specification's output
    contract. *)
Theorem written_output_conforms p o d d' :
  process_pdf p o d = (d', None) ->
  exists bs txt j, files d' !! o = Some bs /\ utf8_decode bs = Some txt /\ json_loads txt = Some j /\
    conforms output_schema j = true.
Proof.
  intros Hw. destruct (process_pdf_ok p o d d' Hw) as (pages & bs & Hp & Eb & ->). cbn [files].
  eexists _, _, _. split; [apply lookup_insert_eq|]. split; [exact (utf8_encode_decode _ _ (output_py_chars p pages Hp) Eb)|].
  split; [apply json_roundtrip_core|]. apply result_json_conforms; apply build_result_bounds.
Qed.

(** C12: The error paths before the write.  A failed extraction is
    raised before the output is opened.  [open] walks the ancestors of
    the output path from the outermost: the first one that is not a
    directory raises [FileNotFoundError] when it does not exist and
    [NotADirectoryError] when it is a regular file; when the walk
    passes, a directory at the output path raises [IsADirectoryError].
    The disk is unchanged in all four. *)
Theorem process_pdf_errors p o d :
  (forall e, pdf_pages p = inl e -> process_pdf p o d = (d, Some (Extract e))) /\
  (forall pages pre a post, pdf_pages p = inr pages -> ancestors o = pre ++ a :: post ->
     Forall (fun x => x ∈ dirs d) pre -> a ∉ dirs d -> files d !! a = None ->
     process_pdf p o d = (d, Some (OSErr (FileNotFound o)))) /\
  (forall pages pre a post, pdf_pages p = inr pages -> ancestors o = pre ++ a :: post ->
     Forall (fun x => x ∈ dirs d) pre -> a ∉ dirs d -> is_Some (files d !! a) ->
     process_pdf p o d = (d, Some (OSErr (NotADirectory o)))) /\
  (forall pages, pdf_pages p = inr pages -> Forall (fun x => x ∈ dirs d) (ancestors o) -> o ∈ dirs d ->
     process_pdf p o d = (d, Some (OSErr (IsADirectory o)))).
Proof.
  split; [exact (process_pdf_extract p o d)|]. unfold process_pdf, open_w. split; [|split].
  - intros pages pre a post Hp Ha Hpre Hd Hf. rewrite Hp, Ha, walk_first by assumption.
    rewrite bool_decide_eq_false_2 by (rewrite Hf; intros [? ?]; discriminate). reflexivity.
  - intros pages pre a post Hp Ha Hpre Hd Hf. rewrite Hp, Ha, walk_first by assumption.
    rewrite bool_decide_eq_true_2 by exact Hf. reflexivity.
  - intros pages Hp Ha Hi. rewrite Hp, walk_ok, bool_decide_eq_true_2 by assumption. reflexivity.
Qed.

(** C13: A character without a UTF-8 encoding in the JSON text (a lone
    surrogate) raises [UnicodeEncodeError] after the output file was
    opened and truncated.  The file is left holding exactly the bytes of
    the chunks [json.dump] wrote before the first chunk that has no
    encoding, and that chunk holds the character raised. *)
Theorem process_pdf_partial_write p o d pages c :
  pdf_pages p = inr pages -> Forall (fun a => a ∈ dirs d) (ancestors o) -> o ∉ dirs d ->
  utf8_encode (output_text (build_result (collect_lines 1 pages))) = inl c ->
  exists k bs,
    utf8_encode (concat (take k (iterencode 0 (result_json (build_result (collect_lines 1 pages)))))) = inr bs /\
    (exists ch, iterencode 0 (result_json (build_result (collect_lines 1 pages))) !! k = Some ch /\
                utf8_encode ch = inl c) /\
    process_pdf p o d = (mkDisk (dirs d) (<[o := bs]> (files d)), Some (UnicodeEncodeError c)).
Proof. intros Hp Ha Hd Hc. exact (process_pdf_partial p o d pages _ c Hp (open_w_ok o d Ha Hd) Hc). Qed.
End Doc.

(** ** The specification's end-to-end scenario *)

Definition scenario_pages : list (list word) :=
  [ [mkWord (str "Introduction") (str "Times-Bold") 20 72 200 200 220 0];
    [mkWord (str "Methods") (str "Times-Bold") 20 72 160 100 120 0;
     mkWord (str "Results") (str "Times-Bold") 20 72 150 400 420 0] ].

(** Three H1 lines, "Introduction" on page 0 and "Methods", "Results" on
    page 1, below the banner region and on a page that is not a form,
    give the outline of the specification and an empty title. *)
Example end_to_end_outline :
  build_result (collect_lines 1 scenario_pages) =
  mkResult [] [mkEntry H1 (str "Introduction") 0; mkEntry H1 (str "Methods") 1;
               mkEntry H1 (str "Results") 1].
Proof. vm_compute. reflexivity. Qed.

(** ** Witnesses *)

(** A page whose only word, in the banner region, holds the lone
    surrogate U+D800. *)
Definition odd_pages : list (list word) :=
  [[mkWord [65; 55296; 66; 67; 68]%N (str "Times-Bold") 20 72 200 50 70 0]].

(** A source where "/app/input/bad.pdf" cannot be read,
    "/app/input/odd.pdf" is [odd_pages] and every other file is the
    scenario document. *)
Definition demo_pages (p : pystr) : extraction_error + list (list word) :=
  if bool_decide (p = str "/app/input/bad.pdf") then inl (ExtractionFailure p)
  else if bool_decide (p = str "/app/input/odd.pdf") then inr odd_pages
  else inr scenario_pages.

Lemma demo_pages_py p pages :
  demo_pages p = inr pages -> Forall (fun ws => Forall (fun w => forallb py_char (w_text w) = true) ws) pages.
Proof.
  unfold demo_pages. destruct (bool_decide _); [discriminate|].
  destruct (bool_decide _); intros E; injection E as <-; repeat constructor.
Qed.

Definition demo_source : PdfSource := {| pdf_pages := demo_pages; pdf_pages_py := demo_pages_py |}.

(** A disk with the output directory and no file. *)
Definition demo_disk : disk := mkDisk {[str "/app"; str "/app/output"]} ∅.

Lemma build_result_empty_witness : build_result (collect_lines 1 [[]; []]) = mkResult [] [].
Proof. apply build_result_empty. repeat constructor. Defined.

(** Decide a closed proposition by evaluation. *)
Ltac decide_closed := refine (bool_decide_unpack _ _); vm_compute; exact I.

Lemma process_pdf_writes_witness :
  exists d', @process_pdf demo_source (str "/app/input/a.pdf") (str "/app/output/a.json") demo_disk = (d', None) /\
    dirs d' = dirs demo_disk /\
    (files d' !! str "/app/output/a.json" ≫= read_file) = Some (build_result (collect_lines 1 scenario_pages)) /\
    (forall o', o' <> str "/app/output/a.json" -> files d' !! o' = files demo_disk !! o').
Proof.
  apply (@process_pdf_writes demo_source) with (pages := scenario_pages);
    [reflexivity|reflexivity|decide_closed|decide_closed].
Defined.

Lemma written_output_conforms_witness :
  exists bs txt j,
    files (@process_pdf demo_source (str "/app/input/a.pdf") (str "/app/output/a.json") demo_disk).1
      !! str "/app/output/a.json" = Some bs /\
    utf8_decode bs = Some txt /\ json_loads txt = Some j /\ conforms output_schema j = true.
Proof.
  apply (@written_output_conforms demo_source (str "/app/input/a.pdf") (str "/app/output/a.json") demo_disk).
  vm_compute. reflexivity.
Defined.

(** A disk where "/app/output" is a regular file. *)
Definition file_disk : disk := mkDisk {[str "/app"]} {[str "/app/output" := []]}.

Lemma process_pdf_errors_witness :
  @process_pdf demo_source (str "/app/input/bad.pdf") (str "/app/output/bad.json") demo_disk =
    (demo_disk, Some (Extract (ExtractionFailure (str "/app/input/bad.pdf")))) /\
  @process_pdf demo_source (str "/app/input/a.pdf") (str "/tmp/a.json") demo_disk =
    (demo_disk, Some (OSErr (FileNotFound (str "/tmp/a.json")))) /\
  @process_pdf demo_source (str "/app/input/a.pdf") (str "/app/output/a.json") file_disk =
    (file_disk, Some (OSErr (NotADirectory (str "/app/output/a.json")))) /\
  @process_pdf demo_source (str "/app/input/a.pdf") (str "/app/output") demo_disk =
    (demo_disk, Some (OSErr (IsADirectory (str "/app/output")))).
Proof.
  split; [|split; [|split]].
  - apply (@process_pdf_errors demo_source). reflexivity.
  - apply (proj1 (proj2 (@process_pdf_errors demo_source _ _ _))) with scenario_pages [] (str "/tmp") [];
      [reflexivity|reflexivity|constructor|decide_closed|reflexivity].
  - apply (proj1 (proj2 (proj2 (@process_pdf_errors demo_source _ _ _)))) with scenario_pages [str "/app"] (str "/app/output") [];
      [reflexivity|reflexivity|decide_closed|decide_closed|decide_closed].
  - apply (proj2 (proj2 (proj2 (@process_pdf_errors demo_source _ _ _)))) with scenario_pages;
      [reflexivity|decide_closed|decide_closed].
Defined.

Lemma process_pdf_partial_write_witness :
  exists k bs,
    utf8_encode (concat (take k (iterencode 0 (result_json (build_result (collect_lines 1 odd_pages)))))) = inr bs /\
    (exists ch, iterencode 0 (result_json (build_result (collect_lines 1 odd_pages))) !! k = Some ch /\
                utf8_encode ch = inl 55296%N) /\
    @process_pdf demo_source (str "/app/input/odd.pdf") (str "/app/output/odd.json") demo_disk =
    (mkDisk (dirs demo_disk) (<[str "/app/output/odd.json" := bs]> (files demo_disk)), Some (UnicodeEncodeError 55296)).
Proof.
  apply (@process_pdf_partial_write demo_source); [reflexivity|decide_closed|decide_closed|].
  vm_compute. reflexivity.
Defined.

Lemma output_chars_from_words_witness :
  In 55296%N (output_text (build_result (collect_lines 1 odd_pages))) /\
  ((55296 < 128)%N \/ exists ws w, In ws odd_pages /\ In w ws /\ In 55296%N (w_text w)).
Proof.
  assert (H : In 55296%N (output_text (build_result (collect_lines 1 odd_pages)))).
  { vm_compute. repeat (first [left; reflexivity | right]). }
  split; [exact H|]. exact (output_chars_from_words odd_pages 55296%N H).
Defined.
