(* ===== verification/Batch.v ===== *)
(** * Batch driver: [main] (src/main.py 169-175)

    [main] creates the output directory ([os.makedirs(OUTPUT_DIR,
    exist_ok=True)]), lists [INPUT_DIR] (an arbitrary order, so the
    listing is an input), keeps the names whose lower case ends in
    [.pdf], and calls [process_pdf] on each with the output path
    [OUTPUT_DIR/<stem>.json].  There is no exception handler: the first
    exception ends [main], so the remaining files are not processed.
    [main_loop] is the [for] loop; its state is the [disk] of
    [FileSys.v], and it returns the exception that stopped it, if any
    (an extraction failure, an [OSError] or a [UnicodeEncodeError]).

    Theorems: the batch keeps an invariant of the disk (directories
    unchanged, every file from before or from a listed input, all
    inputs written when no exception is raised, an extraction error is
    a listed input's failure); once the output directory exists
    together with "/app" ([out_ready]), [open] never fails, so after
    [makedirs] the only exceptions are extraction or encoding failures;
    a failure stops the batch; two inputs with the same output path
    overwrite each other, as "<stem>.pdf" and "<stem>.PDF" do for every
    non-empty stem; [makedirs] raises when the output
    directory is a regular file; end to end, when every input can be
    read, has no surrogate in its words and the output names are
    distinct, [main] raises nothing and every output file reads back as
    its input's result. *)

From S2P Require Import Prelude PyStr Utf8 PySort Normalizer Noise Grouper Title Form Headings Json Output FileSys Processor.

(** ** Paths *)

(** [PurePath(name).stem] for a name without separators. *)
Definition path_stem (name : pystr) : pystr :=
  match rfind 46%N name with
  | Some i => if (0 <? i)%nat && (i <? length name - 1)%nat then take i name else name
  | None => name
  end.

(** [os.path.join(OUTPUT_DIR, x)] *)
Definition output_dir : pystr := str "/app/output".
Definition path_join (a x : pystr) : pystr :=
  match x with 47%N :: _ => x | _ => a ++ [47%N] ++ x end.

Definition output_path (fname : pystr) : pystr :=
  path_join output_dir (path_stem fname ++ str ".json").

Definition ends_with (suffix s : pystr) : bool := is_prefix (rev suffix) (rev s).

Definition is_pdf_name (f : pystr) : bool := ends_with (str ".pdf") (py_lower f).

Definition input_dir : pystr := str "/app/input".

(** The [for fname in pdfs] loop: an exception ends the batch. *)
Fixpoint main_loop `{PdfSource} (files : list pystr) (d : disk) : disk * option py_error :=
  match files with
  | [] => (d, None)
  | fname :: rest =>
      match process_pdf (path_join input_dir fname) (output_path fname) d with
      | (d', Some e) => (d', Some e)
      | (d', None) => main_loop rest d'
      end
  end.

(** [main]: [os.makedirs(OUTPUT_DIR, exist_ok=True)], then the loop. *)
Definition main `{PdfSource} (listing : list pystr) (d : disk) : disk * option py_error :=
  match makedirs output_dir d with
  | inl e => (d, Some (OSErr e))
  | inr d' => main_loop (List.filter is_pdf_name listing) d'
  end.

(** ** The disk during the batch *)

(** The exception a run ended with, if any, is not an [OSError]. *)
Definition no_os_error (r : option py_error) : bool :=
  match r with Some (OSErr _) => false | _ => true end.

(** The output directory exists and has no subdirectory an output path
    could name. *)
Definition out_ready (d : disk) : Prop :=
  str "/app" ∈ dirs d /\ output_dir ∈ dirs d /\
  forall x, ~ In 47%N x -> output_dir ++ 47%N :: x ∉ dirs d.

Lemma path_stem_chars name c : In c (path_stem name) -> In c name.
Proof. unfold path_stem. destruct (rfind _ _); [destruct (_ && _); [apply In_take|]|]; auto. Qed.

(** For a listed name (no separator) the output path is a file directly
    inside the output directory. *)
Lemma output_path_sep fname :
  ~ In 47%N fname -> exists x, output_path fname = output_dir ++ 47%N :: x /\ ~ In 47%N x.
Proof.
  intros Hf. exists (path_stem fname ++ str ".json").
  assert (Hx : ~ In 47%N (path_stem fname ++ str ".json")).
  { intros H. apply in_app_or in H as [H|H]; [apply Hf, (path_stem_chars _ _ H)|].
    simpl in H. decompose sum H; discriminate || contradiction. }
  split; [|exact Hx]. unfold output_path, path_join.
  destruct (path_stem fname ++ str ".json") as [|c t] eqn:E; [reflexivity|].
  destruct (N.eqb_spec c 47) as [->|Hc]; [exfalso; apply Hx; left; reflexivity|].
  destruct c as [|[p|p|]]; try reflexivity.
  repeat (destruct p as [p|p|]; try reflexivity). all: contradiction.
Qed.

(** The directories the kernel walks to reach a file of the output
    directory. *)
Lemma ancestors_output_child x : ~ In 47%N x -> ancestors (output_dir ++ 47%N :: x) = [str "/app"; output_dir].
Proof.
  intros Hx. unfold ancestors. rewrite slash_prefixes_app.
  change (47%N :: x) with ([47%N] ++ x). rewrite slash_prefixes_app, (slash_prefixes_noslash _ x) by exact Hx.
  reflexivity.
Qed.

Section Batch.
Context `{PdfSource}.

Lemma main_loop_cons g files d :
  main_loop (g :: files) d =
  match process_pdf (path_join input_dir g) (output_path g) d with
  | (d', Some e) => (d', Some e)
  | (d', None) => main_loop files d'
  end.
Proof. reflexivity. Qed.

(** Once the output directory exists, [open] succeeds on a listed
    file's output path. *)
Lemma ready_open f d :
  out_ready d -> ~ In 47%N f -> open_w (output_path f) d = inr (mkDisk (dirs d) (<[output_path f := []]> (files d))).
Proof.
  intros (Ha & Hd & Hsub) Hf. destruct (output_path_sep f Hf) as [x [Ho Hx]]. rewrite Ho. apply open_w_ok.
  - rewrite ancestors_output_child by exact Hx. repeat constructor; assumption.
  - apply Hsub, Hx.
Qed.

(** ... and a document whose JSON text has an encoding is written. *)
Lemma process_ready f d pages bs :
  out_ready d -> ~ In 47%N f -> pdf_pages (path_join input_dir f) = inr pages ->
  utf8_encode (output_text (build_result (collect_lines 1 pages))) = inr bs ->
  process_pdf (path_join input_dir f) (output_path f) d = (mkDisk (dirs d) (<[output_path f := bs]> (files d)), None).
Proof. intros Hr Hf Hp Hb. exact (process_pdf_encoded _ _ d pages _ bs Hp (ready_open f d Hr Hf) Hb). Qed.

Lemma main_loop_step g fs d d' :
  process_pdf (path_join input_dir g) (output_path g) d = (d', None) -> main_loop (g :: fs) d = main_loop fs d'.
Proof. intros E. rewrite main_loop_cons, E. reflexivity. Qed.

(** The effect of one step of the loop on the disk. *)
Lemma main_loop_cons_frame g fs d :
  let r := process_pdf (path_join input_dir g) (output_path g) d in
  main_loop (g :: fs) d = match r.2 with Some e => (r.1, Some e) | None => main_loop fs r.1 end.
Proof. rewrite main_loop_cons. destruct (process_pdf _ _ d) as [d' [e|]]; reflexivity. Qed.

(** Files are only ever added or replaced, never removed, and the
    directories do not change. *)
Lemma main_loop_mono fs d k :
  dirs (main_loop fs d).1 = dirs d /\
  (is_Some (files d !! k) -> is_Some (files (main_loop fs d).1 !! k)).
Proof.
  revert d. induction fs as [|g fs IH]; intros d; [auto|]. rewrite main_loop_cons_frame.
  destruct (process_pdf_frame (path_join input_dir g) (output_path g) d) as (Hd & Hk & Ho & _).
  set (r := process_pdf _ _ d) in *.
  assert (Hs : is_Some (files d !! k) -> is_Some (files r.1 !! k)).
  { intros Hs. destruct (decide (k = output_path g)) as [->|Hne]; [apply Ho; right; exact Hs|rewrite Hk; assumption]. }
  destruct r.2; [split; assumption|]. destruct (IH r.1) as [Hd' Hk']. split; [congruence|auto].
Qed.

(** C10: The batch's state invariant: the directories are unchanged;
    every file was there before or is the output of a listed input; when
    no exception is raised every input has its output; an extraction
    error is the failure of a listed input. *)
Theorem main_loop_invariant fs d :
  dirs (main_loop fs d).1 = dirs d /\
  (forall k, is_Some (files (main_loop fs d).1 !! k) ->
     is_Some (files d !! k) \/ exists f, In f fs /\ k = output_path f) /\
  ((main_loop fs d).2 = None -> forall f, In f fs -> is_Some (files (main_loop fs d).1 !! output_path f)) /\
  (forall e, (main_loop fs d).2 = Some (Extract e) ->
     exists f, In f fs /\ pdf_pages (path_join input_dir f) = inl e).
Proof.
  revert d. induction fs as [|g fs IH]; intros d.
  { split; [reflexivity|]. split; [auto|]. split; [intros _ f []|discriminate]. }
  rewrite main_loop_cons_frame.
  destruct (process_pdf_frame (path_join input_dir g) (output_path g) d) as (Hd & Hk & Ho & Hx).
  set (r := process_pdf _ _ d) in *.
  assert (Hfile : forall k, is_Some (files r.1 !! k) -> is_Some (files d !! k) \/ exists f, In f (g :: fs) /\ k = output_path f).
  { intros k Hs. destruct (decide (k = output_path g)) as [->|Hne]; [right; exists g; split; [left|]; auto|].
    left. rewrite Hk in Hs by exact Hne. exact Hs. }
  destruct r.2 as [e|] eqn:Er.
  - cbn [fst snd]. split; [exact Hd|]. split; [exact Hfile|]. split; [discriminate|].
    intros e' He. injection He as ->. exists g. split; [left; reflexivity|]. apply Hx. reflexivity.
  - destruct (IH r.1) as (Hd' & Hk' & Hall & Herr). split; [congruence|split; [|split]].
    + intros k Hs. destruct (Hk' k Hs) as [Hs'|[f [Hf ->]]]; [exact (Hfile k Hs')|right; exists f; split; [right|]; auto].
    + intros Hn f [<-|Hf]; [|apply Hall; assumption]. apply main_loop_mono, Ho. left. reflexivity.
    + intros e He. destruct (Herr e He) as [f [Hf Hfe]]. exists f. split; [right|]; assumption.
Qed.

Lemma out_ready_write d o t : out_ready d -> out_ready (mkDisk (dirs d) (<[o := t]> (files d))).
Proof. intros Hr. exact Hr. Qed.

(** A ready disk stays ready along the batch. *)
Lemma main_loop_ready fs d : out_ready d -> out_ready (main_loop fs d).1.
Proof. unfold out_ready. rewrite (proj1 (main_loop_mono fs d [])). auto. Qed.

(** On a ready disk the loop never raises an [OSError]. *)
Lemma main_loop_no_os fs d :
  out_ready d -> Forall (fun f => ~ In 47%N f) fs -> no_os_error (main_loop fs d).2 = true.
Proof.
  intros Hr Hfs. revert d Hr. induction Hfs as [|g fs Hg Hfs IH]; intros d Hr; [reflexivity|].
  rewrite main_loop_cons. destruct (pdf_pages (path_join input_dir g)) as [e'|pages] eqn:Hp.
  - rewrite (process_pdf_extract _ (output_path g) d e' Hp). reflexivity.
  - destruct (utf8_encode (output_text (build_result (collect_lines 1 pages)))) as [c|bs] eqn:Hb.
    + destruct (process_pdf_partial _ _ d pages _ c Hp (ready_open g d Hr Hg) Hb) as (k & b & _ & _ & ->).
      reflexivity.
    + rewrite (process_ready g d pages bs Hr Hg Hp Hb). apply IH, out_ready_write, Hr.
Qed.

(** C26: A failing document stops the batch: the disk keeps what the
    files before it wrote, nothing is written for the failing file or for
    any file after it, and its extraction error is raised. *)
Theorem main_loop_failure fs1 f fs2 d e :
  out_ready d -> Forall (fun g => ~ In 47%N g) (fs1 ++ [f]) ->
  (forall g, In g fs1 -> exists pages bs, pdf_pages (path_join input_dir g) = inr pages /\
     utf8_encode (output_text (build_result (collect_lines 1 pages))) = inr bs) ->
  pdf_pages (path_join input_dir f) = inl e ->
  main_loop (fs1 ++ f :: fs2) d = ((main_loop fs1 d).1, Some (Extract e)).
Proof.
  revert d. induction fs1 as [|g fs1 IH]; intros d Hr Hfs Hok Hf; cbn [app].
  - rewrite main_loop_cons, (process_pdf_extract _ _ d e Hf). reflexivity.
  - inversion Hfs as [|? ? Hg Hfs']; subst. destruct (Hok g (or_introl eq_refl)) as (pages & bs & Hp & Hb).
    rewrite !(main_loop_step _ _ _ _ (process_ready g d pages bs Hr Hg Hp Hb)).
    apply IH; [apply out_ready_write, Hr|exact Hfs'|intros g' Hg'; apply Hok; right; exact Hg'|exact Hf].
Qed.

(** C31: Two inputs with the same output path: the second result replaces
    the first. *)
Theorem main_loop_overwrite f1 f2 p1 p2 b1 b2 d :
  out_ready d -> ~ In 47%N f1 -> ~ In 47%N f2 -> output_path f1 = output_path f2 ->
  pdf_pages (path_join input_dir f1) = inr p1 ->
  pdf_pages (path_join input_dir f2) = inr p2 ->
  utf8_encode (output_text (build_result (collect_lines 1 p1))) = inr b1 ->
  utf8_encode (output_text (build_result (collect_lines 1 p2))) = inr b2 ->
  main_loop [f1; f2] d = (mkDisk (dirs d) (<[output_path f2 := b2]> (files d)), None).
Proof.
  intros Hr H1 H2 E P1 P2 B1 B2. rewrite (main_loop_step _ _ _ _ (process_ready f1 d p1 b1 Hr H1 P1 B1)).
  rewrite (main_loop_step _ _ _ _ (process_ready f2 _ p2 b2 (out_ready_write _ _ _ Hr) H2 P2 B2)).
  cbn [main_loop dirs files]. rewrite E, insert_insert_eq. reflexivity.
Qed.

(** A file that is no listed input's output keeps its bytes. *)
Lemma main_loop_other fs d k :
  ~ In k (map output_path fs) -> files (main_loop fs d).1 !! k = files d !! k.
Proof.
  revert d. induction fs as [|g fs IH]; intros d Hk; [reflexivity|]. rewrite main_loop_cons_frame.
  destruct (process_pdf_frame (path_join input_dir g) (output_path g) d) as (_ & Hf & _ & _).
  assert (E : files (process_pdf (path_join input_dir g) (output_path g) d).1 !! k = files d !! k)
    by (apply Hf; intros Heq; apply Hk; left; symmetry; exact Heq).
  destruct (process_pdf _ _ d).2; [exact E|]. rewrite IH by (intros Hin; apply Hk; right; exact Hin). exact E.
Qed.

(** On a ready disk, when every input can be read, has no surrogate in
    its words, and the output names are distinct, the loop ends without
    exception and every output file reads back as its input's result. *)
Lemma main_loop_all fs d :
  out_ready d -> Forall (fun f => ~ In 47%N f) fs ->
  (forall f, In f fs -> exists pages, pdf_pages (path_join input_dir f) = inr pages /\ no_surrogates pages = true) ->
  NoDup (map output_path fs) ->
  (main_loop fs d).2 = None /\
  forall f pages, In f fs -> pdf_pages (path_join input_dir f) = inr pages ->
    (files (main_loop fs d).1 !! output_path f ≫= read_file) = Some (build_result (collect_lines 1 pages)).
Proof.
  intros Hr Hfs. revert d Hr. induction Hfs as [|g fs Hg Hfs IH]; intros d Hr Hok Hnd.
  { split; [reflexivity|intros f pages []]. }
  destruct (Hok g (or_introl eq_refl)) as (pg & Hp & Hn). inversion Hnd as [|? ? Hnin Hnd']; subst.
  destruct (utf8_roundtrip_core _ (output_encodable _ pg Hp Hn)) as (bs & Eb & Db).
  rewrite (main_loop_step _ _ _ _ (process_ready g d pg bs Hr Hg Hp Eb)).
  destruct (IH _ (out_ready_write d (output_path g) bs Hr) (fun f Hf => Hok f (or_intror Hf)) Hnd') as [Hnone Hall].
  split; [exact Hnone|]. intros f pages [<-|Hf] Hf'; [|exact (Hall f pages Hf Hf')].
  rewrite Hf' in Hp. injection Hp as <-.
  rewrite main_loop_other by (rewrite <- list_elem_of_In; exact Hnin). cbn [files]. rewrite lookup_insert_eq.
  unfold read_file. cbn [mbind option_bind]. rewrite Db. apply output_roundtrip.
Qed.
End Batch.

(** ** [main] *)

Lemma dir_prefixes_output_dir : dir_prefixes output_dir = [str "/app"; output_dir].
Proof. reflexivity. Qed.

Lemma output_dir_child_length x : (length output_dir < length (output_dir ++ 47%N :: x))%nat.
Proof. rewrite length_app. simpl. lia. Qed.

Lemma filter_no_sep listing :
  Forall (fun f => ~ In 47%N f) listing -> Forall (fun f => ~ In 47%N f) (List.filter is_pdf_name listing).
Proof.
  rewrite !Forall_forall. intros Hl f Hf. apply filter_In in Hf as [Hf _]. exact (Hl f Hf).
Qed.

Section Main.
Context `{PdfSource}.

(** After [makedirs] the output directory is ready. *)
Lemma makedirs_ready d :
  files d !! str "/app" = None -> files d !! output_dir = None ->
  (forall x, ~ In 47%N x -> output_dir ++ 47%N :: x ∉ dirs d) ->
  exists d', makedirs output_dir d = inr d' /\ out_ready d' /\ files d' = files d.
Proof.
  intros Ha Ho Hsub. unfold makedirs. rewrite dir_prefixes_output_dir, makedirs_go_spec.
  2:{ intros p [<-|[<-|[]]]; assumption. }
  eexists. split; [reflexivity|]. split; [|reflexivity]. split; [cbn; set_solver|]. split; [cbn; set_solver|].
  intros x Hx. cbn [dirs list_to_set]. pose proof (output_dir_child_length x) as Hl.
  rewrite !elem_of_union, !elem_of_singleton. intros [[E|[E|E]]|E].
  - rewrite E in Hl. simpl in Hl. lia.
  - rewrite E in Hl. lia.
  - set_solver.
  - exact (Hsub x Hx E).
Qed.

(** C11: When neither "/app" nor the output directory is a regular file
    and no directory sits where an output would be written, [main] never
    raises an [OSError]: the only exceptions it can end with are a
    listed input's extraction failure and an encoding error. *)
Theorem main_os_safe listing d :
  Forall (fun f => ~ In 47%N f) listing ->
  files d !! str "/app" = None -> files d !! output_dir = None ->
  (forall x, ~ In 47%N x -> output_dir ++ 47%N :: x ∉ dirs d) ->
  no_os_error (main listing d).2 = true.
Proof.
  intros Hl Ha Ho Hsub. destruct (makedirs_ready d Ha Ho Hsub) as (d' & Hm & Hr & _).
  unfold main. rewrite Hm. apply main_loop_no_os; [exact Hr|apply filter_no_sep, Hl].
Qed.

(** C27: When the output directory is a regular file, [makedirs] raises
    [FileExistsError] and no input is processed. *)
Theorem main_output_dir_is_file listing d :
  files d !! str "/app" = None -> is_Some (files d !! output_dir) ->
  main listing d = (d, Some (OSErr (FileExists output_dir))).
Proof.
  intros Ha Ho. unfold main, makedirs. rewrite dir_prefixes_output_dir. cbn [makedirs_go].
  rewrite bool_decide_eq_false_2 by (rewrite Ha; intros [? ?]; discriminate).
  rewrite bool_decide_eq_true_2 by exact Ho. reflexivity.
Qed.
(** C29: End to end: on a disk where [makedirs] succeeds, when every
    [.pdf] input of the listing can be read, has no surrogate in its
    words, and their output names are distinct, [main] raises nothing,
    creates "/app" and the output directory, and leaves for every input
    a file at its output path whose bytes read back as the input's
    title and outline. *)
Theorem main_correct listing d :
  Forall (fun f => ~ In 47%N f) listing ->
  files d !! str "/app" = None -> files d !! output_dir = None ->
  (forall x, ~ In 47%N x -> output_dir ++ 47%N :: x ∉ dirs d) ->
  (forall f, In f (List.filter is_pdf_name listing) ->
     exists pages, pdf_pages (path_join input_dir f) = inr pages /\ no_surrogates pages = true) ->
  NoDup (map output_path (List.filter is_pdf_name listing)) ->
  (main listing d).2 = None /\ str "/app" ∈ dirs (main listing d).1 /\ output_dir ∈ dirs (main listing d).1 /\
  forall f pages, In f (List.filter is_pdf_name listing) -> pdf_pages (path_join input_dir f) = inr pages ->
    (files (main listing d).1 !! output_path f ≫= read_file) = Some (build_result (collect_lines 1 pages)).
Proof.
  intros Hl Ha Ho Hsub Hok Hnd. unfold main, makedirs. rewrite dir_prefixes_output_dir, makedirs_go_spec.
  2:{ intros p [<-|[<-|[]]]; assumption. }
  destruct (makedirs_ready d Ha Ho Hsub) as (d' & Hm & Hr & _). unfold makedirs in Hm.
  rewrite dir_prefixes_output_dir, makedirs_go_spec in Hm by (intros p [<-|[<-|[]]]; assumption).
  injection Hm as <-. rewrite (proj1 (main_loop_mono _ _ [])).
  destruct (main_loop_all _ _ Hr (filter_no_sep _ Hl) Hok Hnd) as [Hn Hall].
  split; [exact Hn|]. split; [cbn; set_solver|]. split; [cbn; set_solver|exact Hall].
Qed.
End Main.

(** ** Case-insensitive suffix *)

Lemma rfind_none c x : ~ In c x -> rfind c x = None.
Proof.
  induction x as [|d x IH]; intros Hx; [reflexivity|]. simpl. rewrite IH by (intros H; apply Hx; right; exact H).
  destruct (N.eqb_spec d c) as [->|]; [exfalso; apply Hx; left; reflexivity|reflexivity].
Qed.

Lemma rfind_last c s x : ~ In c x -> rfind c (s ++ c :: x) = Some (length s).
Proof.
  intros Hx. induction s as [|d s IH]; simpl; [rewrite rfind_none, N.eqb_refl by exact Hx|rewrite IH]; reflexivity.
Qed.

(** The stem of a name with a three-letter extension. *)
Lemma path_stem_ext s e :
  s <> [] -> length e = 3%nat -> ~ In 46%N e -> path_stem (s ++ 46%N :: e) = s.
Proof.
  intros Hs He Hn. unfold path_stem. rewrite rfind_last by exact Hn. rewrite length_app. cbn [length]. rewrite He.
  assert (Hl : (0 < length s)%nat) by (destruct s; [contradiction|simpl; lia]).
  rewrite (proj2 (Nat.ltb_lt _ _)) by lia. rewrite (proj2 (Nat.ltb_lt _ _)) by lia. cbn [andb].
  rewrite take_app_length. reflexivity.
Qed.

Lemma ends_with_app suffix x : ends_with suffix (x ++ suffix) = true.
Proof. unfold ends_with. rewrite rev_app_distr. apply is_prefix_app. Qed.

Lemma is_pdf_name_app s t : py_lower t = str ".pdf" -> is_pdf_name (s ++ t) = true.
Proof. intros Ht. unfold is_pdf_name, py_lower. rewrite flat_map_app. fold (py_lower t). rewrite Ht. apply ends_with_app. Qed.

(** C32: For every non-empty stem, "<stem>.pdf" and "<stem>.PDF" are
    both taken as inputs and write the same output file, so the second
    overwrites the first. *)
Theorem output_path_case_collision s :
  s <> [] ->
  is_pdf_name (s ++ str ".pdf") = true /\ is_pdf_name (s ++ str ".PDF") = true /\
  output_path (s ++ str ".pdf") = output_path (s ++ str ".PDF").
Proof.
  intros Hs. split; [|split]; [apply is_pdf_name_app; reflexivity..|].
  unfold output_path. change (str ".pdf") with (46%N :: str "pdf"). change (str ".PDF") with (46%N :: str "PDF").
  rewrite !path_stem_ext by (exact Hs || reflexivity || (simpl; intuition discriminate)).
  reflexivity.
Qed.

(** ** Witnesses *)

Lemma output_path_case_collision_witness :
  str "report" <> [] /\
  is_pdf_name (str "report" ++ str ".pdf") = true /\ is_pdf_name (str "report" ++ str ".PDF") = true /\
  output_path (str "report" ++ str ".pdf") = output_path (str "report" ++ str ".PDF").
Proof. split; [decide_closed|apply output_path_case_collision; decide_closed]. Defined.

Lemma demo_disk_ready : out_ready demo_disk.
Proof.
  split; [cbn; set_solver|]. split; [cbn; set_solver|]. intros x _. pose proof (output_dir_child_length x) as Hl. unfold demo_disk; cbn [dirs].
  rewrite elem_of_union, !elem_of_singleton. intros [E|E]; rewrite E in Hl; simpl in Hl; lia.
Qed.

Lemma main_loop_failure_witness :
  @main_loop demo_source ([str "a.pdf"] ++ str "bad.pdf" :: [str "c.pdf"]) demo_disk =
  ((@main_loop demo_source [str "a.pdf"] demo_disk).1,
   Some (Extract (ExtractionFailure (str "/app/input/bad.pdf")))).
Proof.
  apply (@main_loop_failure demo_source).
  - exact demo_disk_ready.
  - repeat constructor; simpl; intros Hc; decompose sum Hc; discriminate.
  - intros g [<-|[]]. eexists _, _. split; [reflexivity|vm_compute; reflexivity].
  - reflexivity.
Defined.

(** The bytes written for the scenario document. *)
Definition scenario_bytes : list N :=
  match utf8_encode (output_text (build_result (collect_lines 1 scenario_pages))) with
  | inr bs => bs
  | inl _ => []
  end.

Lemma main_loop_overwrite_witness :
  @main_loop demo_source [str "report.pdf"; str "report.PDF"] demo_disk =
  (mkDisk (dirs demo_disk) (<[output_path (str "report.PDF") := scenario_bytes]> (files demo_disk)), None).
Proof.
  apply (@main_loop_overwrite demo_source _ _ scenario_pages scenario_pages scenario_bytes).
  - exact demo_disk_ready.
  - simpl. intros Hc. decompose sum Hc; discriminate.
  - simpl. intros Hc. decompose sum Hc; discriminate.
  - reflexivity.
  - reflexivity.
  - reflexivity.
  - vm_compute. reflexivity.
  - vm_compute. reflexivity.
Defined.

Lemma main_os_safe_witness :
  no_os_error (@main demo_source [str "a.pdf"; str "bad.pdf"; str "notes.txt"] (mkDisk ∅ ∅)).2 = true.
Proof.
  apply (@main_os_safe demo_source).
  - repeat constructor; simpl; intros Hc; decompose sum Hc; discriminate.
  - reflexivity.
  - reflexivity.
  - intros x _. cbn [dirs]. apply not_elem_of_empty.
Defined.

Lemma main_output_dir_is_file_witness :
  @main demo_source [str "a.pdf"] (mkDisk ∅ {[output_dir := []]}) =
  (mkDisk ∅ {[output_dir := []]}, Some (OSErr (FileExists output_dir))).
Proof.
  apply (@main_output_dir_is_file demo_source).
  - reflexivity.
  - cbn [files]. rewrite lookup_singleton_eq. eexists. reflexivity.
Defined.

Lemma main_correct_witness :
  (@main demo_source [str "a.pdf"; str "notes.txt"; str "b.PDF"] (mkDisk ∅ ∅)).2 = None /\
  str "/app" ∈ dirs (@main demo_source [str "a.pdf"; str "notes.txt"; str "b.PDF"] (mkDisk ∅ ∅)).1 /\
  output_dir ∈ dirs (@main demo_source [str "a.pdf"; str "notes.txt"; str "b.PDF"] (mkDisk ∅ ∅)).1 /\
  forall f pages, In f (List.filter is_pdf_name [str "a.pdf"; str "notes.txt"; str "b.PDF"]) ->
    @pdf_pages demo_source (path_join input_dir f) = inr pages ->
    (files (@main demo_source [str "a.pdf"; str "notes.txt"; str "b.PDF"] (mkDisk ∅ ∅)).1
       !! output_path f ≫= read_file) = Some (build_result (collect_lines 1 pages)).
Proof.
  apply (@main_correct demo_source).
  - repeat constructor; simpl; intros Hc; decompose sum Hc; discriminate.
  - reflexivity.
  - reflexivity.
  - intros x _. cbn [dirs]. apply not_elem_of_empty.
  - vm_compute. intros f [<-|[<-|[]]]; eexists; split; reflexivity.
  - change (NoDup [output_path (str "a.pdf"); output_path (str "b.PDF")]).
    repeat constructor; rewrite list_elem_of_In; [intros [Hc|[]]; vm_compute in Hc; discriminate|intros []].
Defined.
